(** * Verification of the slash-command layer of the Mattermost GitHub plugin

    A shallow embedding of the Go sources of the plugin
    ([server/plugin/command.go], [subscriptions.go], [plugin.go], [api.go])
    together with the properties established about them.

    Go strings are byte sequences and are modelled by [string]; Go maps by
    stdpp's [gmap]; the key-value store, the chat server and the GitHub API
    are an explicit world that the handlers thread through a small
    state monad. *)

From Stdlib Require Import String Ascii ZArith List Bool Lia.
From Stdlib Require Import Sorting.Sorted Sorting.Permutation.
From stdpp Require Import base option list gmap strings sorting.

Local Open Scope string_scope.
Local Open Scope list_scope.

(** ** Runes: Go's [unicode/utf8] and [unicode] *)

Module GoUnicode.

Local Open Scope Z_scope.

(** A rune is an [int32] code point. *)
Definition rune := Z.

Definition RuneError : rune := 65533.

Definition byteZ (c : ascii) : Z := Z.of_nat (nat_of_ascii c).

Definition asciiZ (z : Z) : ascii := ascii_of_nat (Z.to_nat z).

(** A continuation byte: [0x80..0xBF]. *)
Definition isCont (b : Z) : bool := (128 <=? b) && (b <=? 191).

Definition inRange (lo hi b : Z) : bool := (lo <=? b) && (b <=? hi).

(** The range the second byte of a sequence must lie in, by its first
    byte (the [acceptRanges] table of [unicode/utf8]). *)
Definition acceptLo (b0 : Z) : Z :=
  if b0 =? 224 then 160 else if b0 =? 240 then 144 else 128.

Definition acceptHi (b0 : Z) : Z :=
  if b0 =? 237 then 159 else if b0 =? 244 then 143 else 191.

(** [utf8.DecodeRuneInString] over the whole string, as the loop
    [for _, char := range input] applies it: a byte that starts no valid
    sequence gives [RuneError] and is skipped alone. *)
Fixpoint runes (s : string) : list rune :=
  match s with
  | EmptyString => []
  | String c0 rest0 =>
      let b0 := byteZ c0 in
      if b0 <? 128 then b0 :: runes rest0
      else
        match rest0 with
        | String c1 rest1 =>
            let b1 := byteZ c1 in
            if inRange 194 223 b0 then
              if isCont b1
              then Z.lor (Z.shiftl (Z.land b0 31) 6) (Z.land b1 63) :: runes rest1
              else RuneError :: runes rest0
            else if inRange 224 239 b0 then
              match rest1 with
              | String c2 rest2 =>
                  let b2 := byteZ c2 in
                  if inRange (acceptLo b0) (acceptHi b0) b1 && isCont b2
                  then Z.lor (Z.shiftl (Z.land b0 15) 12)
                         (Z.lor (Z.shiftl (Z.land b1 63) 6) (Z.land b2 63))
                       :: runes rest2
                  else RuneError :: runes rest0
              | EmptyString => RuneError :: runes rest0
              end
            else if inRange 240 244 b0 then
              match rest1 with
              | String c2 (String c3 rest3) =>
                  let b2 := byteZ c2 in
                  let b3 := byteZ c3 in
                  if inRange (acceptLo b0) (acceptHi b0) b1 && isCont b2 && isCont b3
                  then Z.lor (Z.shiftl (Z.land b0 7) 18)
                         (Z.lor (Z.shiftl (Z.land b1 63) 12)
                            (Z.lor (Z.shiftl (Z.land b2 63) 6) (Z.land b3 63)))
                       :: runes rest3
                  else RuneError :: runes rest0
              | _ => RuneError :: runes rest0
              end
            else RuneError :: runes rest0
        | EmptyString => [RuneError]
        end
  end.

(** The continuation byte carrying bits [shift .. shift+5] of [r]. *)
Definition contByte (r : rune) (shift : Z) : ascii :=
  asciiZ (Z.lor 128 (Z.land (Z.shiftr r shift) 63)).

(** [string(r)]: the UTF-8 encoding of a rune; runes out of range and
    surrogates are encoded as [RuneError]. *)
Definition encodeRune (r : rune) : string :=
  if (0 <=? r) && (r <=? 127) then String (asciiZ r) EmptyString
  else if (0 <=? r) && (r <=? 2047) then
    String (asciiZ (Z.lor 192 (Z.shiftr r 6))) (String (contByte r 0) EmptyString)
  else if (r <? 0) || (1114111 <? r) || inRange 55296 57343 r then
    String (asciiZ 239) (String (asciiZ 191) (String (asciiZ 189) EmptyString))
  else if r <=? 65535 then
    String (asciiZ (Z.lor 224 (Z.shiftr r 12)))
      (String (contByte r 6) (String (contByte r 0) EmptyString))
  else
    String (asciiZ (Z.lor 240 (Z.shiftr r 18)))
      (String (contByte r 12) (String (contByte r 6) (String (contByte r 0) EmptyString))).

(** [unicode.IsSpace]: the Latin-1 spaces, then the [White_Space] table. *)
Definition IsSpace (r : rune) : bool :=
  if (0 <=? r) && (r <=? 255) then
    inRange 9 13 r || (r =? 32) || (r =? 133) || (r =? 160)
  else
    (r =? 5760) || inRange 8192 8202 r || (r =? 8232) || (r =? 8233)
    || (r =? 8239) || (r =? 8287) || (r =? 12288).

(** [utf8.DecodeRuneInString]: the first rune of [s] and the number of
    bytes it takes; [(RuneError, 0)] on the empty string and
    [(RuneError, 1)] on a byte that starts no valid sequence. *)
Definition DecodeRuneInString (s : string) : rune * nat :=
  match s with
  | EmptyString => (RuneError, 0%nat)
  | String c0 rest0 =>
      let b0 := byteZ c0 in
      if b0 <? 128 then (b0, 1%nat)
      else
        match rest0 with
        | String c1 rest1 =>
            let b1 := byteZ c1 in
            if inRange 194 223 b0 then
              if isCont b1
              then (Z.lor (Z.shiftl (Z.land b0 31) 6) (Z.land b1 63), 2%nat)
              else (RuneError, 1%nat)
            else if inRange 224 239 b0 then
              match rest1 with
              | String c2 _ =>
                  let b2 := byteZ c2 in
                  if inRange (acceptLo b0) (acceptHi b0) b1 && isCont b2
                  then (Z.lor (Z.shiftl (Z.land b0 15) 12)
                          (Z.lor (Z.shiftl (Z.land b1 63) 6) (Z.land b2 63)), 3%nat)
                  else (RuneError, 1%nat)
              | EmptyString => (RuneError, 1%nat)
              end
            else if inRange 240 244 b0 then
              match rest1 with
              | String c2 (String c3 _) =>
                  let b2 := byteZ c2 in
                  let b3 := byteZ c3 in
                  if inRange (acceptLo b0) (acceptHi b0) b1 && isCont b2 && isCont b3
                  then (Z.lor (Z.shiftl (Z.land b0 7) 18)
                          (Z.lor (Z.shiftl (Z.land b1 63) 12)
                             (Z.lor (Z.shiftl (Z.land b2 63) 6) (Z.land b3 63))), 4%nat)
                  else (RuneError, 1%nat)
              | _ => (RuneError, 1%nat)
              end
            else (RuneError, 1%nat)
        | EmptyString => (RuneError, 1%nat)
        end
  end.

(** [s[i]] as a number; 0 out of range, where the callers do not look. *)
Definition byteAt (s : string) (i : nat) : Z :=
  match String.get i s with
  | Some c => byteZ c
  | None => 0
  end.

(** [utf8.RuneStart]: the byte is no continuation byte. *)
Definition RuneStart (b : Z) : bool := negb (Z.land b 192 =? 128).

(** The loop of [utf8.DecodeLastRuneInString] that walks back from
    [start] to the byte a rune can start with, not below [lim]. *)
Fixpoint lastRuneStart (fuel : nat) (s : string) (start lim : Z) : Z :=
  match fuel with
  | O => start
  | S fuel' =>
      if start <? lim then start
      else if RuneStart (byteAt s (Z.to_nat start)) then start
      else lastRuneStart fuel' s (start - 1) lim
  end.

(** [utf8.DecodeLastRuneInString]: the last rune of [s] and the number of
    bytes it takes. *)
Definition DecodeLastRuneInString (s : string) : rune * nat :=
  let end_ := Z.of_nat (String.length s) in
  if end_ =? 0 then (RuneError, 0%nat)
  else
    let r := byteAt s (Z.to_nat (end_ - 1)) in
    if r <? 128 then (r, 1%nat)
    else
      (* guard against O(n^2) behavior when traversing backwards through
         strings with long sequences of invalid UTF-8 *)
      let lim := Z.max 0 (end_ - 4) in
      let start := Z.max 0 (lastRuneStart 4 s (end_ - 2) lim) in
      let '(r, size) :=
        DecodeRuneInString
          (String.substring (Z.to_nat start) (Z.to_nat (end_ - start)) s) in
      if negb (start + Z.of_nat size =? end_) then (RuneError, 1%nat)
      else (r, size).

(** [unicode.ToLower].  [LowerCase] is [unicode.To(unicode.LowerCase, r)],
    which reads the case tables of the Unicode data; it is asked only
    about runes above ASCII. *)
Definition unicode_ToLower (LowerCase : rune -> rune) (r : rune) : rune :=
  if r <=? 127 then
    if (65 <=? r) && (r <=? 90) then r + 32 else r
  else LowerCase r.

End GoUnicode.

Import GoUnicode.

(** ** Go's [strings] package, as far as the plugin uses it *)

Module GoStrings.

Import GoUnicode.

(** [strings.HasPrefix(s, prefix)]. *)
Definition HasPrefix (s pre : string) : bool := String.prefix pre s.

(** [strings.Join(elems, sep)]. *)
Definition Join (elems : list string) (sep : string) : string :=
  String.concat sep elems.

(** [strings.Split(s, sep)] for a separator of one byte, which is the only
    way the plugin calls it ([","]): the pieces between the separators, in
    order; the empty string gives one empty piece. *)
Fixpoint Split (s : string) (sep : ascii) : list string :=
  match s with
  | EmptyString => [EmptyString]
  | String c rest =>
      if Ascii.eqb c sep then EmptyString :: Split rest sep
      else match Split rest sep with
           | [] => [String c EmptyString]
           | piece :: pieces => String c piece :: pieces
           end
  end.

(** [strings.Contains(s, string(c))] for a one-byte needle. *)
Fixpoint ContainsByte (s : string) (c : ascii) : bool :=
  match s with
  | EmptyString => false
  | String d rest => Ascii.eqb d c || ContainsByte rest c
  end.

(** [strings.Contains(s, substr)]. *)
Fixpoint Contains (s substr : string) : bool :=
  String.prefix substr s ||
  match s with
  | EmptyString => false
  | String _ rest => Contains rest substr
  end.

(** Whether every byte is below [utf8.RuneSelf]. *)
Fixpoint isASCII (s : string) : bool :=
  match s with
  | EmptyString => true
  | String c rest => (nat_of_ascii c <? 128)%nat && isASCII rest
  end.

(** One byte folded to lower case: ['A'..'Z'] go to ['a'..'z'], every
    other byte stays. *)
Definition lower_byte (c : ascii) : ascii :=
  let n := nat_of_ascii c in
  if (65 <=? n)%nat && (n <=? 90)%nat then ascii_of_nat (n + 32) else c.

(** The path [strings.ToLower] takes on a string that is all ASCII. *)
Fixpoint lowerASCII (s : string) : string :=
  match s with
  | EmptyString => EmptyString
  | String c rest => String (lower_byte c) (lowerASCII rest)
  end.

(** [strings.Map(mapping, s)]: every rune of [s] (a byte that starts no
    valid sequence counts as [RuneError]) is replaced by its image, and
    dropped where the image is negative. *)
Definition Map (mapping : rune -> rune) (s : string) : string :=
  fold_right
    (fun c rest =>
       let r := mapping c in
       if (0 <=? r)%Z then encodeRune r +:+ rest else rest)
    EmptyString (runes s).

(** [strings.ToLower(s)], given the lower-case table of the Unicode data. *)
Definition ToLower (LowerCase : rune -> rune) (s : string) : string :=
  if isASCII s then lowerASCII s else Map (unicode_ToLower LowerCase) s.

(** [strings.Trim(s, string(c))]: leading and trailing [c] removed. *)
Fixpoint TrimLeftByte (s : string) (c : ascii) : string :=
  match s with
  | EmptyString => EmptyString
  | String d rest => if Ascii.eqb d c then TrimLeftByte rest c else s
  end.

Fixpoint TrimRightByte (s : string) (c : ascii) : string :=
  match s with
  | EmptyString => EmptyString
  | String d rest =>
      match TrimRightByte rest c with
      | EmptyString => if Ascii.eqb d c then EmptyString else String d EmptyString
      | kept => String d kept
      end
  end.

Definition TrimByte (s : string) (c : ascii) : string :=
  TrimRightByte (TrimLeftByte s c) c.

(** [s[n:]] and [s[:n]]. *)
Definition dropBytes (n : nat) (s : string) : string :=
  String.substring n (String.length s - n) s.

Definition takeBytes (n : nat) (s : string) : string := String.substring 0 n s.

(** [strings.TrimLeftFunc(s, f)]: the runes are decoded from the left, up
    to the first that [f] rejects. *)
Fixpoint trimLeftLoop (fuel : nat) (f : rune -> bool) (s : string) : string :=
  match fuel, s with
  | _, EmptyString => EmptyString
  | O, _ => s
  | S fuel', _ =>
      let '(r, size) := DecodeRuneInString s in
      if f r then trimLeftLoop fuel' f (dropBytes size s) else s
  end.

Definition TrimLeftFunc (s : string) (f : rune -> bool) : string :=
  trimLeftLoop (String.length s) f s.

(** [lastIndexFunc(s, f, false)]: the runes are decoded from the right,
    down to the first that [f] rejects; [None] is [-1]. *)
Fixpoint lastIndexLoop (fuel : nat) (f : rune -> bool) (s : string) : option nat :=
  match fuel, s with
  | _, EmptyString => None
  | O, _ => None
  | S fuel', _ =>
      let '(r, size) := DecodeLastRuneInString s in
      let i := (String.length s - size)%nat in
      if f r then lastIndexLoop fuel' f (takeBytes i s) else Some i
  end.

(** [strings.TrimRightFunc(s, f)]. *)
Definition TrimRightFunc (s : string) (f : rune -> bool) : string :=
  match lastIndexLoop (String.length s) f s with
  | None => EmptyString
  | Some i =>
      if (128 <=? byteAt s i)%Z
      then takeBytes (i + (DecodeRuneInString (dropBytes i s)).2) s
      else takeBytes (i + 1) s
  end.

(** [strings.TrimFunc(s, f)]. *)
Definition TrimFunc (s : string) (f : rune -> bool) : string :=
  TrimRightFunc (TrimLeftFunc s f) f.

(** The table [asciiSpace] of [strings.TrimSpace]. *)
Definition is_ascii_space (c : ascii) : bool :=
  let n := nat_of_ascii c in
  ((9 <=? n)%nat && (n <=? 13)%nat) || (n =? 32)%nat.

(** The second loop of [strings.TrimSpace], over [s[start:stop]] from its
    end: ASCII white space is cut, and a byte that is not ASCII hands over
    to [TrimRightFunc]. *)
Fixpoint trimSpaceStop (fuel : nat) (s : string) : string :=
  match fuel, s with
  | _, EmptyString => EmptyString
  | O, _ => s
  | S fuel', _ =>
      let stop := String.length s in
      match String.get (stop - 1) s with
      | None => s
      | Some c =>
          if (128 <=? nat_of_ascii c)%nat then TrimRightFunc s IsSpace
          else if is_ascii_space c then trimSpaceStop fuel' (takeBytes (stop - 1) s)
          else s
      end
  end.

(** [strings.TrimSpace(s)]; the recursion is its first loop, over [s] from
    its start: ASCII white space is skipped, and a byte that is not ASCII
    hands over to [TrimFunc]. *)
Fixpoint TrimSpace (s : string) : string :=
  match s with
  | EmptyString => EmptyString
  | String c rest =>
      if (128 <=? nat_of_ascii c)%nat then TrimFunc s IsSpace
      else if is_ascii_space c then TrimSpace rest
      else trimSpaceStop (String.length s) s
  end.

(** Go's [s < t] on strings: byte-wise lexicographic order. *)
Definition lt (s t : string) : bool := String.ltb s t.
Definition le (s t : string) : bool := String.leb s t.

End GoStrings.

Import GoStrings.

(** ** Feature categories ([command.go]) *)

Definition featureIssueCreation : string := "issue_creations".
Definition featureIssues : string := "issues".
Definition featurePulls : string := "pulls".
Definition featurePullsMerged : string := "pulls_merged".
Definition featurePullsCreated : string := "pulls_created".
Definition featurePushes : string := "pushes".
Definition featureCreates : string := "creates".
Definition featureDeletes : string := "deletes".
Definition featureIssueComments : string := "issue_comments".
Definition featurePullReviews : string := "pull_reviews".
Definition featureStars : string := "stars".
Definition featureReleases : string := "releases".
Definition featureWorkflowFailure : string := "workflow_failure".
Definition featureWorkflowSuccess : string := "workflow_success".
Definition featureDiscussions : string := "discussions".
Definition featureDiscussionComments : string := "discussion_comments".

(** The entries of the [validFeatures] map literal, in source order. *)
Definition validFeatures_entries : list (string * bool) :=
  [ (featureIssueCreation, true); (featureIssues, true); (featurePulls, true);
    (featurePullsMerged, true); (featurePullsCreated, true);
    (featurePushes, true); (featureCreates, true); (featureDeletes, true);
    (featureIssueComments, true); (featurePullReviews, true);
    (featureStars, true); (featureReleases, true);
    (featureWorkflowFailure, true); (featureWorkflowSuccess, true);
    (featureDiscussions, true); (featureDiscussionComments, true) ].

(** The sixteen feature categories, by name. *)
Definition featureCategories : list string :=
  [ "issue_creations"; "issues"; "pulls"; "pulls_merged"; "pulls_created";
    "pushes"; "creates"; "deletes"; "issue_comments"; "pull_reviews";
    "stars"; "releases"; "workflow_failure"; "workflow_success";
    "discussions"; "discussion_comments" ].

(** [var validFeatures = map[string]bool{...}]. *)
Definition validFeatures : gmap string bool := list_to_map validFeatures_entries.

(** [_, ok := validFeatures[f]]. *)
Definition isValidFeature (f : string) : bool :=
  match validFeatures !! f with
  | Some _ => true
  | None => false
  end.

(** The three loop variables of [validateFeatures]. *)
Record validateState := {
  vs_valid : bool;
  vs_invalidFeatures : list string;
  vs_hasLabel : bool
}.

(** One iteration of the first loop of [validateFeatures]. *)
Definition validateStep (st : validateState) (f : string) : validateState :=
  if isValidFeature f then st
  else if HasPrefix f "label" then
    {| vs_valid := vs_valid st;
       vs_invalidFeatures := vs_invalidFeatures st;
       vs_hasLabel := true |}
  else
    {| vs_valid := false;
       vs_invalidFeatures := vs_invalidFeatures st ++ [f];
       vs_hasLabel := vs_hasLabel st |}.

(** The test of the second loop of [validateFeatures]. *)
Definition isLabelCarrier (f : string) : bool :=
  String.eqb f featurePulls || String.eqb f featureIssues
  || String.eqb f featureIssueCreation.

(** [validateFeatures]: false when one or more features are invalid, along
    with the list of the invalid ones. *)
Definition validateFeatures (features : list string) : bool * list string :=
  let st := fold_left validateStep features
              {| vs_valid := true; vs_invalidFeatures := []; vs_hasLabel := false |} in
  if vs_valid st && vs_hasLabel st then
    if existsb isLabelCarrier features
    then (vs_valid st, vs_invalidFeatures st)
    else (false, vs_invalidFeatures st)
  else (vs_valid st, vs_invalidFeatures st).

(** [SliceContainsString] and [contains]: linear membership tests. *)
Definition SliceContainsString (a : list string) (x : string) : bool :=
  existsb (fun n => String.eqb x n) a.

Definition contains (s : list string) (e : string) : bool :=
  existsb (fun a => String.eqb a e) s.

(** [checkFeatureConflict]: false when the features cannot be combined,
    along with the conflicting pair. *)
Definition checkFeatureConflict (fs : list string) : bool * list string :=
  if SliceContainsString fs featureIssues && SliceContainsString fs featureIssueCreation
  then (false, [featureIssues; featureIssueCreation])
  else if SliceContainsString fs featurePulls && SliceContainsString fs featurePullsMerged
  then (false, [featurePulls; featurePullsMerged])
  else if SliceContainsString fs featurePulls && SliceContainsString fs featurePullsCreated
  then (false, [featurePulls; featurePullsCreated])
  else (true, []).

(** [type Features string] with its methods. *)
Definition Features := string.

Definition Features_ToSlice (features : Features) : list string :=
  Split features ","%char.

Definition Features_FormattedString (features : Features) : string :=
  "`" +:+ Join (Split features ","%char) "`, `" +:+ "`".

(** The double quote byte, a quoted word, the line feed, and a quoted
    label feature such as [label:"ruby"]. *)
Definition dquote : ascii := ascii_of_nat 34.

Definition quoted (s : string) : string :=
  String dquote (s +:+ String dquote EmptyString).

Definition nl : string := String (ascii_of_nat 10) EmptyString.

Definition labelFeature (name : string) : string :=
  "label:" +:+ String dquote (name +:+ String dquote EmptyString).

(** ** Parsing a slash command ([command.go]) *)

(** The loop variables of [parseCommand]. *)
Record parseState := {
  ps_split : list string;
  ps_current : string;
  ps_inQuotes : bool
}.

Definition parseInit : parseState :=
  {| ps_split := []; ps_current := EmptyString; ps_inQuotes := false |}.

(** One iteration of the loop of [parseCommand] over the rune [char]. *)
Definition parseStep (st : parseState) (char : rune) : parseState :=
  if IsSpace char then
    if ps_inQuotes st then
      (* keep whitespaces that are inside double quotes *)
      {| ps_split := ps_split st;
         ps_current := ps_current st +:+ " ";
         ps_inQuotes := ps_inQuotes st |}
    else if (String.length (ps_current st) =? 0)%nat && negb (ps_inQuotes st) then
      (* ignore successive whitespaces that are outside of double quotes *)
      st
    else
      (* append the current word to the list and move on *)
      {| ps_split := ps_split st ++ [ps_current st];
         ps_current := EmptyString;
         ps_inQuotes := ps_inQuotes st |}
  else
    {| ps_split := ps_split st;
       ps_current := ps_current st +:+ encodeRune char;
       ps_inQuotes := if (char =? 34)%Z then negb (ps_inQuotes st) else ps_inQuotes st |}.

(** Two stages of the loop of [parseCommand]: nothing has been collected
    yet; a token is complete or under way. *)
Definition nothingParsed (st : parseState) : Prop :=
  ps_split st = [] /\ ps_current st = EmptyString /\ ps_inQuotes st = false.

Definition somethingParsed (st : parseState) : Prop :=
  ps_split st <> [] \/ ps_current st <> EmptyString.

(** The token list [split] as it stands when [parseCommand] indexes it. *)
Definition parseTokens (input : string) : list string :=
  let st := fold_left parseStep (runes input) parseInit in
  if (0 <? String.length (ps_current st))%nat
  then ps_split st ++ [ps_current st]
  else ps_split st.

(** [parseCommand]: the command, the action and the parameters.  [None] is
    the run-time panic of [split[0]] on an empty token list. *)
Definition parseCommand (input : string) : option (string * string * list string) :=
  let split := parseTokens input in
  match split with
  | [] => None
  | command :: rest =>
      let action := match rest with
                    | a :: _ => a
                    | [] => EmptyString
                    end in
      let parameters := if (2 <? length split)%nat then drop 2 split else [] in
      Some (command, action, parameters)
  end.

(** ** Subscriptions and their flags ([subscriptions.go]) *)

Definition SubscriptionsKey : string := "subscriptions".
Definition flagExcludeOrgMember : string := "exclude-org-member".
Definition flagIncludeOnlyOrgMembers : string := "include-only-org-members".
Definition flagRenderStyle : string := "render-style".
Definition flagFeatures : string := "features".
Definition flagExcludeRepository : string := "exclude".

Record SubscriptionFlags := {
  ExcludeOrgMembers : bool;
  IncludeOnlyOrgMembers : bool;
  RenderStyle : string;
  ExcludeRepository : list string
}.

(** The zero value [SubscriptionFlags{}]. *)
Definition noFlags : SubscriptionFlags :=
  {| ExcludeOrgMembers := false; IncludeOnlyOrgMembers := false;
     RenderStyle := EmptyString; ExcludeRepository := [] |}.

(** [strconv.ParseBool]; [None] is its syntax error. *)
Definition ParseBool (str : string) : option bool :=
  if existsb (String.eqb str) ["1"; "t"; "T"; "TRUE"; "true"; "True"] then Some true
  else if existsb (String.eqb str) ["0"; "f"; "F"; "FALSE"; "false"; "False"] then Some false
  else None.

(** [SubscriptionFlags.AddFlag]; [None] is the returned error, in which
    case the flags are left as they were. *)
Definition AddFlag (s : SubscriptionFlags) (flag value : string) : option SubscriptionFlags :=
  if String.eqb flag flagExcludeOrgMember then
    match ParseBool value with
    | None => None
    | Some parsed =>
        Some {| ExcludeOrgMembers := parsed;
                IncludeOnlyOrgMembers := IncludeOnlyOrgMembers s;
                RenderStyle := RenderStyle s;
                ExcludeRepository := ExcludeRepository s |}
    end
  else if String.eqb flag flagIncludeOnlyOrgMembers then
    match ParseBool value with
    | None => None
    | Some parsed =>
        Some {| ExcludeOrgMembers := ExcludeOrgMembers s;
                IncludeOnlyOrgMembers := parsed;
                RenderStyle := RenderStyle s;
                ExcludeRepository := ExcludeRepository s |}
    end
  else if String.eqb flag flagRenderStyle then
    Some {| ExcludeOrgMembers := ExcludeOrgMembers s;
            IncludeOnlyOrgMembers := IncludeOnlyOrgMembers s;
            RenderStyle := value;
            ExcludeRepository := ExcludeRepository s |}
  else if String.eqb flag flagExcludeRepository then
    Some {| ExcludeOrgMembers := ExcludeOrgMembers s;
            IncludeOnlyOrgMembers := IncludeOnlyOrgMembers s;
            RenderStyle := RenderStyle s;
            ExcludeRepository := map TrimSpace (Split value ","%char) |}
  else Some s.

(** [SubscriptionFlags.String]. *)
Definition SubscriptionFlags_String (s : SubscriptionFlags) : string :=
  let flags :=
    (if ExcludeOrgMembers s then ["--" +:+ flagExcludeOrgMember +:+ " true"] else [])
    ++ (if IncludeOnlyOrgMembers s then ["--" +:+ flagIncludeOnlyOrgMembers +:+ " true"] else [])
    ++ (if negb (String.eqb (RenderStyle s) EmptyString)
        then ["--" +:+ flagRenderStyle +:+ " " +:+ RenderStyle s] else [])
    ++ (if (0 <? length (ExcludeRepository s))%nat
        then ["--" +:+ flagExcludeRepository +:+ " " +:+ Join (ExcludeRepository s) ","] else [])
  in Join flags ",".

Record Subscription := {
  ChannelID : string;
  CreatorID : string;
  sub_Features : Features;
  Flags : SubscriptionFlags;
  Repository : string
}.

(** [type Subscriptions struct { Repositories map[string][]*Subscription }]. *)
Record Subscriptions := {
  Repositories : gmap string (list Subscription)
}.

Definition emptySubscriptions : Subscriptions := {| Repositories := ∅ |}.

(** ** The plugin and the world around it *)

(** A Go function result [(value, error)] of which the caller reads the
    value only when the error is nil; an error is its message. *)
Inductive res (A : Type) : Type :=
| Ok (a : A)
| Err (msg : string).

Arguments Ok {A} a.
Arguments Err {A} msg.

(** [errors.Wrap(err, msg).Error()]. *)
Definition Wrap (err msg : string) : string := msg +:+ ": " +:+ err.

(** The part of the configuration the commands read; [getBaseURL],
    [getOrganizations] and [IsValid] live in [configuration.go] and are
    represented by what they return ([IsValid] by its error, if any). *)
Record Configuration := {
  GitHubOrg : string;
  EnablePrivateRepo : bool;
  ConnectToPrivateByDefault : bool;
  getBaseURL : string;
  getOrganizations : list string;
  IsValid : option string
}.

(** [model.User]: the name, the roles, and whether [Props] has the key
    [git_user]. *)
Record User := { Username : string; Roles : string; Props_git_user : bool }.

Record GhRepository := { GetPrivate : bool }.

Record Post := {
  post_UserId : string;
  post_ChannelId : string;
  post_RootId : string;
  post_Message : string;
  post_Type : string
}.

Record CommandArgs := {
  Command : string;
  args_ChannelId : string;
  args_UserId : string;
  args_RootId : string
}.

Record GitHubUserInfo := { UserID : string; GitHubUsername : string }.

(** What a handler does to the outside world besides writing the store. *)
Inductive Effect : Type :=
| EffCreatePost (post : Post)
| EffEphemeralPost (userID : string) (post : Post)
| EffLog (level msg : string)
| EffUserUpdate (userID : string)
| EffWebSocketEvent (event userID : string)
| EffStartWizard (wizard userID : string).

(** The mutable world: the record stored under [SubscriptionsKey] ([None]
    while nothing is stored), the byte-valued records of the store (muted
    users, default repositories), and the effects so far, oldest first. *)
Record State := {
  st_subscriptions : option Subscriptions;
  st_bytes : gmap string string;
  st_effects : list Effect
}.

(** How a call ends: it returns, or the Go run time panics. *)
Inductive outcome (A : Type) : Type :=
| Returned (a : A)
| Panicked (reason : string).

Arguments Returned {A} a.
Arguments Panicked {A} reason.

(** Handlers are state transformers that may panic. *)
Definition M (A : Type) : Type := State -> outcome A * State.

Definition ret {A} (a : A) : M A := fun st => (Returned a, st).

Definition bind {A B} (m : M A) (k : A -> M B) : M B :=
  fun st =>
    match m st with
    | (Returned a, st') => k a st'
    | (Panicked reason, st') => (Panicked reason, st')
    end.

Definition panic {A} (reason : string) : M A := fun st => (Panicked reason, st).

Definition get : M State := fun st => (Returned st, st).

Definition emit (e : Effect) : M unit :=
  fun st => (Returned tt,
             {| st_subscriptions := st_subscriptions st;
                st_bytes := st_bytes st;
                st_effects := st_effects st ++ [e] |}).

Notation "'do' x <- m ; k" := (bind m (fun x => k))
  (at level 10, x name, m at level 100, k at level 200).
Notation "'run' m ; k" := (bind m (fun _ => k))
  (at level 10, m at level 100, k at level 200).

(** The receiver [p *Plugin]: its configuration and its collaborators.
    A collaborator is given by what its calls answer.  The helpers of
    [utils.go] are fields too, so that every result holds whatever they
    compute, and so are the two choices Go leaves to the run time: the
    order in which [range] visits a map, and the order [sort.Slice] leaves
    equal elements in. *)
Record Plugin := {
  configuration : Configuration;
  BotUserID : string;
  (* KvStore: the error of an operation on a key, if it fails.  The store
     answers the same way each time it is asked: a result that needs a
     later operation to succeed says so in a premise of its own *)
  store_Get_error : string -> option string;
  store_Set_error : string -> option string;
  store_SetAtomicWithRetries_error : string -> option string;
  store_Delete_error : string -> option string;
  (* the chat server *)
  client_User_Get : string -> res User;
  client_User_Update_error : string -> option string;
  client_Channel_GetDirect : string -> string -> res string;
  client_Post_CreatePost_error : Post -> option string;
  (* the GitHub client: the error of [GetGitHubClient] on the token and
     the configuration, if the client cannot be made; and both results of
     a call, value (or its presence) and error *)
  GetGitHubClient_error : option string;
  Organizations_Get : string -> bool * option string;
  Users_Get : string -> bool * option string;
  Repositories_Get : string -> string -> option GhRepository * option string;
  (* the site URL, and the pages of hooks GitHub lists for an owner and a
     repo (for the organization when the repo is empty): on each page the
     url of each hook, if it has one, and the error of the call *)
  getSiteURL : res string;
  ListHooks : string -> string -> list (list (option string) * option string);
  (* the setup wizards of the flow manager, by name: the error of starting
     one, if any *)
  flowManager_Start : string -> string -> option string;
  (* command.BuildInfo on the manifest, and buildPluginURL for the OAuth
     connect page *)
  BuildInfo : res string;
  buildPluginURL : res string;
  (* getGitHubUserInfo, which reads the token record of the user: the
     connected account, or the ID of the API error *)
  getGitHubUserInfo : string -> GitHubUserInfo + string;
  (* the handlers of the actions disconnect, todo, me, help, settings and
     issue, which are not embedded here *)
  otherHandlers : gmap string (CommandArgs -> list string -> GitHubUserInfo -> M string);
  (* utils.go *)
  parseOwnerAndRepo : string -> string -> string * string;
  isFlag : string -> bool;
  parseFlag : string -> string;
  fullNameFromOwnerAndRepo : string -> string -> string;
  (* the Go run time: [unicode.To(unicode.LowerCase, r)] on the case
     tables of the Unicode data, the order of [range] over a map, and
     [sort.Slice] *)
  unicode_LowerCase : rune -> rune;
  mapRange : gmap string (list Subscription) -> list (string * list Subscription);
  sortSlice : (Subscription -> Subscription -> bool) -> list Subscription -> list Subscription
}.

(** What Go promises of [range] over a map and of [sort.Slice]: every entry
    is visited once, and the slice is permuted so that no element is less
    than one before it. *)
Record GoRuntime (p : Plugin) : Prop := {
  mapRange_perm : forall m, mapRange p m ≡ₚ map_to_list m;
  sortSlice_perm : forall less l, sortSlice p less l ≡ₚ l;
  sortSlice_sorted : forall less l,
    Transitive (fun a b => less b a = false) ->
    Total (fun a b => less b a = false) ->
    StronglySorted (fun a b => less b a = false) (sortSlice p less l)
}.

Definition invalidTokenError : string := "401 Bad credentials".
Definition githubTokenKey : string := "_githubtoken".
Definition githubUsernameKey : string := "_githubusername".
Definition wsEventDisconnect : string := "disconnect".

(** [runtime error: invalid memory address or nil pointer dereference]. *)
Definition nilDereference : string := "invalid memory address or nil pointer dereference".

(** [p.client.Log.Warn] and [p.client.Log.Error]. *)
Definition LogWarn (msg : string) : M unit := emit (EffLog "warn" msg).
Definition LogError (msg : string) : M unit := emit (EffLog "error" msg).

(** [p.store.Get(key, &bytes)]: a key that is absent leaves the bytes empty. *)
Definition store_Get_bytes (p : Plugin) (key : string) : M (res string) :=
  fun st =>
    match store_Get_error p key with
    | Some e => (Returned (Err e), st)
    | None => (Returned (Ok (default EmptyString (st_bytes st !! key))), st)
    end.

(** [p.store.Set(key, bytes)]; the result is the error, if any. *)
Definition store_Set_bytes (p : Plugin) (key value : string) : M (option string) :=
  fun st =>
    match store_Set_error p key with
    | Some e => (Returned (Some e), st)
    | None => (Returned None,
               {| st_subscriptions := st_subscriptions st;
                  st_bytes := <[key := value]> (st_bytes st);
                  st_effects := st_effects st |})
    end.

(** [p.store.Delete(key)]; the result is the error, if any. *)
Definition store_Delete (p : Plugin) (key : string) : M (option string) :=
  fun st =>
    match store_Delete_error p key with
    | Some e => (Returned (Some e), st)
    | None => (Returned None,
               {| st_subscriptions := st_subscriptions st;
                  st_bytes := delete key (st_bytes st);
                  st_effects := st_effects st |})
    end.

(** [GetSubscriptions]. *)
Definition GetSubscriptions (p : Plugin) : M (res Subscriptions) :=
  fun st =>
    match store_Get_error p SubscriptionsKey with
    | Some e => (Returned (Err (Wrap e "could not get subscriptions from KVStore")), st)
    | None =>
        match st_subscriptions st with
        | None => (Returned (Ok emptySubscriptions), st)   (* No subscriptions stored. *)
        | Some subscriptions => (Returned (Ok subscriptions), st)
        end
    end.

(** [StoreSubscriptions]: the whole record is written through
    [SetAtomicWithRetries]. *)
Definition StoreSubscriptions (p : Plugin) (s : Subscriptions) : M (option string) :=
  fun st =>
    match store_SetAtomicWithRetries_error p SubscriptionsKey with
    | Some e => (Returned (Some e), st)
    | None => (Returned None,
               {| st_subscriptions := Some s;
                  st_bytes := st_bytes st;
                  st_effects := st_effects st |})
    end.

(** The loop of [AddSubscription] over [repoSubs]: the first subscription of
    the same channel is replaced in place; [None] when there is none. *)
Fixpoint replaceForChannel (repoSubs : list Subscription) (sub : Subscription)
  : option (list Subscription) :=
  match repoSubs with
  | [] => None
  | s :: rest =>
      if String.eqb (ChannelID s) (ChannelID sub) then Some (sub :: rest)
      else option_map (cons s) (replaceForChannel rest sub)
  end.

(** [AddSubscription]. *)
Definition AddSubscription (p : Plugin) (repo : string) (sub : Subscription) : M (option string) :=
  do r <- GetSubscriptions p;
  match r with
  | Err e => ret (Some (Wrap e "could not get subscriptions"))
  | Ok subs =>
      let repoSubs :=
        match Repositories subs !! repo with
        | None => [sub]
        | Some repoSubs =>
            match replaceForChannel repoSubs sub with
            | Some replaced => replaced
            | None => repoSubs ++ [sub]
            end
        end in
      do err <- StoreSubscriptions p {| Repositories := <[repo := repoSubs]> (Repositories subs) |};
      match err with
      | Some e => ret (Some (Wrap e "could not store subscriptions"))
      | None => ret None
      end
  end.

(** The body of the two nested loops of [GetSubscriptionsByChannel] for one
    map entry: the subscriptions of the channel, an empty [Repository]
    replaced by the key (kept for backwards compatibility). *)
Definition channelSubsOfEntry (channelID : string) (entry : string * list Subscription)
  : list Subscription :=
  flat_map (fun s =>
    if String.eqb (ChannelID s) channelID then
      [ if (String.length (Repository s) =? 0)%nat
        then {| ChannelID := ChannelID s; CreatorID := CreatorID s;
                sub_Features := sub_Features s; Flags := Flags s;
                Repository := entry.1 |}
        else s ]
    else []) entry.2.

(** The comparison handed to [sort.Slice]. *)
Definition lessByRepository (a b : Subscription) : bool :=
  GoStrings.lt (Repository a) (Repository b).

(** [GetSubscriptionsByChannel]. *)
Definition GetSubscriptionsByChannel (p : Plugin) (channelID : string)
  : M (res (list Subscription)) :=
  do r <- GetSubscriptions p;
  match r with
  | Err e => ret (Err (Wrap e "could not get subscriptions"))
  | Ok subs =>
      let filteredSubs :=
        flat_map (channelSubsOfEntry channelID) (mapRange p (Repositories subs)) in
      ret (Ok (sortSlice p lessByRepository filteredSubs))
  end.

(** The loop of [Unsubscribe]: the first subscription of the channel is cut
    out; [None] when there is none. *)
Fixpoint removeForChannel (repoSubs : list Subscription) (channelID : string)
  : option (list Subscription) :=
  match repoSubs with
  | [] => None
  | sub :: rest =>
      if String.eqb (ChannelID sub) channelID then Some rest
      else option_map (cons sub) (removeForChannel rest channelID)
  end.

(** [Unsubscribe]; the result is the error, if any. *)
Definition Unsubscribe (p : Plugin) (channelID repo owner : string) : M (option string) :=
  let repoWithOwner := owner +:+ "/" +:+ repo in
  do r <- GetSubscriptions p;
  match r with
  | Err e => ret (Some (Wrap e "could not get subscriptions"))
  | Ok subs =>
      match Repositories subs !! repoWithOwner with
      | None => ret None
      | Some repoSubs =>
          match removeForChannel repoSubs channelID with
          | Some remaining =>
              do err <- StoreSubscriptions p
                          {| Repositories := <[repoWithOwner := remaining]> (Repositories subs) |};
              match err with
              | Some e => ret (Some (Wrap e "could not store subscriptions"))
              | None => ret None
              end
          | None => ret None
          end
      end
  end.

(** [checkOrg]; the result is the error, if any. *)
Definition checkOrg (p : Plugin) (org : string) : option string :=
  let config := configuration p in
  let orgList := getOrganizations config in
  if (length orgList =? 0)%nat then None
  else if existsb (fun configOrg => String.eqb configOrg (ToLower (unicode_LowerCase p) org))
            orgList then None
  else Some ("only repositories in the " +:+ GitHubOrg config
             +:+ " organization(s) are supported").

(** [isOrganizationLocked]. *)
Definition isOrganizationLocked (p : Plugin) : bool :=
  negb (String.eqb (TrimSpace (GitHubOrg (configuration p))) EmptyString).

(** [CreateBotDMPost]: a direct message of the bot; errors are logged and
    not returned. *)
Definition CreateBotDMPost (p : Plugin) (userID message postType : string) : M unit :=
  match client_Channel_GetDirect p userID (BotUserID p) with
  | Err _ => LogWarn "Couldn't get bot's DM channel"
  | Ok channelID =>
      let post := {| post_UserId := BotUserID p; post_ChannelId := channelID;
                     post_RootId := EmptyString; post_Message := message;
                     post_Type := postType |} in
      match client_Post_CreatePost_error p post with
      | Some _ => LogWarn "Failed to create DM post"
      | None => emit (EffCreatePost post)
      end
  end.

(** [disconnectGitHubAccount]: the token record of the user and the
    record of the GitHub name are deleted, the property [git_user] of the
    chat user is dropped, and the web app is told.  The account is the one
    [getGitHubUserInfo] answers with; without one, nothing is done. *)
Definition disconnectGitHubAccount (p : Plugin) (userID : string) : M unit :=
  match getGitHubUserInfo p userID with
  | inr _ => ret tt
  | inl userInfo =>
      do err <- store_Delete p (userID +:+ githubTokenKey);
      run (match err with
           | Some _ => LogWarn "Failed to delete github token from KV store"
           | None => ret tt
           end);
      do err <- store_Delete p (GitHubUsername userInfo +:+ githubUsernameKey);
      run (match err with
           | Some _ => LogWarn "Failed to delete github token from KV store"
           | None => ret tt
           end);
      run (match client_User_Get p userID with
           | Err _ => LogWarn "Failed to get user props"
           | Ok user =>
               if Props_git_user user then
                 match client_User_Update_error p userID with
                 | Some _ => LogWarn "Failed to get update user props"
                 | None => emit (EffUserUpdate userID)
                 end
               else ret tt
           end);
      emit (EffWebSocketEvent wsEventDisconnect userID)
  end.

(** [handleRevokedToken]. *)
Definition handleRevokedToken (p : Plugin) (userID : string) : M unit :=
  run disconnectGitHubAccount p userID;
  CreateBotDMPost p userID
    "Your Github account was disconnected due to an invalid or revoked authorization token. Reconnect your account using the `/github connect` command."
    "custom_git_revoked_token".

(** [useGitHubClient], for the user [info.UserID] and the error [toRun]
    came back with. *)
Definition useGitHubClient (p : Plugin) (userID : string) (err : option string)
  : M (option string) :=
  match err with
  | None => ret None
  | Some e =>
      run LogWarn "Error occurred while using the Github client";
      run (if Contains e invalidTokenError then handleRevokedToken p userID else ret tt);
      ret (Some e)
  end.

(** [githubConnectUser]: whether the client it returns is not nil.  (The
    token of an [info] that [getGitHubUserInfo] returned is not nil.) *)
Definition githubConnectUser (p : Plugin) : M bool :=
  match GetGitHubClient_error p with
  | Some _ => run LogWarn "Failed to create GitHub client"; ret false
  | None => ret true
  end.

(** [Subscribe]; the result is the error, if any.  [githubClient] tells
    whether the client is not nil: a call on a nil client panics. *)
Definition Subscribe (p : Plugin) (githubClient : bool)
    (userID owner repo channelID : string)
    (features : Features) (flags : SubscriptionFlags) : M (option string) :=
  if String.eqb owner EmptyString then ret (Some "invalid repository")
  else
    let owner := ToLower (unicode_LowerCase p) owner in
    let repo := ToLower (unicode_LowerCase p) repo in
    match checkOrg p owner with
    | Some e => ret (Some (Wrap e "organization not supported"))
    | None =>
      if ExcludeOrgMembers flags && negb (isOrganizationLocked p) then
        ret (Some "Unable to set --exclude-org-member flag. The GitHub plugin is not locked to a single organization.")
      else if IncludeOnlyOrgMembers flags && negb (isOrganizationLocked p) then
        ret (Some "Unable to set --include-only-org-members flag. The GitHub plugin is not locked to a single organization.")
      else
        let fullName := fullNameFromOwnerAndRepo p owner repo in
        (* the lookup of the organization (or user) or of the repository:
           [Err] is an early return, [Ok] carries [err] and [cErr] *)
        do looked <-
          (if negb githubClient then panic nilDereference
           else if String.eqb repo EmptyString then
             let '(ghOrg, err) := Organizations_Get p owner in
             do cErr <- useGitHubClient p userID err;
             if negb ghOrg then
               let '(ghUser, err) := Users_Get p owner in
               if negb ghUser then ret (Err ("Unknown organization " +:+ owner))
               else ret (Ok (err, cErr))
             else ret (Ok (err, cErr))
           else
             let '(ghRepo, err) := Repositories_Get p owner repo in
             do cErr <- useGitHubClient p userID err;
             match ghRepo with
             | None => ret (Err ("unknown repository " +:+ fullName))
             | Some _ => ret (Ok (err, cErr))
             end);
        match looked with
        | Err e => ret (Some e)
        | Ok (err, Some _) =>
            match err with
            | None => panic nilDereference
            | Some _ =>
                run LogWarn "Failed to get repository or org for subscribe action";
                ret (Some ("Encountered an error subscribing to " +:+ fullName))
            end
        | Ok (_, None) =>
            let sub := {| ChannelID := channelID; CreatorID := userID;
                          sub_Features := features; Repository := fullName;
                          Flags := flags |} in
            do err <- AddSubscription p fullName sub;
            match err with
            | Some e => ret (Some (Wrap e "could not add subscription"))
            | None => ret None
            end
        end
    end.

(** [SubscribeOrg]. *)
Definition SubscribeOrg (p : Plugin) (githubClient : bool) (userID org channelID : string)
    (features : Features) (flags : SubscriptionFlags) : M (option string) :=
  if String.eqb org EmptyString then ret (Some "invalid organization")
  else Subscribe p githubClient userID org EmptyString channelID features flags.

(** [createPost]; the result is the error, if any. *)
Definition createPost (p : Plugin) (channelID userID message : string) : M (option string) :=
  let post := {| post_ChannelId := channelID; post_UserId := userID;
                 post_RootId := EmptyString; post_Message := message;
                 post_Type := EmptyString |} in
  match client_Post_CreatePost_error p post with
  | Some e => run LogWarn "Error while creating post"; ret (Some e)
  | None => run emit (EffCreatePost post); ret None
  end.

(** [getSubscribedFeatures]. *)
Definition getSubscribedFeatures (p : Plugin) (channelID owner repo : string)
  : M (res Features) :=
  do r <- GetSubscriptionsByChannel p channelID;
  match r with
  | Err e => ret (Err e)
  | Ok subs =>
      let fullRepoName :=
        if negb (String.eqb owner EmptyString) then owner +:+ "/" +:+ repo else repo in
      match List.find (fun sub => String.eqb (Repository sub) fullRepoName) subs with
      | Some sub => ret (Ok (sub_Features sub))
      | None => ret (Ok EmptyString)
      end
  end.

(** One line of the listing of [handleSubscriptionsList]. *)
Definition subscriptionLine (sub : Subscription) : string :=
  let subFlags := SubscriptionFlags_String (Flags sub) in
  "* `" +:+ TrimByte (Repository sub) "/"%char +:+ "` - " +:+ sub_Features sub
  +:+ (if negb (String.eqb subFlags EmptyString) then " " +:+ subFlags else EmptyString)
  +:+ nl.

(** [handleSubscriptionsList]. *)
Definition handleSubscriptionsList (p : Plugin) (args : CommandArgs) : M string :=
  do r <- GetSubscriptionsByChannel p (args_ChannelId args);
  match r with
  | Err e => ret e
  | Ok subs =>
      let txt :=
        if (length subs =? 0)%nat
        then "Currently there are no subscriptions in this channel"
        else "### Subscriptions in this channel" +:+ nl in
      ret (fold_left (fun txt sub => txt +:+ subscriptionLine sub) subs txt)
  end.

(** ** Subscribing ([handleSubscribesAdd]) *)

Definition msgFlagFormat : string :=
  "Please use the correct format for flags: --<name> <value>".

Definition msgExcludeOnlyForOrg : string :=
  "Exclude repository feature is only available to subscriptions of an organization.".

Definition msgLabelNeedsCarrier : string :=
  "Feature list must have " +:+ quoted "pulls" +:+ ", " +:+ quoted "issues"
  +:+ " or " +:+ quoted "issue_creations" +:+ " when using a label.".

Definition errorNoWebhookFound : string :=
  nl +:+ "**Note:** No webhook was found for this repository or organization. To create one, enter the following slash command `/github setup webhook`".

(** The loop of [handleSubscribesAdd] over the pairs of [flagParams]; [Err]
    is the message of an early return. *)
Fixpoint subscribeFlagLoop (p : Plugin) (flagParams : list string)
    (subscriptionEvents : Features) (flags : SubscriptionFlags)
  : res (Features * SubscriptionFlags) :=
  match flagParams with
  | flag :: value :: rest =>
      if negb (isFlag p flag) then Err msgFlagFormat
      else
        let parsedFlag := parseFlag p flag in
        if String.eqb parsedFlag flagFeatures then
          subscribeFlagLoop p rest value flags
        else
          match AddFlag flags parsedFlag value with
          | None => Err ("Unsupported value for flag " +:+ flag)
          | Some flags' => subscribeFlagLoop p rest subscriptionEvents flags'
          end
  | _ => Ok (subscriptionEvents, flags)
  end.

(** The block [if len(parameters) > 1 { ... }] of [handleSubscribesAdd]:
    the events and the flags it leaves, or the message of an early return. *)
Definition subscribeFlags (p : Plugin) (flagParams : list string)
  : res (Features * SubscriptionFlags) :=
  let subscriptionEvents : Features := "pulls,issues,creates,deletes" in
  if (0 <? length flagParams)%nat then
    if negb (length flagParams mod 2 =? 0)%nat then Err msgFlagFormat
    else
      match subscribeFlagLoop p flagParams subscriptionEvents noFlags with
      | Err m => Err m
      | Ok (subscriptionEvents, flags) =>
          let fs := Features_ToSlice subscriptionEvents in
          let '(ok, conflictingFs) := checkFeatureConflict fs in
          if negb ok then
            match conflictingFs with
            | [a; b] => Err ("Feature list cannot contain both " +:+ a +:+ " and " +:+ b)
            | _ => Err ("Conflicting feature(s) provided: " +:+ Join conflictingFs ",")
            end
          else
            let '(ok, ifs) := validateFeatures fs in
            if negb ok then
              if (length ifs =? 0)%nat then Err msgLabelNeedsCarrier
              else Err ("Invalid feature(s) provided: " +:+ Join ifs ",")
            else Ok (subscriptionEvents, flags)
      end
  else Ok (subscriptionEvents, noFlags).

(** The inner loop of [checkIfConfiguredWebhookExists] over the hooks of
    one page, up to the first hook whose url contains the site URL.  [None]
    is the panic of the type assertion on a hook without a url. *)
Fixpoint scanHooks (siteURL : string) (githubHooks : list (option string)) : option bool :=
  match githubHooks with
  | [] => Some false
  | None :: _ => None
  | Some url :: rest =>
      if Contains url siteURL then Some true else scanHooks siteURL rest
  end.

(** The outer loop of [checkIfConfiguredWebhookExists] over the pages; it
    ends at the last page ([NextPage == 0]) or at the first error. *)
Fixpoint hooksLoop (p : Plugin) (userID siteURL : string)
    (pages : list (list (option string) * option string)) (found : bool)
  : M (bool * option string) :=
  match pages with
  | [] => ret (found, None)
  | (githubHooks, err) :: rest =>
      do cErr <- useGitHubClient p userID err;
      match cErr with
      | Some e =>
          run LogWarn "Not able to get the list of webhooks";
          ret (found, Some e)
      | None =>
          match scanHooks siteURL githubHooks with
          | None => panic "interface conversion: interface {} is nil, not string"
          | Some foundHere =>
              match rest with
              | [] => ret (found || foundHere, None)
              | _ => hooksLoop p userID siteURL rest (found || foundHere)
              end
          end
      end
  end.

(** [checkIfConfiguredWebhookExists]. *)
Definition checkIfConfiguredWebhookExists (p : Plugin) (userInfo : GitHubUserInfo)
    (repo owner : string) : M (bool * option string) :=
  match getSiteURL p with
  | Err e => ret (false, Some e)
  | Ok siteURL => hooksLoop p (UserID userInfo) siteURL (ListHooks p owner repo) false
  end.

(** The tail shared by both branches of [handleSubscribesAdd]: what the
    webhook check turns the success message into. *)
Definition afterWebhookCheck (p : Plugin) (userInfo : GitHubUserInfo)
    (repo owner : string) (success : string) : M string :=
  do checked <- checkIfConfiguredWebhookExists p userInfo repo owner;
  let '(found, foundErr) := checked in
  match foundErr with
  | Some e =>
      if Contains e "404 Not Found" then ret EmptyString
      else ret (Wrap e "failed to get the list of webhooks")
  | None => if negb found then ret errorNoWebhookFound else ret success
  end.

(** [handleSubscribesAdd].  The calls on [githubClient] after [Subscribe]
    has returned no error are calls on a client that is not nil, since
    [Subscribe] has called it. *)
Definition handleSubscribesAdd (p : Plugin) (args : CommandArgs)
    (parameters : list string) (userInfo : GitHubUserInfo) : M string :=
  match parameters with
  | [] => ret "Please specify a repository."
  | target :: flagParams =>
    let baseURL := getBaseURL (configuration p) in
    match subscribeFlags p flagParams with
    | Err m => ret m
    | Ok (subscriptionEvents, flags) =>
      do githubClient <- githubConnectUser p;
      match client_User_Get p (args_UserId args) with
      | Err e => ret (Wrap e "failed to get the user")
      | Ok user =>
        let '(owner, repo) := parseOwnerAndRepo p target baseURL in
        do prev <- getSubscribedFeatures p (args_ChannelId args) owner repo;
        match prev with
        | Err e => ret (Wrap e "failed to get the subscribed events")
        | Ok previousSubscribedEvents =>
          let overwritten := negb (String.eqb previousSubscribedEvents EmptyString) in
          let previousSubscribedEventMessage :=
            if overwritten then
              nl +:+ "The previous subscription with: "
              +:+ Features_FormattedString previousSubscribedEvents
              +:+ " was overwritten." +:+ nl
            else EmptyString in
          if String.eqb repo EmptyString then
            do err <- SubscribeOrg p githubClient (args_UserId args) owner
                        (args_ChannelId args) subscriptionEvents flags;
            match err with
            | Some e => ret (Wrap e "failed to get the subscribed org")
            | None =>
              let orgLink := baseURL +:+ owner in
              let subscriptionSuccess :=
                "@" +:+ Username user +:+ " subscribed this channel to [" +:+ owner
                +:+ "](" +:+ orgLink +:+ ") with the following events: "
                +:+ Features_FormattedString subscriptionEvents +:+ "."
                +:+ (if overwritten then previousSubscribedEventMessage else EmptyString) in
              do perr <- createPost p (args_ChannelId args) (BotUserID p) subscriptionSuccess;
              match perr with
              | Some e =>
                  ret (subscriptionSuccess +:+ " error creating the public post: " +:+ e)
              | None =>
                  afterWebhookCheck p userInfo repo owner
                    ("Successfully subscribed to organization " +:+ owner +:+ ".")
              end
            end
          else if (0 <? length (ExcludeRepository flags))%nat then
            ret msgExcludeOnlyForOrg
          else
            do err <- Subscribe p githubClient (args_UserId args) owner repo
                        (args_ChannelId args) subscriptionEvents flags;
            match err with
            | Some e => ret (Wrap e "failed to create a subscription")
            | None =>
              let repoLink := baseURL +:+ owner +:+ "/" +:+ repo in
              let msg :=
                "@" +:+ Username user +:+ " subscribed this channel to [" +:+ owner
                +:+ "/" +:+ repo +:+ "](" +:+ repoLink +:+ ") with the following events: "
                +:+ Features_FormattedString subscriptionEvents
                +:+ (if overwritten then previousSubscribedEventMessage else EmptyString) in
              let '(ghRepo, gerr) := Repositories_Get p owner repo in
              let msg :=
                match gerr, ghRepo with
                | None, Some r =>
                    if GetPrivate r then
                      msg +:+ nl +:+ nl +:+
                          "**Warning:** You subscribed to a private repository. Anyone with access to this channel will be able to read the events getting posted here."
                    else msg
                | _, _ => msg
                end in
              do cErr <- useGitHubClient p (UserID userInfo) gerr;
              run (match cErr with
                   | Some _ => LogWarn "Failed to fetch repository"
                   | None => ret tt
                   end);
              do perr <- createPost p (args_ChannelId args) (BotUserID p) msg;
              match perr with
              | Some e => ret (msg +:+ nl +:+ "Error creating the public post: " +:+ e)
              | None => afterWebhookCheck p userInfo repo owner msg
              end
            end
        end
      end
    end
  end.

(** ** Unsubscribing and the default repository *)

(** [handleUnsubscribe]. *)
Definition handleUnsubscribe (p : Plugin) (args : CommandArgs)
    (parameters : list string) : M string :=
  match parameters with
  | [] => ret "Please specify a repository."
  | repo0 :: _ =>
    let config := configuration p in
    let '(owner, repo) := parseOwnerAndRepo p repo0 (getBaseURL config) in
    if String.eqb owner EmptyString && String.eqb repo EmptyString then
      ret "invalid repository"
    else
      let owner := ToLower (unicode_LowerCase p) owner in
      let repo := ToLower (unicode_LowerCase p) repo in
      do err <- Unsubscribe p (args_ChannelId args) repo owner;
      match err with
      | Some e =>
          run LogWarn "Failed to unsubscribe";
          ret "Encountered an error trying to unsubscribe. Please try again."
      | None =>
        let baseURL := getBaseURL config in
        match client_User_Get p (args_UserId args) with
        | Err e =>
            run LogWarn "Error while fetching user details";
            ret ("error while fetching user details: " +:+ e)
        | Ok user =>
          if String.eqb repo EmptyString then
            let orgLink := baseURL +:+ owner in
            let unsubscribeMessage :=
              "@" +:+ Username user +:+ " unsubscribed this channel from [" +:+ owner
              +:+ "](" +:+ orgLink +:+ ")" in
            do perr <- createPost p (args_ChannelId args) (BotUserID p) unsubscribeMessage;
            match perr with
            | Some e =>
                ret (unsubscribeMessage +:+ " error creating the public post: " +:+ e)
            | None => ret EmptyString
            end
          else
            let repoLink := baseURL +:+ owner +:+ "/" +:+ repo in
            let unsubscribeMessage :=
              "@" +:+ Username user +:+ " Unsubscribed this channel from [" +:+ owner
              +:+ "/" +:+ repo +:+ "](" +:+ repoLink +:+ ")"
              +:+ nl +:+ " Please delete the [webhook](" +:+ repoLink
              +:+ "/settings/hooks) for this subscription unless it's required for other subscriptions." in
            do perr <- createPost p (args_ChannelId args) (BotUserID p) unsubscribeMessage;
            match perr with
            | Some e =>
                ret (unsubscribeMessage +:+ " error creating the public post: " +:+ e)
            | None => ret EmptyString
            end
        end
      end
  end.

(** [fmt.Sprintf(DefaultRepoKey, channelID, userID)] with
    [DefaultRepoKey = "%s_%s-default-repo"]. *)
Definition DefaultRepoKey (channelID userID : string) : string :=
  channelID +:+ "_" +:+ userID +:+ "-default-repo".

(** [handleSetDefaultRepo]. *)
Definition handleSetDefaultRepo (p : Plugin) (args : CommandArgs)
    (parameters : list string) (userInfo : GitHubUserInfo) : M string :=
  match parameters with
  | [] => ret "Please specify a repository."
  | repo0 :: _ =>
    let config := configuration p in
    let baseURL := getBaseURL config in
    let '(owner, repo) := parseOwnerAndRepo p repo0 baseURL in
    if String.eqb owner EmptyString || String.eqb repo EmptyString then
      ret "Please provide a valid repository"
    else
      let owner := ToLower (unicode_LowerCase p) owner in
      let repo := ToLower (unicode_LowerCase p) repo in
      if negb (String.eqb (GitHubOrg config) EmptyString)
         && negb (String.eqb (ToLower (unicode_LowerCase p) (GitHubOrg config)) owner) then
        ret ("Repository is not part of the locked Github organization. Locked Github organization: "
             +:+ GitHubOrg config)
      else
        do githubClient <- githubConnectUser p;
        if negb githubClient then panic nilDereference
        else
        let '(ghRepo, err) := Repositories_Get p owner repo in
        match err, ghRepo with
        | Some _, _ => ret "Error occurred while getting github repository details"
        | None, None =>
            ret ("Unknown repository " +:+ fullNameFromOwnerAndRepo p owner repo)
        | None, Some _ =>
            do serr <- store_Set_bytes p
                         (DefaultRepoKey (args_ChannelId args) (UserID userInfo))
                         (owner +:+ "/" +:+ repo);
            match serr with
            | Some _ => ret "Error occurred saving the default repo"
            | None =>
                let repoLink := baseURL +:+ owner +:+ "/" +:+ repo in
                ret ("The default repo has been set to [" +:+ owner +:+ "/" +:+ repo
                     +:+ "](" +:+ repoLink +:+ ") for this channel")
            end
        end
  end.

(** [GetDefaultRepo]. *)
Definition GetDefaultRepo (p : Plugin) (userID channelID : string) : M (res string) :=
  store_Get_bytes p (DefaultRepoKey channelID userID).

(** [handleGetDefaultRepo]. *)
Definition handleGetDefaultRepo (p : Plugin) (args : CommandArgs)
    (userInfo : GitHubUserInfo) : M string :=
  do r <- GetDefaultRepo p (UserID userInfo) (args_ChannelId args);
  match r with
  | Err _ =>
      run LogWarn "Not able to get the default repo";
      ret "Error occurred while getting the default repo"
  | Ok defaultRepo =>
      if String.eqb defaultRepo EmptyString then
        ret "You have not set a default repository for this channel"
      else
        let repoLink := getBaseURL (configuration p) +:+ defaultRepo in
        ret ("The default repository is [" +:+ defaultRepo +:+ "](" +:+ repoLink +:+ ")")
  end.

(** [handleUnSetDefaultRepo]. *)
Definition handleUnSetDefaultRepo (p : Plugin) (args : CommandArgs)
    (userInfo : GitHubUserInfo) : M string :=
  do r <- GetDefaultRepo p (UserID userInfo) (args_ChannelId args);
  match r with
  | Err _ =>
      run LogWarn "Not able to get the default repo";
      ret "Error occurred while getting the default repo"
  | Ok defaultRepo =>
      if String.eqb defaultRepo EmptyString then
        ret "You have not set a default repository for this channel"
      else
        do derr <- store_Delete p (DefaultRepoKey (args_ChannelId args) (UserID userInfo));
        match derr with
        | Some _ => ret "Error occurred while unsetting the repo for this channel"
        | None => ret "The default repository has been unset successfully"
        end
  end.

(** ** Muted users *)

(** The key of the muted-users record of a user. *)
Definition mutedUsersKey (userInfo : GitHubUserInfo) : string :=
  UserID userInfo +:+ "-muted-users".

(** [getMutedUsernames]. *)
Definition getMutedUsernames (p : Plugin) (userInfo : GitHubUserInfo)
  : M (res (list string)) :=
  do r <- store_Get_bytes p (mutedUsersKey userInfo);
  match r with
  | Err e => ret (Err e)
  | Ok mutedUsernames =>
      if (String.length mutedUsernames =? 0)%nat then ret (Ok [])
      else ret (Ok (Split mutedUsernames ","%char))
  end.

Definition msgMutedReadFailed : string :=
  "An error occurred getting muted users. Please try again later".

(** [handleMuteList]. *)
Definition handleMuteList (p : Plugin) (userInfo : GitHubUserInfo) : M string :=
  do r <- getMutedUsernames p userInfo;
  match r with
  | Err _ =>
      run LogError "error occurred getting muted users.";
      ret msgMutedReadFailed
  | Ok mutedUsernames =>
      let mutedUsers :=
        fold_left (fun acc user => acc +:+ "- " +:+ user +:+ nl) mutedUsernames EmptyString in
      if (String.length mutedUsers =? 0)%nat then ret "You have no muted users"
      else ret ("Your muted users:" +:+ nl +:+ mutedUsers)
  end.

(** The answer of [handleMuteAdd] to a user it has muted. *)
Definition msgNowMuted (username : string) : string :=
  "`" +:+ username +:+ "`"
  +:+ " is now muted. You'll no longer receive notifications for comments in your PRs and issues.".

(** A name without a comma. *)
Definition commaFree (name : string) : Prop := ContainsByte name ","%char = false.

(** [handleMuteAdd]. *)
Definition handleMuteAdd (p : Plugin) (username : string) (userInfo : GitHubUserInfo)
  : M string :=
  do r <- getMutedUsernames p userInfo;
  match r with
  | Err _ =>
      run LogError "error occurred getting muted users.";
      ret msgMutedReadFailed
  | Ok mutedUsernames =>
      if contains mutedUsernames username then ret (username +:+ " is already muted")
      else if Contains username "," then ret "Invalid username provided"
      else
        let mutedUsers :=
          if (0 <? length mutedUsernames)%nat
          then Join mutedUsernames "," +:+ "," +:+ username
          else username in
        do serr <- store_Set_bytes p (mutedUsersKey userInfo) mutedUsers;
        match serr with
        | Some _ => ret "Error occurred saving list of muted users"
        | None => ret (msgNowMuted username)
        end
  end.

(** [arrayDifference]: the elements of [a] that are not in [b]. *)
Definition arrayDifference (a b : list string) : list string :=
  List.filter (fun x => negb (existsb (String.eqb x) b)) a.

(** [handleUnmute]. *)
Definition handleUnmute (p : Plugin) (username : string) (userInfo : GitHubUserInfo)
  : M string :=
  do r <- getMutedUsernames p userInfo;
  match r with
  | Err _ =>
      run LogError "error occurred getting muted users.";
      ret msgMutedReadFailed
  | Ok mutedUsernames =>
      let newMutedList := arrayDifference mutedUsernames [username] in
      do serr <- store_Set_bytes p (mutedUsersKey userInfo) (Join newMutedList ",");
      match serr with
      | Some _ => ret "Error occurred unmuting users"
      | None => ret ("`" +:+ username +:+ "`" +:+ " is no longer muted")
      end
  end.

(** [handleUnmuteAll]. *)
Definition handleUnmuteAll (p : Plugin) (userInfo : GitHubUserInfo) : M string :=
  do serr <- store_Set_bytes p (mutedUsersKey userInfo) EmptyString;
  match serr with
  | Some _ => ret "Error occurred unmuting users"
  | None => ret "Unmuted all users"
  end.

(** [handleMuteCommand]. *)
Definition handleMuteCommand (p : Plugin) (args : CommandArgs)
    (parameters : list string) (userInfo : GitHubUserInfo) : M string :=
  match parameters with
  | [] => ret "Invalid mute command. Available commands are 'list', 'add' and 'delete'."
  | command :: rest =>
      if String.eqb command "list" then handleMuteList p userInfo
      else if String.eqb command "add" then
        match rest with
        | [username] => handleMuteAdd p username userInfo
        | _ => ret ("Invalid number of parameters supplied to " +:+ command)
        end
      else if String.eqb command "delete" then
        match rest with
        | [username] => handleUnmute p username userInfo
        | _ => ret ("Invalid number of parameters supplied to " +:+ command)
        end
      else if String.eqb command "delete-all" then handleUnmuteAll p userInfo
      else ret ("Unknown subcommand " +:+ command)
  end.

(** ** The command dispatch *)

(** [handleSubscribe]. *)
Definition handleSubscribe (p : Plugin) (args : CommandArgs)
    (parameters : list string) (userInfo : GitHubUserInfo) : M string :=
  match parameters with
  | [] => ret "Please specify a repository or 'list' command."
  | [only] =>
      if String.eqb only "list" then handleSubscriptionsList p args
      else handleSubscribesAdd p args parameters userInfo
  | _ => handleSubscribesAdd p args parameters userInfo
  end.

(** [handleSubscriptions]. *)
Definition handleSubscriptions (p : Plugin) (args : CommandArgs)
    (parameters : list string) (userInfo : GitHubUserInfo) : M string :=
  match parameters with
  | [] => ret "Invalid subscribe command. Available commands are 'list', 'add' and 'delete'."
  | command :: parameters =>
      if String.eqb command "list" then handleSubscriptionsList p args
      else if String.eqb command "add" then handleSubscribesAdd p args parameters userInfo
      else if String.eqb command "delete" then handleUnsubscribe p args parameters
      else ret ("Unknown subcommand " +:+ command)
  end.

(** [handleDefaultRepo]. *)
Definition handleDefaultRepo (p : Plugin) (args : CommandArgs)
    (parameters : list string) (userInfo : GitHubUserInfo) : M string :=
  match parameters with
  | [] => ret "Invalid action. Available actions are 'set', 'get' and 'unset'."
  | command :: parameters =>
      if String.eqb command "set" then handleSetDefaultRepo p args parameters userInfo
      else if String.eqb command "get" then handleGetDefaultRepo p args userInfo
      else if String.eqb command "unset" then handleUnSetDefaultRepo p args userInfo
      else ret ("Unknown subcommand " +:+ command)
  end.

(** [postCommandResponse]. *)
Definition postCommandResponse (p : Plugin) (args : CommandArgs) (text : string) : M unit :=
  emit (EffEphemeralPost (args_UserId args)
          {| post_UserId := BotUserID p; post_ChannelId := args_ChannelId args;
             post_RootId := args_RootId args; post_Message := text;
             post_Type := EmptyString |}).

(** [isAuthorizedSysAdmin]. *)
Definition isAuthorizedSysAdmin (p : Plugin) (userID : string) : res bool :=
  match client_User_Get p userID with
  | Err e => Err e
  | Ok user => Ok (Contains (Roles user) "system_admin")
  end.

(** A wizard of the flow manager is started. *)
Definition startWizard (p : Plugin) (wizard userID : string) : M (option string) :=
  match flowManager_Start p wizard userID with
  | Some e => ret (Some e)
  | None => run emit (EffStartWizard wizard userID); ret None
  end.

(** [handleSetup]. *)
Definition handleSetup (p : Plugin) (args : CommandArgs) (parameters : list string)
  : M string :=
  let userID := args_UserId args in
  match isAuthorizedSysAdmin p userID with
  | Err _ =>
      run LogWarn "Failed to check if user is System Admin";
      ret "Error checking user's permissions"
  | Ok false => ret "Only System Admins are allowed to set up the plugin."
  | Ok true =>
      do started <-
        match parameters with
        | [] => do err <- startWizard p "setup" userID; ret (Ok err)
        | command :: _ =>
            if String.eqb command "oauth" then
              do err <- startWizard p "oauth" userID; ret (Ok err)
            else if String.eqb command "webhook" then
              do err <- startWizard p "webhook" userID; ret (Ok err)
            else if String.eqb command "announcement" then
              do err <- startWizard p "announcement" userID; ret (Ok err)
            else ret (Err ("Unknown subcommand " +:+ command))
        end;
      match started with
      | Err m => ret m
      | Ok (Some e) => ret e
      | Ok None => ret EmptyString
      end
  end.

Definition apiErrorIDNotConnected : string := "not_connected".

(** [p.CommandHandlers], as [NewPlugin] fills it. *)
Definition CommandHandlers (p : Plugin)
  : gmap string (CommandArgs -> list string -> GitHubUserInfo -> M string) :=
  <["subscriptions" := handleSubscriptions p]>
  (<["subscribe" := handleSubscribe p]>
  (<["unsubscribe" := fun args parameters _ => handleUnsubscribe p args parameters]>
  (<["mute" := handleMuteCommand p]>
  (<["default-repo" := handleDefaultRepo p]> (otherHandlers p))))).

(** The action [connect] of [ExecuteCommand]. *)
Definition executeConnect (p : Plugin) (args : CommandArgs) (parameters : list string)
  : M unit :=
  match buildPluginURL p with
  | Err e =>
      postCommandResponse p args ("Encountered an error connecting to GitHub: " +:+ e)
  | Ok connectURL =>
      let config := configuration p in
      let unknown (hint : string) :=
        postCommandResponse p args
          ("Unknown command `" +:+ Command args +:+ "`. Do you meant `" +:+ hint +:+ "`?") in
      let link (privateAllowed : bool) :=
        if privateAllowed then
          if negb (EnablePrivateRepo config) then
            postCommandResponse p args
              "Private repositories are disabled. Please ask a System Admin to enabled them."
          else
            postCommandResponse p args
              ("[Click here to link your GitHub account.](" +:+ connectURL
               +:+ "?private=true" +:+ ")")
        else
          postCommandResponse p args
            ("[Click here to link your GitHub account.](" +:+ connectURL +:+ ")") in
      if (0 <? length parameters)%nat then
        if ConnectToPrivateByDefault config then unknown "/github connect"
        else
          match parameters with
          | [only] =>
              if String.eqb only "private" then link true
              else unknown "/github connect private"
          | _ => unknown "/github connect private"
          end
      else link (ConnectToPrivateByDefault config)
  end.

(** [ExecuteCommand]. *)
Definition ExecuteCommand (p : Plugin) (args : CommandArgs) : M unit :=
  match parseCommand (Command args) with
  | None => panic "index out of range [0] with length 0"
  | Some (cmd, action, parameters) =>
      if negb (String.eqb cmd "/github") then ret tt
      else if String.eqb action "about" then
        postCommandResponse p args
          match BuildInfo p with
          | Ok text => text
          | Err e => Wrap e "failed to get build info"
          end
      else if String.eqb action "setup" then
        do message <- handleSetup p args parameters;
        if negb (String.eqb message EmptyString)
        then postCommandResponse p args message
        else ret tt
      else
        match IsValid (configuration p) with
        | Some validationErr =>
            match isAuthorizedSysAdmin p (args_UserId args) with
            | Err _ =>
                run LogWarn "Error checking user's permissions";
                postCommandResponse p args "Error checking user's permissions"
            | Ok true =>
                postCommandResponse p args
                  ("Before using this plugin, you'll need to configure it by running `/github setup`: "
                   +:+ validationErr)
            | Ok false =>
                postCommandResponse p args
                  "Please contact your system administrator to correctly configure the GitHub plugin."
            end
        | None =>
            if String.eqb action "connect" then executeConnect p args parameters
            else
              match getGitHubUserInfo p (args_UserId args) with
              | inr errorID =>
                  postCommandResponse p args
                    (if String.eqb errorID apiErrorIDNotConnected
                     then "You must connect your account to GitHub first. Either click on the GitHub logo in the bottom left of the screen or enter `/github connect`."
                     else "Unknown error.")
              | inl info =>
                  match CommandHandlers p !! action with
                  | Some f =>
                      do message <- f args parameters info;
                      if negb (String.eqb message EmptyString)
                      then postCommandResponse p args message
                      else ret tt
                  | None => postCommandResponse p args ("Unknown action " +:+ action)
                  end
              end
        end
  end.

(** ** A sample plugin, on which the handlers can be run

    Its collaborators never fail; its helpers read a repository as
    [owner/repo] and a flag as [--name]; [range] visits a map in the order
    of [map_to_list] and [sort.Slice] is a merge sort. *)

Definition sample_parseOwnerAndRepo (full baseURL : string) : string * string :=
  match Split full "/"%char with
  | [owner] => (owner, EmptyString)
  | [owner; repo] => (owner, repo)
  | _ => (EmptyString, EmptyString)
  end.

Definition sample_isFlag (text : string) : bool := HasPrefix text "--".

Definition sample_parseFlag (flag : string) : string :=
  if HasPrefix flag "--" then String.substring 2 (String.length flag - 2) flag else flag.

Definition sample_fullNameFromOwnerAndRepo (owner repo : string) : string :=
  owner +:+ "/" +:+ repo.

Definition sample_sortSlice (less : Subscription -> Subscription -> bool)
    (l : list Subscription) : list Subscription :=
  @merge_sort _ (fun a b => less b a = false)
    (fun a b => decide (less b a = false)) l.

(** The lower-case table on the capital letters of Latin-1 ([U+00C0] to
    [U+00DE] without the multiplication sign); elsewhere the sample leaves
    a rune as it is. *)
Definition sample_LowerCase (r : rune) : rune :=
  if ((192 <=? r) && (r <=? 222) && negb (r =? 215))%Z then (r + 32)%Z else r.

Definition samplePlugin : Plugin :=
  {| configuration :=
       {| GitHubOrg := EmptyString; EnablePrivateRepo := false;
          ConnectToPrivateByDefault := false;
          getBaseURL := "https://github.com/";
          getOrganizations := []; IsValid := None |};
     BotUserID := "bot";
     store_Get_error := fun _ => None;
     store_Set_error := fun _ => None;
     store_SetAtomicWithRetries_error := fun _ => None;
     store_Delete_error := fun _ => None;
     client_User_Get :=
       fun id => Ok {| Username := id; Roles := "system_user"; Props_git_user := true |};
     client_User_Update_error := fun _ => None;
     client_Channel_GetDirect := fun userID botID => Ok ("dm_" +:+ userID);
     client_Post_CreatePost_error := fun _ => None;
     GetGitHubClient_error := None;
     Organizations_Get := fun _ => (true, None);
     Users_Get := fun _ => (true, None);
     Repositories_Get := fun _ _ => (Some {| GetPrivate := false |}, None);
     getSiteURL := Ok "https://mattermost.example.com";
     ListHooks := fun _ _ =>
       [([Some "https://mattermost.example.com/plugins/github/webhook"], None)];
     flowManager_Start := fun _ _ => None;
     BuildInfo := Ok "GitHub version";
     buildPluginURL := Ok "https://mattermost.example.com/plugins/github/oauth/connect";
     getGitHubUserInfo := fun id => inl {| UserID := id; GitHubUsername := "octocat" |};
     otherHandlers := ∅;
     parseOwnerAndRepo := sample_parseOwnerAndRepo;
     isFlag := sample_isFlag;
     parseFlag := sample_parseFlag;
     fullNameFromOwnerAndRepo := sample_fullNameFromOwnerAndRepo;
     unicode_LowerCase := sample_LowerCase;
     mapRange := map_to_list;
     sortSlice := sample_sortSlice |}.

(** The sample plugin with a store whose reads fail. *)
Definition brokenStorePlugin : Plugin :=
  {| configuration := configuration samplePlugin;
     BotUserID := BotUserID samplePlugin;
     store_Get_error := fun _ => Some "store error";
     store_Set_error := store_Set_error samplePlugin;
     store_SetAtomicWithRetries_error := store_SetAtomicWithRetries_error samplePlugin;
     store_Delete_error := store_Delete_error samplePlugin;
     client_User_Get := client_User_Get samplePlugin;
     client_User_Update_error := client_User_Update_error samplePlugin;
     client_Channel_GetDirect := client_Channel_GetDirect samplePlugin;
     client_Post_CreatePost_error := client_Post_CreatePost_error samplePlugin;
     GetGitHubClient_error := GetGitHubClient_error samplePlugin;
     Organizations_Get := Organizations_Get samplePlugin;
     Users_Get := Users_Get samplePlugin;
     Repositories_Get := Repositories_Get samplePlugin;
     getSiteURL := getSiteURL samplePlugin;
     ListHooks := ListHooks samplePlugin;
     flowManager_Start := flowManager_Start samplePlugin;
     BuildInfo := BuildInfo samplePlugin;
     buildPluginURL := buildPluginURL samplePlugin;
     getGitHubUserInfo := getGitHubUserInfo samplePlugin;
     otherHandlers := otherHandlers samplePlugin;
     parseOwnerAndRepo := parseOwnerAndRepo samplePlugin;
     isFlag := isFlag samplePlugin;
     parseFlag := parseFlag samplePlugin;
     fullNameFromOwnerAndRepo := fullNameFromOwnerAndRepo samplePlugin;
     unicode_LowerCase := unicode_LowerCase samplePlugin;
     mapRange := mapRange samplePlugin;
     sortSlice := sortSlice samplePlugin |}.

Definition emptyState : State :=
  {| st_subscriptions := None; st_bytes := ∅; st_effects := [] |}.

Definition sampleArgs : CommandArgs :=
  {| Command := "/github"; args_ChannelId := "channel3"; args_UserId := "user1";
     args_RootId := EmptyString |}.

Definition sampleUserInfo : GitHubUserInfo :=
  {| UserID := "user1"; GitHubUsername := "octocat" |}.

(** The stored subscriptions of the test [TestHandleSubscriptionsList]. *)
Definition testSubscription (channelID repository : string) : Subscription :=
  {| ChannelID := channelID; CreatorID := EmptyString; sub_Features := EmptyString;
     Flags := noFlags; Repository := repository |}.

Definition testSubscriptions : Subscriptions :=
  {| Repositories :=
       list_to_map
         [ ("repo1", [testSubscription "channel3" "repo1";
                      testSubscription "channel4" "repo1"]);
           ("repo2", [testSubscription "channel3" "repo2"]) ] |}.

Definition testState : State :=
  {| st_subscriptions := Some testSubscriptions; st_bytes := ∅; st_effects := [] |}.


(** The command supplies the exclude flag: one of its flag names, at an
    even position of [flagParams], parses to [exclude]. *)
Fixpoint suppliesExclude (p : Plugin) (flagParams : list string) : bool :=
  match flagParams with
  | flag :: value :: rest =>
      String.eqb (parseFlag p flag) flagExcludeRepository || suppliesExclude p rest
  | _ => false
  end.

(** A command on [acme/widgets] with an exclude list and a feature that
    does not exist. *)
Definition excludeWithBadFeature : list string :=
  ["acme/widgets"; "--exclude"; "acme/other"; "--features"; "bogus"].

(** A command on [acme/widgets] with an exclude list. *)
Definition excludeOnRepository : list string :=
  ["acme/widgets"; "--exclude"; "acme/other"].

(** Two states with the same store. *)
Definition sameStore (st st' : State) : Prop :=
  st_subscriptions st' = st_subscriptions st /\ st_bytes st' = st_bytes st.








(** ** What lower case is measured against *)





(** ** What the flag words of a subscribe command are measured against *)

(** The flag words read as pairs of a flag name and a value; [None] when a
    word is left over or a word in the place of a flag is none. *)
Fixpoint flagPairs (p : Plugin) (flagParams : list string)
  : option (list (string * string)) :=
  match flagParams with
  | [] => Some []
  | [_] => None
  | flag :: value :: rest =>
      if isFlag p flag
      then cons (parseFlag p flag, value) <$> flagPairs p rest
      else None
  end.

(** The feature list a command asks for: the value of its last
    [features] flag, and [pulls,issues,creates,deletes] without one. *)
Definition requestedFeatures (pairs : list (string * string)) : Features :=
  default "pulls,issues,creates,deletes"
    (last (snd <$> List.filter (fun pair => String.eqb pair.1 "features") pairs)).

(** Every boolean flag has a value that reads as a boolean. *)
Definition booleanValues (pairs : list (string * string)) : Prop :=
  forall name value : string,
    (name, value) ∈ pairs ->
    name = "exclude-org-member" \/ name = "include-only-org-members" ->
    is_Some (ParseBool value).

(** A feature list one can subscribe to: every feature is one of the
    sixteen categories or a label, a label comes with [pulls], [issues] or
    [issue_creations], and no conflicting pair is asked for. *)
Definition subscribable (fs : list string) : Prop :=
  (forall f : string, f ∈ fs -> f ∈ featureCategories \/ HasPrefix f "label" = true)
  /\ ((exists f : string, f ∈ fs /\ HasPrefix f "label" = true) ->
      "pulls" ∈ fs \/ "issues" ∈ fs \/ "issue_creations" ∈ fs)
  /\ ~ ("issues" ∈ fs /\ "issue_creations" ∈ fs)
  /\ ~ ("pulls" ∈ fs /\ "pulls_merged" ∈ fs)
  /\ ~ ("pulls" ∈ fs /\ "pulls_created" ∈ fs).

(** ** What a listing is measured against *)

(** The aggregate a state holds: empty while nothing is stored. *)
Definition storedSubscriptions (st : State) : Subscriptions :=
  default emptySubscriptions (st_subscriptions st).

(** A stored subscription as a listing shows it: one that was stored
    without a repository is shown with the key it is stored under. *)
Definition listedUnder (key : string) (s : Subscription) : Subscription :=
  if decide (Repository s = EmptyString)
  then {| ChannelID := ChannelID s; CreatorID := CreatorID s;
          sub_Features := sub_Features s; Flags := Flags s; Repository := key |}
  else s.

(** The subscriptions of a channel in an aggregate: under every key, the
    stored subscriptions whose channel it is.  The keys come in the order
    of [map_to_list]. *)
Definition channelSubscriptions (subs : Subscriptions) (channelID : string)
  : list Subscription :=
  map_to_list (Repositories subs) ≫=
    (fun entry : string * list Subscription =>
       listedUnder entry.1 <$> base.filter (fun s => ChannelID s = channelID) entry.2).

(** Ascending order of repository keys. *)
Definition repositoryLe (a b : string) : Prop := GoStrings.le a b = true.

(** The repository keys of the subscriptions of a channel, in ascending
    order: a function of the aggregate and the channel alone. *)
Definition sortedRepositories (subs : Subscriptions) (channelID : string) : list string :=
  @merge_sort _ repositoryLe (fun a b => decide (GoStrings.le a b = true))
    (Repository <$> channelSubscriptions subs channelID).

(** ** The rest of [subscriptions.go]: what a subscription answers *)

(** The feature tests of a subscription: each looks for the name of the
    feature anywhere in the feature string. *)
Definition Pulls (s : Subscription) : bool := Contains (sub_Features s) featurePulls.

Definition PullsCreated (s : Subscription) : bool :=
  Contains (sub_Features s) featurePullsCreated.

Definition PullsMerged (s : Subscription) : bool := Contains (sub_Features s) "pulls_merged".

Definition IssueCreations (s : Subscription) : bool :=
  Contains (sub_Features s) "issue_creations".

Definition Issues (s : Subscription) : bool := Contains (sub_Features s) featureIssues.

Definition Pushes (s : Subscription) : bool := Contains (sub_Features s) "pushes".

Definition Creates (s : Subscription) : bool := Contains (sub_Features s) "creates".

Definition Deletes (s : Subscription) : bool := Contains (sub_Features s) "deletes".

Definition IssueComments (s : Subscription) : bool :=
  Contains (sub_Features s) "issue_comments".

Definition PullReviews (s : Subscription) : bool := Contains (sub_Features s) "pull_reviews".

Definition Stars (s : Subscription) : bool := Contains (sub_Features s) featureStars.

Definition Workflows (s : Subscription) : bool :=
  Contains (sub_Features s) featureWorkflowFailure
  || Contains (sub_Features s) featureWorkflowSuccess.

Definition Release (s : Subscription) : bool := Contains (sub_Features s) featureReleases.

Definition Discussions (s : Subscription) : bool :=
  Contains (sub_Features s) featureDiscussions.

Definition DiscussionComments (s : Subscription) : bool :=
  Contains (sub_Features s) featureDiscussionComments.

(** [Label]: the text between the first two double quotes of a feature
    string that mentions [label:]. *)
Definition Label (s : Subscription) : string :=
  if negb (Contains (sub_Features s) "label:") then EmptyString
  else
    let labelSplit := Split (sub_Features s) dquote in
    if (length labelSplit <? 3)%nat then EmptyString
    else nth 1 labelSplit EmptyString.

(** [excludedRepoForSub], given [repo.GetFullName()]. *)
Definition excludedRepoForSub (s : Subscription) (repoFullName : string) : bool :=
  existsb (fun repository => String.eqb repository repoFullName)
    (ExcludeRepository (Flags s)).

(** A string without the byte [c]. *)
Definition byteFree (c : ascii) (s : string) : Prop := ContainsByte s c = false.

(** ** Repository names in requests ([api.go]) *)

(** [parseRepo]: the owner and the repository name of the [repo] query
    parameter. *)
Definition parseRepo (repoParam : string) : res (string * string) :=
  if String.eqb repoParam EmptyString then Err "repository cannot be blank"
  else
    match Split repoParam "/"%char with
    | [owner; repo] => Ok (owner, repo)
    | _ => Err "invalid repository"
    end.

(** [getRepoOwnerAndNameFromURL]: the last two pieces of the url; [None] is
    the run-time panic of the index [len(splitted)-2] when there is one
    piece only. *)
Definition getRepoOwnerAndNameFromURL (url : string) : option (string * string) :=
  let splitted := Split url "/"%char in
  if (length splitted <? 2)%nat then None
  else Some (nth (length splitted - 2) splitted EmptyString,
             nth (length splitted - 1) splitted EmptyString).

(** ** Words of a command *)

(** A byte that [parseCommand] copies as it is: an ASCII byte that is not
    white space. *)
Definition plainByte (c : ascii) : bool :=
  (nat_of_ascii c <? 128)%nat && negb (is_ascii_space c).

(** The shape of a word of a command line: plain bytes, blanks only between
    double quotes, and every quote closed at the end.  [inQuotes] tells
    whether a quote is open where the word starts. *)
Fixpoint wordShape (inQuotes : bool) (w : string) : bool :=
  match w with
  | EmptyString => negb inQuotes
  | String c rest =>
      if Ascii.eqb c dquote then wordShape (negb inQuotes) rest
      else if Ascii.eqb c " " then inQuotes && wordShape inQuotes rest
      else plainByte c && wordShape inQuotes rest
  end.

Definition isWord (w : string) : bool :=
  negb (String.eqb w EmptyString) && wordShape false w.

(** ** Which subscriptions an event reaches ([subscriptions.go]) *)

(** What [GetSubscribedChannelsForRepository] reads of a
    [github.Repository]. *)
Record GithubRepository := {
  GetFullName : string;
  repo_GetPrivate : bool
}.

(** [GetSubscribedChannelsForRepository]: the subscriptions to the
    repository, then those to its organization, without the ones whose
    creator may not read a private repository and the ones that exclude the
    repository.  [permissionToRepo] lives in [webhook.go] and is given by
    what it answers. *)
Definition GetSubscribedChannelsForRepository (p : Plugin)
    (permissionToRepo : string -> string -> bool) (repo : GithubRepository)
  : M (list Subscription) :=
  let name := ToLower (unicode_LowerCase p) (GetFullName repo) in
  let org := hd EmptyString (Split name "/"%char) in
  do r <- GetSubscriptions p;
  match r with
  | Err _ => ret []
  | Ok subs =>
      let subsForRepo :=
        default [] (Repositories subs !! name)
        ++ default [] (Repositories subs !! fullNameFromOwnerAndRepo p org EmptyString) in
      ret (List.filter
             (fun sub =>
                negb (repo_GetPrivate repo && negb (permissionToRepo (CreatorID sub) name))
                && negb (excludedRepoForSub sub (GetFullName repo)))
             subsForRepo)
  end.

(** ** What the stored lists are measured against *)



(** The list stored under a key; empty when the key is absent. *)
Definition storedUnder (st : State) (key : string) : list Subscription :=
  default [] (Repositories (storedSubscriptions st) !! key).


(** ** Records of a user in the store ([plugin.go]) *)

Definition dailySummary : string := "_dailySummary".

(** [storeGitHubToUserIDMapping]; the result is the error, if any. *)
Definition storeGitHubToUserIDMapping (p : Plugin) (githubUsername userID : string)
  : M (option string) :=
  do err <- store_Set_bytes p (githubUsername +:+ githubUsernameKey) userID;
  match err with
  | Some e => ret (Some (Wrap e "encountered error saving github username mapping"))
  | None => ret None
  end.

(** [getGitHubToUserIDMapping]. *)
Definition getGitHubToUserIDMapping (p : Plugin) (githubUsername : string) : M string :=
  do r <- store_Get_bytes p (githubUsername +:+ githubUsernameKey);
  match r with
  | Err _ =>
      run LogWarn "Error occurred while getting the user ID from KV store using the Github username";
      ret EmptyString
  | Ok data => ret data
  end.

(** [getGitHubToUsernameMapping]: the chat user name of a GitHub user, if
    any. *)
Definition getGitHubToUsernameMapping (p : Plugin) (githubUsername : string) : M string :=
  do userID <- getGitHubToUserIDMapping p githubUsername;
  match client_User_Get p userID with
  | Err _ => ret EmptyString
  | Ok user => ret (Username user)
  end.

(** [StoreDailySummaryText]; the result is the error, if any. *)
Definition StoreDailySummaryText (p : Plugin) (userID summaryText : string)
  : M (option string) :=
  store_Set_bytes p (userID +:+ dailySummary) summaryText.

(** [GetDailySummaryText]. *)
Definition GetDailySummaryText (p : Plugin) (userID : string) : M (res string) :=
  store_Get_bytes p (userID +:+ dailySummary).

(** [CheckIfDuplicateDailySummary]. *)
Definition CheckIfDuplicateDailySummary (p : Plugin) (userID text : string) : M (res bool) :=
  do r <- GetDailySummaryText p userID;
  match r with
  | Err e => ret (Err e)
  | Ok previousSummary => ret (Ok (String.eqb previousSummary text))
  end.

(** [type UserSettings struct]. *)
Record UserSettings := {
  SidebarButtons : string;
  DailyReminder : bool;
  DailyReminderOnChange : bool;
  Notifications : bool
}.

(** [PostToDo].  [settings] is [info.Settings].  The text comes from
    [GetToDo], which asks GitHub, and the message goes out through
    [CreateBotDMPost], which needs the direct channel of the user: both are
    given as the actions they are. *)
Definition PostToDo (p : Plugin) (GetToDo : M (res string))
    (CreateBotDMPost : string -> string -> string -> M unit)
    (info : GitHubUserInfo) (settings : UserSettings) (userID : string)
  : M (option string) :=
  do r <- GetToDo;
  match r with
  | Err e => ret (Some e)
  | Ok text =>
      do stop <-
        (if DailyReminderOnChange settings then
           do dup <- CheckIfDuplicateDailySummary p userID text;
           match dup with
           | Err e => ret (Some (Some e))
           | Ok true => ret (Some None)
           | Ok false =>
               do err <- StoreDailySummaryText p userID text;
               match err with
               | Some e => ret (Some (Some e))
               | None => ret None
               end
           end
         else ret None);
      match stop with
      | Some returned => ret returned
      | None =>
          run CreateBotDMPost (UserID info) text "custom_git_todo";
          ret None
      end
  end.

Definition settingNotifications : string := "notifications".
Definition settingReminders : string := "reminders".
Definition settingOn : string := "on".
Definition settingOff : string := "off".
Definition settingOnChange : string := "on-change".

(** The two [switch] statements of [handleSettings]: the settings as the
    command changes them, or the message of an early return. *)
Definition changedSettings (setting settingValue : string) (settings : UserSettings)
  : res UserSettings :=
  if String.eqb setting settingNotifications then
    if String.eqb settingValue settingOn then
      Ok {| SidebarButtons := SidebarButtons settings;
            DailyReminder := DailyReminder settings;
            DailyReminderOnChange := DailyReminderOnChange settings;
            Notifications := true |}
    else if String.eqb settingValue settingOff then
      Ok {| SidebarButtons := SidebarButtons settings;
            DailyReminder := DailyReminder settings;
            DailyReminderOnChange := DailyReminderOnChange settings;
            Notifications := false |}
    else Err ("Invalid value. Accepted values are: " +:+ quoted "on" +:+ " or "
              +:+ quoted "off" +:+ ".")
  else if String.eqb setting settingReminders then
    if String.eqb settingValue settingOn then
      Ok {| SidebarButtons := SidebarButtons settings;
            DailyReminder := true;
            DailyReminderOnChange := false;
            Notifications := Notifications settings |}
    else if String.eqb settingValue settingOff then
      Ok {| SidebarButtons := SidebarButtons settings;
            DailyReminder := false;
            DailyReminderOnChange := false;
            Notifications := Notifications settings |}
    else if String.eqb settingValue settingOnChange then
      Ok {| SidebarButtons := SidebarButtons settings;
            DailyReminder := true;
            DailyReminderOnChange := true;
            Notifications := Notifications settings |}
    else Err ("Invalid value. Accepted values are: " +:+ quoted "on" +:+ " or "
              +:+ quoted "off" +:+ " or " +:+ quoted "on-change" +:+ " .")
  else Err ("Unknown setting " +:+ setting).

(** [handleSettings]: the answer, and [userInfo.Settings] as the handler
    leaves it.  [storeGitHubUserInfo] encrypts the token and writes the
    record of the user; it is given as the action it is. *)
Definition handleSettings (p : Plugin)
    (storeGitHubUserInfo : GitHubUserInfo -> UserSettings -> M (option string))
    (parameters : list string) (userInfo : GitHubUserInfo) (settings : UserSettings)
  : M (string * UserSettings) :=
  match parameters with
  | setting :: settingValue :: _ =>
      match changedSettings setting settingValue settings with
      | Err message => ret (message, settings)
      | Ok settings' =>
          run (if String.eqb setting settingNotifications then
                 if Notifications settings' then
                   do err <- storeGitHubToUserIDMapping p (GitHubUsername userInfo)
                               (UserID userInfo);
                   match err with
                   | Some _ => LogWarn "Failed to store GitHub to userID mapping"
                   | None => ret tt
                   end
                 else
                   do err <- store_Delete p (GitHubUsername userInfo +:+ githubUsernameKey);
                   match err with
                   | Some _ => LogWarn "Failed to delete GitHub to userID mapping"
                   | None => ret tt
                   end
               else ret tt);
          do err <- storeGitHubUserInfo userInfo settings';
          match err with
          | Some _ =>
              run LogWarn "Failed to store github user info";
              ret ("Failed to store settings", settings')
          | None => ret ("Settings updated.", settings')
          end
      end
  | _ =>
      ret ("Please specify both a setting and value. Use `/github help` for more usage information.",
           settings)
  end.

(** ** Reactions ([createGithubEmojiMap], [plugin.go]) *)

(** The entries of the [baseGithubEmojiMap] literal, in source order. *)
Definition baseGithubEmojiMap : list (string * string) :=
  [ ("+1", "+1"); ("-1", "-1"); ("thumbsup", "+1"); ("thumbsdown", "-1");
    ("laughing", "laugh"); ("confused", "confused"); ("heart", "heart");
    ("tada", "hooray"); ("rocket", "rocket"); ("eyes", "eyes") ].

(** The body of the inner loop of [createGithubEmojiMap] for one entry of
    the base map. *)
Definition emojiStep (systemEmoji : string) (emojiMap : gmap string string)
    (entry : string * string) : gmap string string :=
  if HasPrefix systemEmoji entry.1 then <[systemEmoji := entry.2]> emojiMap else emojiMap.

(** [createGithubEmojiMap]: [p.emojiMap] as it is left.  [systemEmojis] are
    the keys of [model.SystemEmojis] in the order the outer [range] visits
    them, and [baseRange] gives, for each of them, the order in which the
    inner [range] visits the base map. *)
Definition createGithubEmojiMap (systemEmojis : list string)
    (baseRange : string -> list (string * string)) : gmap string string :=
  fold_left
    (fun emojiMap systemEmoji =>
       fold_left (emojiStep systemEmoji) (baseRange systemEmoji) emojiMap)
    systemEmojis ∅.

(** The hooks of a page that [checkIfConfiguredWebhookExists] looks for:
    those whose url contains the site URL. *)
Definition hookPointsAt (siteURL : string) (hook : option string) : bool :=
  match hook with
  | Some url => Contains url siteURL
  | None => false
  end.

(* ================================================================== *)
(** * Properties *)

Example validateFeatures_test_valid :
  validateFeatures ["creates"; "pushes"; "issue_comments"] = (true, []).
Proof. vm_compute. reflexivity. Qed.

Example validateFeatures_test_label_missing :
  validateFeatures ["pushes"; labelFeature "ruby"] = (false, []).
Proof. vm_compute. reflexivity. Qed.

Example parseCommand_test_simple :
  parseCommand ("/github subscribe DHaussermann/hello-world issues,"
                +:+ labelFeature "Help   Wanted" +:+ " ")
  = Some ("/github", "subscribe",
          ["DHaussermann/hello-world"; "issues," +:+ labelFeature "Help   Wanted"]).
Proof. vm_compute. reflexivity. Qed.

Example parseCommand_test_no_action :
  parseCommand "/github" = Some ("/github", EmptyString, []).
Proof. vm_compute. reflexivity. Qed.

Example parseCommand_test_blank : parseCommand "   " = None.
Proof. vm_compute. reflexivity. Qed.

Example parseCommand_test_non_ascii :
  parseCommand ("/github subscribe طماطم issues," +:+ labelFeature "日本語")
  = Some ("/github", "subscribe", ["طماطم"; "issues," +:+ labelFeature "日本語"]).
Proof. vm_compute. reflexivity. Qed.

Example runes_test : runes "日本語" = [26085%Z; 26412%Z; 35486%Z].
Proof. vm_compute. reflexivity. Qed.

(** A no-break space (U+00A0, the bytes C2 A0) is white space too. *)
Example parseCommand_test_nbsp :
  parseCommand (String (asciiZ 194) (String (asciiZ 160) EmptyString)) = None.
Proof. vm_compute. reflexivity. Qed.

Example ExecuteCommand_test_about :
  (ExecuteCommand samplePlugin
     {| Command := "/github about"; args_ChannelId := "c"; args_UserId := "u";
        args_RootId := "r" |} emptyState)
  = (Returned tt,
     {| st_subscriptions := None; st_bytes := ∅;
        st_effects :=
          [EffEphemeralPost "u"
             {| post_UserId := "bot"; post_ChannelId := "c"; post_RootId := "r";
                post_Message := "GitHub version"; post_Type := EmptyString |}] |}).
Proof. vm_compute. reflexivity. Qed.

Example handleSubscriptionsList_test :
  (handleSubscriptionsList samplePlugin sampleArgs testState).1
  = Returned ("### Subscriptions in this channel" +:+ nl
              +:+ "* `repo1` - " +:+ nl +:+ "* `repo2` - " +:+ nl).
Proof. vm_compute. reflexivity. Qed.

Example handleMuteAdd_test :
  (handleMuteAdd samplePlugin "newUser" sampleUserInfo
     {| st_subscriptions := None;
        st_bytes := {[ "user1-muted-users" := "existingUser" ]};
        st_effects := [] |}).2
  = {| st_subscriptions := None;
       st_bytes := {[ "user1-muted-users" := "existingUser,newUser" ]};
       st_effects := [] |}.
Proof. vm_compute. reflexivity. Qed.

(** ** Feature validation *)

Section ValidateFeatures.

Implicit Types (f : string) (features : list string).

(** The keys of [validFeatures] are the sixteen categories. *)
Lemma isValidFeature_spec f : isValidFeature f = true <-> f ∈ featureCategories.
Proof.
  unfold isValidFeature, validFeatures.
  destruct (list_to_map validFeatures_entries !! f) as [b|] eqn:E.
  - split; [intros _|reflexivity].
    apply elem_of_list_to_map_2 in E.
    apply (list_elem_of_fmap_2 fst) in E. exact E.
  - split; [discriminate|intros Hin].
    apply not_elem_of_list_to_map_2 in E. contradiction.
Qed.

Lemma validFeatures_lookup f : is_Some (validFeatures !! f) <-> f ∈ featureCategories.
Proof.
  rewrite <- isValidFeature_spec. unfold isValidFeature.
  destruct (validFeatures !! f); split; intros H; eauto; try discriminate.
  destruct H as [? ?]; discriminate.
Qed.

(** No category starts with [label]. *)
Lemma category_not_label f : f ∈ featureCategories -> HasPrefix f "label" = false.
Proof.
  revert f. apply Forall_forall.
  apply (bool_decide_unpack _). vm_compute. reflexivity.
Qed.

(** The first loop of [validateFeatures], in closed form. *)
Lemma validateStep_fold features (st0 : validateState) :
  vs_valid (fold_left validateStep features st0)
  = vs_valid st0 && forallb (fun f => isValidFeature f || HasPrefix f "label") features
  /\ vs_hasLabel (fold_left validateStep features st0)
     = vs_hasLabel st0
       || existsb (fun f => negb (isValidFeature f) && HasPrefix f "label") features
  /\ vs_invalidFeatures (fold_left validateStep features st0)
     = vs_invalidFeatures st0
       ++ List.filter (fun f => negb (isValidFeature f) && negb (HasPrefix f "label")) features.
Proof.
  revert st0.
  induction features as [|f fs IH]; intros st0;
    cbn [fold_left forallb existsb List.filter].
  - rewrite andb_true_r, orb_false_r, app_nil_r. auto.
  - destruct (IH (validateStep st0 f)) as (Hv & Hl & Hi).
    rewrite Hv, Hl, Hi. unfold validateStep.
    destruct (isValidFeature f), (HasPrefix f "label");
      cbn [vs_valid vs_hasLabel vs_invalidFeatures negb andb orb];
      rewrite ?andb_false_r, ?orb_true_r, ?andb_true_r, ?orb_false_r, <- ?app_assoc;
      auto.
Qed.

Lemma isLabelCarrier_spec f :
  isLabelCarrier f = true <-> f = "pulls" \/ f = "issues" \/ f = "issue_creations".
Proof.
  unfold isLabelCarrier. rewrite !orb_true_iff, !String.eqb_eq. tauto.
Qed.

Lemma existsb_isLabelCarrier features :
  existsb isLabelCarrier features = true
  <-> "issues" ∈ features \/ "pulls" ∈ features \/ "issue_creations" ∈ features.
Proof.
  rewrite existsb_exists. setoid_rewrite isLabelCarrier_spec.
  setoid_rewrite <- list_elem_of_In. split.
  - intros (f & Hin & [->| [->| ->]]); auto.
  - intros [H| [H| H]]; eauto 6.
Qed.

(** The validity flag of [validateFeatures], in closed form. *)
Lemma validateFeatures_valid features :
  (validateFeatures features).1
  = forallb (fun f => isValidFeature f || HasPrefix f "label") features
    && (negb (existsb (fun f => negb (isValidFeature f) && HasPrefix f "label") features)
        || existsb isLabelCarrier features).
Proof.
  unfold validateFeatures.
  destruct (validateStep_fold features
              {| vs_valid := true; vs_invalidFeatures := []; vs_hasLabel := false |})
    as (Hv & Hl & _).
  rewrite Hv, Hl. cbn [vs_valid vs_hasLabel andb orb].
  destruct (forallb _ features), (existsb (fun f => negb _ && _) features),
    (existsb isLabelCarrier features); reflexivity.
Qed.

(** The list of invalid features of [validateFeatures], in closed form. *)
Lemma validateFeatures_invalid features :
  (validateFeatures features).2
  = List.filter (fun f => negb (isValidFeature f) && negb (HasPrefix f "label")) features.
Proof.
  unfold validateFeatures.
  destruct (validateStep_fold features
              {| vs_valid := true; vs_invalidFeatures := []; vs_hasLabel := false |})
    as (_ & _ & Hi).
  cbn [vs_invalidFeatures app] in Hi.
  destruct (_ && _); [destruct (existsb _ _)|]; cbn [snd]; exact Hi.
Qed.

Lemma SliceContainsString_spec (a : list string) (x : string) :
  SliceContainsString a x = true <-> x ∈ a.
Proof.
  unfold SliceContainsString. rewrite existsb_exists, list_elem_of_In. split.
  - intros (y & Hin & ->%String.eqb_eq). exact Hin.
  - intros Hin. exists x. split; [exact Hin|apply String.eqb_refl].
Qed.

(** A feature list one can subscribe to passes both checks. *)
Lemma subscribable_checks (fs : list string) :
  subscribable fs ->
  (checkFeatureConflict fs).1 = true /\ (validateFeatures fs).1 = true.
Proof.
  intros (Hknown & Hcarrier & Hic & Hpm & Hpc). split.
  - unfold checkFeatureConflict, featureIssues, featureIssueCreation, featurePulls,
      featurePullsMerged, featurePullsCreated.
    destruct (SliceContainsString fs "issues" && SliceContainsString fs "issue_creations")
      eqn:E1.
    { apply andb_true_iff in E1 as [H1 H2]. exfalso. apply Hic.
      split; apply SliceContainsString_spec; assumption. }
    destruct (SliceContainsString fs "pulls" && SliceContainsString fs "pulls_merged")
      eqn:E2.
    { apply andb_true_iff in E2 as [H1 H2]. exfalso. apply Hpm.
      split; apply SliceContainsString_spec; assumption. }
    destruct (SliceContainsString fs "pulls" && SliceContainsString fs "pulls_created")
      eqn:E3; [|reflexivity].
    apply andb_true_iff in E3 as [H1 H2]. exfalso. apply Hpc.
    split; apply SliceContainsString_spec; assumption.
  - rewrite validateFeatures_valid. apply andb_true_iff. split.
    + apply forallb_forall. intros f Hf%list_elem_of_In.
      destruct (Hknown f Hf) as [Hcat| ->]; [|apply orb_true_r].
      apply isValidFeature_spec in Hcat. rewrite Hcat. reflexivity.
    + destruct (existsb (fun f => negb (isValidFeature f) && HasPrefix f "label") fs)
        eqn:Hlabel; [|reflexivity].
      cbn [negb orb]. apply existsb_isLabelCarrier.
      apply existsb_exists in Hlabel as (f & Hf%list_elem_of_In & Hlab).
      apply andb_true_iff in Hlab as [_ Hlab].
      destruct (Hcarrier (ex_intro _ f (conj Hf Hlab))) as [H|[H|H]]; auto.
Qed.

End ValidateFeatures.

(** C2. When some element of the feature list starts with [label]:
    [validateFeatures] answers [valid = false] if the list has none of
    [issues], [pulls], [issue_creations]; and [valid = true] if every
    element that does not start with [label] is a key of [validFeatures]
    and one of the three is in the list. *)
Theorem validateFeatures_label_rule (features : list string) :
  (exists f, f ∈ features /\ HasPrefix f "label" = true) ->
  ((("issues" ∉ features) /\ ("pulls" ∉ features) /\ ("issue_creations" ∉ features)) ->
   (validateFeatures features).1 = false)
  /\ (((forall f, f ∈ features -> HasPrefix f "label" = false ->
        is_Some (validFeatures !! f))
       /\ ("issues" ∈ features \/ "pulls" ∈ features \/ "issue_creations" ∈ features)) ->
      (validateFeatures features).1 = true).
Proof.
  intros (l & Hl & Hpre). rewrite validateFeatures_valid. split.
  - intros (Hi & Hp & Hc).
    assert (Hno : existsb isLabelCarrier features = false).
    { apply not_true_is_false. rewrite existsb_isLabelCarrier. tauto. }
    assert (Hlab : existsb (fun f => negb (isValidFeature f) && HasPrefix f "label")
                     features = true).
    { apply existsb_exists. exists l. split; [by apply list_elem_of_In|].
      rewrite Hpre, andb_true_r. apply negb_true_iff, not_true_is_false.
      intros Hv%isValidFeature_spec%category_not_label. congruence. }
    rewrite Hno, Hlab. cbn [negb orb]. apply andb_false_r.
  - intros (Hall & Hcar).
    apply existsb_isLabelCarrier in Hcar. rewrite Hcar, orb_true_r, andb_true_r.
    apply forallb_forall. intros f Hf%list_elem_of_In.
    destruct (HasPrefix f "label") eqn:E; [apply orb_true_r|].
    rewrite orb_false_r. apply isValidFeature_spec, validFeatures_lookup. auto.
Qed.

(** The rule of C2 on two lists of the test suite. *)
Lemma validateFeatures_label_rule_witness :
  (validateFeatures ["pushes"; labelFeature "ruby"]).1 = false
  /\ (validateFeatures ["issues"; labelFeature "ruby"]).1 = true.
Proof.
  split.
  - apply (validateFeatures_label_rule ["pushes"; labelFeature "ruby"]).
    + exists (labelFeature "ruby"). split; [|reflexivity].
      apply (bool_decide_unpack _). vm_compute. reflexivity.
    + repeat split; apply (bool_decide_unpack _); vm_compute; reflexivity.
  - apply (validateFeatures_label_rule ["issues"; labelFeature "ruby"]).
    + exists (labelFeature "ruby"). split; [|reflexivity].
      apply (bool_decide_unpack _). vm_compute. reflexivity.
    + split.
      * intros f Hf Hlab. apply validFeatures_lookup.
        apply list_elem_of_In in Hf. simpl in Hf.
        destruct Hf as [<-|[<-|[]]]; [|discriminate].
        apply (bool_decide_unpack _). vm_compute. reflexivity.
      * left. apply (bool_decide_unpack _). vm_compute. reflexivity.
Defined.

(** C6. The valid feature categories are exactly sixteen names, the keys
    of [validFeatures]; [validateFeatures] lists a feature that does not
    start with [label] as invalid if and only if it is none of them, and
    its flag is false as soon as one such feature is in the list; on a list
    without labels the flag is true exactly when every feature is one of
    the sixteen. *)
Theorem validFeatures_closed_set :
  length featureCategories = 16%nat
  /\ NoDup featureCategories
  /\ (forall f : string, is_Some (validFeatures !! f) <-> f ∈ featureCategories)
  /\ (forall (features : list string) (f : string),
        f ∈ features -> HasPrefix f "label" = false ->
        (f ∈ (validateFeatures features).2 <-> f ∉ featureCategories))
  /\ (forall (features : list string) (f : string),
        f ∈ features -> HasPrefix f "label" = false -> f ∉ featureCategories ->
        (validateFeatures features).1 = false)
  /\ (forall features : list string,
        (forall f : string, f ∈ features -> HasPrefix f "label" = false) ->
        ((validateFeatures features).1 = true
         <-> forall f : string, f ∈ features -> f ∈ featureCategories)).
Proof.
  split; [reflexivity|]. split.
  { apply (bool_decide_unpack _). vm_compute. reflexivity. }
  split; [apply validFeatures_lookup|]. split; [|split].
  - intros features f Hin Hlab.
    rewrite validateFeatures_invalid, list_elem_of_In, filter_In, <- list_elem_of_In.
    rewrite Hlab, andb_true_r, negb_true_iff, <- isValidFeature_spec.
    destruct (isValidFeature f); split; try tauto; try congruence.
    intros [_ ?]; discriminate.
  - intros features f Hin Hlab Hnone. rewrite validateFeatures_valid.
    apply andb_false_iff. left. apply not_true_iff_false. intros Hall.
    rewrite forallb_forall in Hall. apply list_elem_of_In in Hin.
    specialize (Hall f Hin). rewrite Hlab, orb_false_r in Hall.
    apply Hnone, isValidFeature_spec, Hall.
  - intros features Hplain. rewrite validateFeatures_valid.
    assert (existsb (fun f => negb (isValidFeature f) && HasPrefix f "label") features
            = false) as ->.
    { apply not_true_iff_false. intros (f & Hf%list_elem_of_In & Hlab)%existsb_exists.
      rewrite (Hplain f Hf), andb_false_r in Hlab. discriminate. }
    cbn [negb orb]. rewrite andb_true_r, forallb_forall. split.
    + intros Hall f Hf. apply isValidFeature_spec.
      pose proof (Hall f (proj1 (list_elem_of_In _ _) Hf)) as Hone.
      rewrite (Hplain f Hf), orb_false_r in Hone. exact Hone.
    + intros Hall f Hf%list_elem_of_In. rewrite (Hplain f Hf), orb_false_r.
      apply isValidFeature_spec, Hall, Hf.
Qed.

(** ** Command parsing *)

Section ParseCommand.

Implicit Types (st : parseState) (r : rune) (rs : list rune).

Lemma length_zero_empty (s : string) : (String.length s =? 0)%nat = true <-> s = EmptyString.
Proof. destruct s; cbn; split; intros H; try reflexivity; discriminate. Qed.

Lemma append_nonempty_r (s t : string) : t <> EmptyString -> s +:+ t <> EmptyString.
Proof. destruct s; cbn; [auto|discriminate]. Qed.

Lemma append_nonempty_l (s t : string) : s <> EmptyString -> s +:+ t <> EmptyString.
Proof. destruct s; cbn; [congruence|discriminate]. Qed.

Lemma encodeRune_nonempty r : encodeRune r <> EmptyString.
Proof.
  unfold encodeRune.
  repeat match goal with |- context [if ?b then _ else _] => destruct b end;
    discriminate.
Qed.

(** White space outside quotes, before any token, changes nothing. *)
Lemma parseStep_space_idle st r :
  nothingParsed st -> IsSpace r = true -> parseStep st r = st.
Proof.
  intros (Hs & Hc & Hq) Hsp. unfold parseStep. rewrite Hsp, Hq, Hc. reflexivity.
Qed.

Lemma parse_blank rs st :
  nothingParsed st -> Forall (fun r => IsSpace r = true) rs ->
  fold_left parseStep rs st = st.
Proof.
  intros Hst Hall. induction Hall as [|r rs Hr _ IH]; cbn [fold_left]; [reflexivity|].
  rewrite parseStep_space_idle; auto.
Qed.

(** Once something is collected, something stays collected. *)
Lemma parseStep_keeps st r : somethingParsed st -> somethingParsed (parseStep st r).
Proof.
  intros Hst. unfold parseStep, somethingParsed.
  destruct (IsSpace r); [destruct (ps_inQuotes st) eqn:Hq|]; cbn [ps_split ps_current].
  - destruct Hst as [H|H]; [left; exact H|right; apply append_nonempty_l, H].
  - destruct (String.length (ps_current st) =? 0)%nat eqn:Hlen; cbn [andb negb].
    + exact Hst.
    + left. intros Heq. apply app_eq_nil in Heq as [_ Heq]. discriminate.
  - destruct Hst as [H|H]; [left; exact H|right; apply append_nonempty_l, H].
Qed.

(** A rune that is not white space starts or extends a token. *)
Lemma parseStep_nonspace st r : IsSpace r = false -> somethingParsed (parseStep st r).
Proof.
  intros Hsp. unfold parseStep, somethingParsed. rewrite Hsp. cbn [ps_split ps_current].
  right. apply append_nonempty_r, encodeRune_nonempty.
Qed.

Lemma parse_keeps rs st : somethingParsed st -> somethingParsed (fold_left parseStep rs st).
Proof.
  revert st. induction rs as [|r rs IH]; intros st Hst; cbn [fold_left]; [exact Hst|].
  apply IH, parseStep_keeps, Hst.
Qed.

Lemma parse_nonblank rs st :
  Exists (fun r => IsSpace r = false) rs -> somethingParsed (fold_left parseStep rs st).
Proof.
  intros Hex. revert st.
  induction Hex as [r rs Hr|r rs _ IH]; intros st; cbn [fold_left].
  - apply parse_keeps, parseStep_nonspace, Hr.
  - apply IH.
Qed.

Lemma parseTokens_blank (input : string) :
  Forall (fun r => IsSpace r = true) (runes input) -> parseTokens input = [].
Proof.
  intros Hall. unfold parseTokens.
  rewrite parse_blank; [reflexivity| |exact Hall]. repeat split.
Qed.

Lemma parseTokens_nonblank (input : string) :
  Exists (fun r => IsSpace r = false) (runes input) -> parseTokens input <> [].
Proof.
  intros Hex. unfold parseTokens.
  pose proof (parse_nonblank _ parseInit Hex) as Hsome.
  destruct (0 <? String.length _)%nat eqn:Hlen.
  - intros Heq. apply app_eq_nil in Heq as [_ Heq]. discriminate.
  - destruct Hsome as [H|H]; [exact H|].
    exfalso. apply H, length_zero_empty.
    apply Nat.ltb_ge in Hlen. apply Nat.eqb_eq. lia.
Qed.

(** [split[0]] panics exactly when no token was collected. *)
Lemma parseCommand_None (input : string) :
  parseCommand input = None <-> parseTokens input = [].
Proof.
  unfold parseCommand. destruct (parseTokens input); split; congruence.
Qed.

End ParseCommand.

(** C8. [parseCommand] is not total.  On the empty string, and on every
    input whose runes are all white space, the token list is empty and
    [split[0]] is out of bounds ([None]); on every input with a rune that
    is not white space the token list is not empty and the access is in
    bounds; these are the only two cases.  [ExecuteCommand] hands the raw
    command to [parseCommand] and panics with it. *)
Theorem parseCommand_not_total :
  (parseTokens EmptyString = [] /\ parseCommand EmptyString = None)
  /\ (forall input : string,
        Forall (fun r => IsSpace r = true) (runes input) ->
        parseTokens input = [] /\ parseCommand input = None)
  /\ (forall input : string,
        Exists (fun r => IsSpace r = false) (runes input) ->
        parseTokens input <> []
        /\ exists command action parameters,
             parseCommand input = Some (command, action, parameters))
  /\ (forall input : string,
        parseCommand input = None <-> Forall (fun r => IsSpace r = true) (runes input))
  /\ (forall (p : Plugin) (args : CommandArgs) (st : State),
        Forall (fun r => IsSpace r = true) (runes (Command args)) ->
        exists reason, ExecuteCommand p args st = (Panicked reason, st)).
Proof.
  assert (Hblank : forall input : string,
             Forall (fun r => IsSpace r = true) (runes input) ->
             parseTokens input = [] /\ parseCommand input = None).
  { intros input Hall. pose proof (parseTokens_blank input Hall) as Htok.
    split; [exact Htok|]. apply parseCommand_None, Htok. }
  assert (Hnonblank : forall input : string,
             Exists (fun r => IsSpace r = false) (runes input) ->
             parseTokens input <> []
             /\ exists command action parameters,
                  parseCommand input = Some (command, action, parameters)).
  { intros input Hex. pose proof (parseTokens_nonblank input Hex) as Htok.
    split; [exact Htok|]. unfold parseCommand.
    destruct (parseTokens input) as [|command rest]; [congruence|]. eauto. }
  split; [apply Hblank; constructor|].
  split; [exact Hblank|]. split; [exact Hnonblank|]. split.
  - intros input. split.
    + intros Hnone.
      destruct (decide (Forall (fun r => IsSpace r = true) (runes input))) as [H|H];
        [exact H|].
      apply not_Forall_Exists in H; [|intros r; apply _].
      assert (Hex : Exists (fun r => IsSpace r = false) (runes input)).
      { eapply Exists_impl; [exact H|]. intros r Hr. cbn in Hr.
        destruct (IsSpace r); congruence. }
      destruct (Hnonblank input Hex) as (_ & c & a & ps & Hsome). congruence.
    + intros Hall. apply Hblank, Hall.
  - intros p args st Hall. unfold ExecuteCommand.
    destruct (Hblank _ Hall) as [_ ->]. eexists. reflexivity.
Qed.

(** ** The order of strings *)

Lemma le_refl (s : string) : repositoryLe s s.
Proof.
  unfold repositoryLe, GoStrings.le, String.leb.
  pose proof (String.compare_antisym s s) as H.
  destruct (String.compare s s); cbn in H; try reflexivity; discriminate.
Qed.

Lemma le_trans (s t u : string) : repositoryLe s t -> repositoryLe t u -> repositoryLe s u.
Proof.
  unfold repositoryLe, GoStrings.le, String.leb.
  revert t u. induction s as [|a s IH]; intros [|b t] [|c u];
    cbn [String.compare]; try congruence.
  unfold Ascii.compare.
  destruct (N.compare_spec (N_of_ascii a) (N_of_ascii b)) as [Hab|Hab|Hab],
           (N.compare_spec (N_of_ascii b) (N_of_ascii c)) as [Hbc|Hbc|Hbc],
           (N.compare_spec (N_of_ascii a) (N_of_ascii c)) as [Hac|Hac|Hac];
    try congruence; try lia.
  apply IH.
Qed.

Lemma le_antisym (s t : string) : repositoryLe s t -> repositoryLe t s -> s = t.
Proof. apply String.leb_antisym. Qed.

Lemma le_total (s t : string) : repositoryLe s t \/ repositoryLe t s.
Proof. apply String.leb_total. Qed.

(** [!(t < s)] is [s <= t]. *)
Lemma not_lt_le (s t : string) : GoStrings.lt t s = false <-> repositoryLe s t.
Proof.
  unfold repositoryLe, GoStrings.lt, GoStrings.le, String.ltb, String.leb.
  rewrite (String.compare_antisym s t).
  destruct (String.compare t s); cbn; split; congruence.
Qed.

#[local] Instance repositoryLe_trans : Transitive repositoryLe.
Proof. intros s t u. apply le_trans. Qed.

#[local] Instance repositoryLe_antisym : AntiSymm (=) repositoryLe.
Proof. intros s t. apply le_antisym. Qed.

#[local] Instance repositoryLe_total : Total repositoryLe.
Proof. intros s t. apply le_total. Qed.

(** What [sort.Slice] is asked to establish, on subscriptions. *)
Lemma notLess_trans : Transitive (fun a b => lessByRepository b a = false).
Proof.
  intros a b c. unfold lessByRepository. rewrite !not_lt_le. apply le_trans.
Qed.

Lemma notLess_total : Total (fun a b => lessByRepository b a = false).
Proof.
  intros a b. unfold lessByRepository. rewrite !not_lt_le. apply le_total.
Qed.

Lemma sortedRepositories_sorted subs channelID :
  StronglySorted repositoryLe (sortedRepositories subs channelID).
Proof. apply StronglySorted_merge_sort; apply _. Qed.

Lemma sortedRepositories_perm subs channelID :
  sortedRepositories subs channelID ≡ₚ Repository <$> channelSubscriptions subs channelID.
Proof. apply merge_sort_Permutation. Qed.

(** The sample plugin keeps the promises of the Go run time. *)
Lemma samplePlugin_runtime : GoRuntime samplePlugin.
Proof.
  split.
  - intros m. reflexivity.
  - intros less l. apply merge_sort_Permutation.
  - intros less l Htrans Htotal. apply StronglySorted_merge_sort; assumption.
Qed.

(** ** Listing the subscriptions of a channel *)

Section Listing.

Lemma append_assoc (s t u : string) : (s +:+ t) +:+ u = s +:+ t +:+ u.
Proof.
  induction s as [|a s IH]; [reflexivity|].
  change (String a ((s +:+ t) +:+ u) = String a (s +:+ t +:+ u)). f_equal. exact IH.
Qed.

Lemma append_empty_r (s : string) : s +:+ EmptyString = s.
Proof.
  induction s as [|a s IH]; [reflexivity|].
  change (String a (s +:+ EmptyString) = String a s). f_equal. exact IH.
Qed.

(** The loop of [handleSubscriptionsList] appends one line per subscription. *)
Lemma listing_fold (subs : list Subscription) (txt : string) :
  fold_left (fun txt sub => txt +:+ subscriptionLine sub) subs txt
  = txt +:+ foldr (fun sub rest => subscriptionLine sub +:+ rest) EmptyString subs.
Proof.
  revert txt. induction subs as [|sub subs IH]; intros txt; cbn [fold_left foldr].
  - symmetry. apply append_empty_r.
  - rewrite IH. apply append_assoc.
Qed.

Lemma StronglySorted_weaken {A} (R R' : relation A) (l : list A) :
  (forall a b, R a b -> R' a b) -> StronglySorted R l -> StronglySorted R' l.
Proof.
  intros Himp. induction 1 as [|a l _ IH Hall]; constructor; [exact IH|].
  eapply Forall_impl; [exact Hall|]. intros b. apply Himp.
Qed.

Lemma GetSubscriptions_ok (p : Plugin) (st : State) :
  store_Get_error p SubscriptionsKey = None ->
  GetSubscriptions p st = (Returned (Ok (storedSubscriptions st)), st).
Proof.
  intros Hget. unfold GetSubscriptions, storedSubscriptions. rewrite Hget.
  destruct (st_subscriptions st); reflexivity.
Qed.

Lemma GetSubscriptionsByChannel_ok (p : Plugin) (channelID : string) (st : State) :
  store_Get_error p SubscriptionsKey = None ->
  GetSubscriptionsByChannel p channelID st
  = (Returned (Ok (sortSlice p lessByRepository
                     (flat_map (channelSubsOfEntry channelID)
                        (mapRange p (Repositories (storedSubscriptions st)))))), st).
Proof.
  intros Hget. unfold GetSubscriptionsByChannel, bind.
  rewrite (GetSubscriptions_ok p st Hget). reflexivity.
Qed.

Lemma flat_map_bind {A B} (f : A -> list B) (l : list A) : flat_map f l = l ≫= f.
Proof. induction l as [|a l IH]; [reflexivity|]. cbn. rewrite IH. reflexivity. Qed.

(** The two nested loops collect, for one key, the stored subscriptions of
    the channel as a listing shows them. *)
Lemma channelSubsOfEntry_listed (channelID : string) (entry : string * list Subscription) :
  channelSubsOfEntry channelID entry
  = listedUnder entry.1 <$> base.filter (fun s => ChannelID s = channelID) entry.2.
Proof.
  unfold channelSubsOfEntry. destruct entry as [key stored]. cbn [fst snd].
  induction stored as [|s stored IH]; [reflexivity|].
  cbn [flat_map]. rewrite IH, filter_cons.
  destruct (String.eqb_spec (ChannelID s) channelID) as [Hch|Hch];
    destruct (decide (ChannelID s = channelID)) as [Hd|Hd]; try contradiction;
    [|reflexivity].
  cbn [fmap list_fmap app]. f_equal. unfold listedUnder.
  destruct (String.length (Repository s) =? 0)%nat eqn:Hlen;
    destruct (decide (Repository s = EmptyString)) as [He|He]; try reflexivity.
  - apply length_zero_empty in Hlen. contradiction.
  - rewrite He in Hlen. discriminate Hlen.
Qed.

Lemma channelSubscriptions_loops (subs : Subscriptions) (channelID : string) :
  flat_map (channelSubsOfEntry channelID) (map_to_list (Repositories subs))
  = channelSubscriptions subs channelID.
Proof.
  unfold channelSubscriptions. rewrite flat_map_bind.
  induction (map_to_list (Repositories subs)) as [|entry l IH]; [reflexivity|].
  cbn. rewrite IH, channelSubsOfEntry_listed. reflexivity.
Qed.

(** Who is among the subscriptions of a channel. *)
Lemma channelSubscriptions_spec (subs : Subscriptions) (channelID : string)
    (s : Subscription) :
  s ∈ channelSubscriptions subs channelID
  <-> exists (key : string) (stored : list Subscription) (s0 : Subscription),
        Repositories subs !! key = Some stored
        /\ s0 ∈ stored /\ ChannelID s0 = channelID /\ s = listedUnder key s0.
Proof.
  unfold channelSubscriptions. rewrite list_elem_of_bind. split.
  - intros ([key stored] & Hin & Hentry). cbn [fst snd] in Hin.
    apply list_elem_of_fmap in Hin as (s0 & -> & Hs0).
    apply list_elem_of_filter in Hs0 as [Hch Hs0].
    apply elem_of_map_to_list in Hentry. exists key, stored, s0. auto.
  - intros (key & stored & s0 & Hentry & Hs0 & Hch & ->).
    exists (key, stored). split; [|apply elem_of_map_to_list, Hentry].
    cbn [fst snd]. apply list_elem_of_fmap. exists s0. split; [reflexivity|].
    apply list_elem_of_filter. auto.
Qed.

(** One line of the listing, spelled out. *)
Lemma subscriptionLine_text (sub : Subscription) (rest : string) :
  subscriptionLine sub +:+ rest
  = "* `" +:+ TrimByte (Repository sub) "/" +:+ "` - " +:+ sub_Features sub
    +:+ (if decide (SubscriptionFlags_String (Flags sub) = EmptyString)
         then EmptyString
         else " " +:+ SubscriptionFlags_String (Flags sub))
    +:+ nl +:+ rest.
Proof.
  unfold subscriptionLine. cbv zeta.
  destruct (String.eqb_spec (SubscriptionFlags_String (Flags sub)) EmptyString) as [He|He];
    destruct (decide (SubscriptionFlags_String (Flags sub) = EmptyString)) as [Hd|Hd];
    try contradiction; cbn [negb]; rewrite !append_assoc; reflexivity.
Qed.

Lemma listing_text (subs : list Subscription) :
  foldr (fun sub rest => subscriptionLine sub +:+ rest) EmptyString subs
  = foldr (fun sub rest =>
             "* `" +:+ TrimByte (Repository sub) "/" +:+ "` - " +:+ sub_Features sub
             +:+ (if decide (SubscriptionFlags_String (Flags sub) = EmptyString)
                  then EmptyString
                  else " " +:+ SubscriptionFlags_String (Flags sub))
             +:+ nl +:+ rest)
      EmptyString subs.
Proof.
  induction subs as [|sub subs IH]; [reflexivity|].
  cbn [foldr]. rewrite IH. apply subscriptionLine_text.
Qed.

(** What [GetSubscriptionsByChannel] returns, whatever the run time chose:
    the subscriptions of the channel, ascending by repository key. *)
Lemma channel_subscriptions_sorted (p : Plugin) (channelID : string) (st : State) :
  GoRuntime p ->
  let subs := sortSlice p lessByRepository
                (flat_map (channelSubsOfEntry channelID)
                   (mapRange p (Repositories (storedSubscriptions st)))) in
  subs ≡ₚ channelSubscriptions (storedSubscriptions st) channelID
  /\ StronglySorted (fun a b => repositoryLe (Repository a) (Repository b)) subs
  /\ Repository <$> subs = sortedRepositories (storedSubscriptions st) channelID.
Proof.
  intros Hrt subs.
  assert (Hperm : subs ≡ₚ channelSubscriptions (storedSubscriptions st) channelID).
  { unfold subs. rewrite (sortSlice_perm p Hrt), <- channelSubscriptions_loops.
    apply Permutation_flat_map, (mapRange_perm p Hrt). }
  assert (Hsorted : StronglySorted
                      (fun a b => repositoryLe (Repository a) (Repository b)) subs).
  { eapply StronglySorted_weaken;
      [|apply (sortSlice_sorted p Hrt); [apply notLess_trans|apply notLess_total]].
    intros a b Hab. apply not_lt_le. exact Hab. }
  split; [exact Hperm|]. split; [exact Hsorted|].
  apply (StronglySorted_unique repositoryLe).
  - eapply StronglySorted_fmap; [|exact Hsorted]. auto.
  - apply sortedRepositories_sorted.
  - rewrite sortedRepositories_perm. apply fmap_Permutation, Hperm.
Qed.

End Listing.

(** C7. Whatever order the run time visits the stored map in and however
    it sorts, as long as the store can be read [GetSubscriptionsByChannel]
    returns exactly the subscriptions stored for the channel (one stored
    without a repository shown with its key), ascending by repository key,
    and [handleSubscriptionsList] prints them in that order, one line
    each that names the repository: the sequence of repository keys is
    [sortedRepositories], which depends on the aggregate and the channel
    only. *)
Theorem subscriptions_listed_in_order (p : Plugin) (args : CommandArgs) (st : State) :
  GoRuntime p ->
  store_Get_error p SubscriptionsKey = None ->
  exists subs : list Subscription,
    GetSubscriptionsByChannel p (args_ChannelId args) st = (Returned (Ok subs), st)
    /\ subs ≡ₚ channelSubscriptions (storedSubscriptions st) (args_ChannelId args)
    /\ (forall s : Subscription,
          s ∈ subs
          <-> exists (key : string) (stored : list Subscription) (s0 : Subscription),
                Repositories (storedSubscriptions st) !! key = Some stored
                /\ s0 ∈ stored /\ ChannelID s0 = args_ChannelId args
                /\ s = listedUnder key s0)
    /\ StronglySorted (fun a b => repositoryLe (Repository a) (Repository b)) subs
    /\ Repository <$> subs
       = sortedRepositories (storedSubscriptions st) (args_ChannelId args)
    /\ handleSubscriptionsList p args st
       = (Returned
            ((if (length subs =? 0)%nat
              then "Currently there are no subscriptions in this channel"
              else "### Subscriptions in this channel" +:+ nl)
             +:+ foldr (fun sub rest =>
                          "* `" +:+ TrimByte (Repository sub) "/" +:+ "` - "
                          +:+ sub_Features sub
                          +:+ (if decide (SubscriptionFlags_String (Flags sub) = EmptyString)
                               then EmptyString
                               else " " +:+ SubscriptionFlags_String (Flags sub))
                          +:+ nl +:+ rest)
                 EmptyString subs),
          st).
Proof.
  intros Hrt Hget.
  pose proof (GetSubscriptionsByChannel_ok p (args_ChannelId args) st Hget) as Hsubs.
  destruct (channel_subscriptions_sorted p (args_ChannelId args) st Hrt)
    as (Hperm & Hsorted & Hkeys).
  eexists. split; [exact Hsubs|]. split; [exact Hperm|]. split.
  { intros s. rewrite Hperm. apply channelSubscriptions_spec. }
  split; [exact Hsorted|]. split; [exact Hkeys|].
  unfold handleSubscriptionsList, bind. rewrite Hsubs. unfold ret.
  rewrite listing_fold, listing_text. reflexivity.
Qed.

(** C7 on the stored subscriptions of the test suite: [channel3] is
    listed with [repo1] and then [repo2]. *)
Lemma subscriptions_listed_in_order_witness :
  exists subs : list Subscription,
    GetSubscriptionsByChannel samplePlugin (args_ChannelId sampleArgs) testState
    = (Returned (Ok subs), testState)
    /\ Repository <$> subs = ["repo1"; "repo2"]
    /\ handleSubscriptionsList samplePlugin sampleArgs testState
       = (Returned ("### Subscriptions in this channel" +:+ nl
                    +:+ "* `repo1` - " +:+ nl +:+ "* `repo2` - " +:+ nl), testState).
Proof.
  destruct (subscriptions_listed_in_order samplePlugin sampleArgs testState
              samplePlugin_runtime eq_refl)
    as (subs & Hsubs & _ & _ & _ & Hkeys & Hlist).
  exists subs. split; [exact Hsubs|]. split.
  - rewrite Hkeys. vm_compute. reflexivity.
  - rewrite Hlist. clear Hlist Hkeys. revert Hsubs. vm_compute.
    intros [= <-]. reflexivity.
Defined.

(** ** Keys are folded to lower case *)

Section LowerCase.

Lemma sameStore_refl st : sameStore st st.
Proof. split; reflexivity. Qed.

Lemma sameStore_trans st1 st2 st3 : sameStore st1 st2 -> sameStore st2 st3 -> sameStore st1 st3.
Proof. intros [H1 H2] [H3 H4]. split; congruence. Qed.

Lemma emit_sameStore e st : sameStore st (emit e st).2.
Proof. split; reflexivity. Qed.


Lemma GetSubscriptions_state p st : (GetSubscriptions p st).2 = st.
Proof.
  unfold GetSubscriptions.
  destruct (store_Get_error p SubscriptionsKey); [reflexivity|].
  destruct (st_subscriptions st); reflexivity.
Qed.



End LowerCase.

Section LowerCaseHandlers.





(** The only trace [githubConnectUser] leaves is its warning. *)
Lemma githubConnectUser_warns p st :
  exists (githubClient : bool) (st1 : State),
    githubConnectUser p st = (Returned githubClient, st1)
    /\ sameStore st st1
    /\ (st_effects st1 = st_effects st
        \/ st_effects st1
           = st_effects st ++ [EffLog "warn" "Failed to create GitHub client"]).
Proof.
  unfold githubConnectUser. destruct (GetGitHubClient_error p) as [e|].
  - eexists. eexists. split; [reflexivity|]. split; [split; reflexivity|].
    right. reflexivity.
  - exists true, st. split; [reflexivity|]. split; [apply sameStore_refl|].
    left. reflexivity.
Qed.


End LowerCaseHandlers.

Section LowerCaseReached.



End LowerCaseReached.

(** ** Lower case on ASCII *)

Section LowerCaseASCII.

Implicit Types (c d : ascii) (s t k : string).








Lemma lowerASCII_append s t : lowerASCII (s +:+ t) = lowerASCII s +:+ lowerASCII t.
Proof.
  induction s as [|c s IH]; [reflexivity|].
  change (String (lower_byte c) (lowerASCII (s +:+ t))
          = String (lower_byte c) (lowerASCII s +:+ lowerASCII t)).
  rewrite IH. reflexivity.
Qed.

Lemma isASCII_append s t : isASCII (s +:+ t) = isASCII s && isASCII t.
Proof.
  induction s as [|c s IH]; [reflexivity|].
  change (((nat_of_ascii c <? 128)%nat && isASCII (s +:+ t))
          = ((nat_of_ascii c <? 128)%nat && isASCII s) && isASCII t).
  rewrite IH, andb_assoc. reflexivity.
Qed.

(** On a string that is all ASCII, [strings.ToLower] folds the bytes,
    whatever the case table of the run time. *)
Lemma ToLower_ASCII (LowerCase : rune -> rune) s :
  isASCII s = true -> ToLower LowerCase s = lowerASCII s.
Proof. unfold ToLower. intros ->. reflexivity. Qed.

End LowerCaseASCII.



(** ** Splitting and joining on commas *)

Section CommaLists.

Implicit Types (s t name : string) (names : list string).

Lemma length_append s t : String.length (s +:+ t) = (String.length s + String.length t)%nat.
Proof.
  induction s as [|a s IH]; [reflexivity|].
  change (S (String.length (s +:+ t)) = S (String.length s + String.length t)).
  f_equal. exact IH.
Qed.

Lemma Contains_comma s : Contains s "," = ContainsByte s ","%char.
Proof.
  induction s as [|d s IH]; [reflexivity|].
  cbn [Contains ContainsByte String.prefix]. rewrite IH.
  destruct (ascii_dec "," d) as [<-|Hne].
  - rewrite Ascii.eqb_refl. destruct s; reflexivity.
  - assert (Ascii.eqb d "," = false) as ->; [|reflexivity].
    apply Ascii.eqb_neq. congruence.
Qed.

Lemma Split_nonempty s c : Split s c <> [].
Proof.
  destruct s as [|d s]; cbn [Split]; [discriminate|].
  destruct (Ascii.eqb d c); [discriminate|]. destruct (Split s c); discriminate.
Qed.

Lemma Split_commaFree s : commaFree s -> Split s "," = [s].
Proof.
  unfold commaFree. induction s as [|d s IH]; cbn [Split ContainsByte]; [reflexivity|].
  intros [Hd Hs]%orb_false_iff. rewrite Hd, (IH Hs). reflexivity.
Qed.

Lemma Split_pieces s : Forall commaFree (Split s ",").
Proof.
  unfold commaFree. induction s as [|d s IH]; cbn [Split].
  - repeat constructor.
  - destruct (Ascii.eqb d ",") eqn:Hd; [constructor; [reflexivity|exact IH]|].
    destruct (Split s ",") as [|piece pieces]; [repeat constructor; cbn; rewrite Hd; reflexivity|].
    inversion IH as [|? ? Hpiece Hpieces]; subst.
    constructor; [|exact Hpieces]. cbn [ContainsByte]. rewrite Hd, Hpiece. reflexivity.
Qed.

Lemma Split_app s t :
  commaFree s -> Split (s +:+ String "," t) "," = s :: Split t ",".
Proof.
  unfold commaFree. induction s as [|d s IH]; cbn [ContainsByte].
  - intros _. reflexivity.
  - intros [Hd Hs]%orb_false_iff.
    change (String d s +:+ String "," t) with (String d (s +:+ String "," t)).
    cbn [Split]. rewrite Hd, (IH Hs). reflexivity.
Qed.

Lemma Join_cons name names :
  names <> [] -> Join (name :: names) "," = name +:+ String "," (Join names ",").
Proof. destruct names; [congruence|reflexivity]. Qed.

(** Splitting undoes joining, for comma-free names, except that the empty
    list and the single empty name are both joined to the empty string. *)
Lemma Split_Join names :
  names <> [] -> Forall commaFree names -> Split (Join names ",") "," = names.
Proof.
  induction names as [|name names IH]; [congruence|]. intros _ Hall.
  inversion Hall as [|? ? Hname Hnames]; subst.
  destruct names as [|name' names'].
  - apply Split_commaFree, Hname.
  - rewrite Join_cons by discriminate. rewrite Split_app by exact Hname.
    f_equal. apply IH; [discriminate|exact Hnames].
Qed.

Lemma Join_snoc names name :
  names <> [] -> Join names "," +:+ "," +:+ name = Join (names ++ [name]) ",".
Proof.
  induction names as [|n names IH]; [congruence|]. intros _.
  destruct names as [|n' names'].
  - reflexivity.
  - change ((n :: n' :: names') ++ [name]) with (n :: ((n' :: names') ++ [name])).
    rewrite (Join_cons n (n' :: names')) by discriminate.
    rewrite (Join_cons n ((n' :: names') ++ [name])) by discriminate.
    rewrite <- IH by discriminate.
    rewrite append_assoc. reflexivity.
Qed.

Lemma Join_empty names :
  Join names "," = EmptyString -> names = [] \/ names = [EmptyString].
Proof.
  destruct names as [|n [|n' names']]; [auto|cbn; intros ->; auto|].
  rewrite Join_cons by discriminate. intros H. apply (f_equal String.length) in H.
  rewrite length_append in H. cbn in H. lia.
Qed.

Lemma contains_spec names name : contains names name = true <-> name ∈ names.
Proof.
  unfold contains. rewrite existsb_exists, list_elem_of_In. split.
  - intros (x & Hin & ->%String.eqb_eq). exact Hin.
  - intros Hin. exists name. split; [exact Hin|apply String.eqb_refl].
Qed.

End CommaLists.

(** ** Muted users *)

Section MutedUsers.

Implicit Types (p : Plugin) (userInfo : GitHubUserInfo) (st : State).

Lemma getMutedUsernames_ok p userInfo st :
  store_Get_error p (mutedUsersKey userInfo) = None ->
  getMutedUsernames p userInfo st
  = (Returned (Ok (let stored := default EmptyString (st_bytes st !! mutedUsersKey userInfo) in
                   if (String.length stored =? 0)%nat then [] else Split stored ",")), st).
Proof.
  intros Hget. unfold getMutedUsernames, bind, store_Get_bytes. rewrite Hget.
  cbv zeta. destruct (String.length _ =? 0)%nat; reflexivity.
Qed.

Lemma getMutedUsernames_state p userInfo st : (getMutedUsernames p userInfo st).2 = st.
Proof.
  unfold getMutedUsernames, bind, store_Get_bytes.
  destruct (store_Get_error p _); [reflexivity|].
  destruct (String.length _ =? 0)%nat; reflexivity.
Qed.

(** Whatever [getMutedUsernames] returns is free of commas. *)
Lemma getMutedUsernames_commaFree p userInfo st muted :
  (getMutedUsernames p userInfo st).1 = Returned (Ok muted) -> Forall commaFree muted.
Proof.
  unfold getMutedUsernames, bind, store_Get_bytes.
  destruct (store_Get_error p _); [discriminate|].
  destruct (String.length _ =? 0)%nat; intros [= <-]; [constructor|apply Split_pieces].
Qed.

(** A name with a comma is never among the muted names. *)
Lemma comma_name_not_muted p userInfo st muted username :
  (getMutedUsernames p userInfo st).1 = Returned (Ok muted) ->
  Contains username "," = true -> contains muted username = false.
Proof.
  intros Hmuted Hcomma. apply not_true_is_false. intros Hin%contains_spec.
  pose proof (getMutedUsernames_commaFree p userInfo st muted Hmuted) as Hfree.
  rewrite Forall_forall in Hfree. specialize (Hfree username Hin).
  unfold commaFree in Hfree. rewrite <- Contains_comma in Hfree. congruence.
Qed.

(** [handleMuteAdd] writes nothing when the name has a comma. *)
Lemma handleMuteAdd_comma_no_write p username userInfo st :
  Contains username "," = true -> sameStore st (handleMuteAdd p username userInfo st).2.
Proof.
  intros Hcomma. unfold handleMuteAdd, bind.
  pose proof (getMutedUsernames_state p userInfo st) as Hst.
  pose proof (comma_name_not_muted p userInfo st) as Hnot.
  destruct (getMutedUsernames p userInfo st) as [[[muted|e]|reason] st0];
    cbn [fst snd] in *; subst st0; try (split; reflexivity).
  rewrite (Hnot muted username eq_refl Hcomma), Hcomma. split; reflexivity.
Qed.

(** The answer to a muted user differs from every other answer. *)
Lemma msgNowMuted_length username :
  String.length (msgNowMuted username) = (String.length username + 92)%nat.
Proof.
  unfold msgNowMuted. rewrite !length_append. cbn [String.length]. lia.
Qed.

Lemma returned_length (a b : string) (s s' : State) :
  (Returned a, s) = (Returned b, s') -> String.length a = String.length b.
Proof. intros [= -> _]. reflexivity. Qed.

(** What a successful [handleMuteAdd] has done. *)
Lemma handleMuteAdd_success p username userInfo st st' :
  store_Get_error p (mutedUsersKey userInfo) = None ->
  handleMuteAdd p username userInfo st = (Returned (msgNowMuted username), st') ->
  let stored := default EmptyString (st_bytes st !! mutedUsersKey userInfo) in
  let muted := if (String.length stored =? 0)%nat then [] else Split stored "," in
  contains muted username = false
  /\ commaFree username
  /\ st' = {| st_subscriptions := st_subscriptions st;
              st_bytes := <[mutedUsersKey userInfo :=
                              if (0 <? length muted)%nat
                              then Join muted "," +:+ "," +:+ username
                              else username]> (st_bytes st);
              st_effects := st_effects st |}.
Proof.
  intros Hget. unfold handleMuteAdd, bind.
  rewrite (getMutedUsernames_ok p userInfo st Hget). cbv zeta.
  set (muted := if (String.length _ =? 0)%nat then [] else Split _ ",").
  destruct (contains muted username).
  { intros H%returned_length.
    rewrite msgNowMuted_length, length_append in H. cbn [String.length] in H. lia. }
  destruct (Contains username ",") eqn:Hcomma.
  { intros H%returned_length.
    rewrite msgNowMuted_length in H. cbn [String.length] in H. lia. }
  unfold store_Set_bytes. destruct (store_Set_error p _).
  { intros H%returned_length.
    rewrite msgNowMuted_length in H. cbn [String.length] in H. lia. }
  intros [= <-]. split; [reflexivity|]. split; [|reflexivity].
  unfold commaFree. rewrite <- Contains_comma. exact Hcomma.
Qed.

End MutedUsers.

(** The names a stored value is read as; the empty value is no name. *)
Lemma stored_names_read (names : list string) :
  Forall commaFree names -> names <> [EmptyString] ->
  (if (String.length (Join names ",") =? 0)%nat then [] else Split (Join names ",") ",")
  = names.
Proof.
  intros Hfree Hne. destruct names as [|n names]; [reflexivity|].
  destruct (String.length _ =? 0)%nat eqn:Hlen.
  - apply length_zero_empty, Join_empty in Hlen. destruct Hlen; congruence.
  - apply Split_Join; [discriminate|exact Hfree].
Qed.

(** C9 (amended). The muted-users record keeps its names free of commas.
    A user name with a comma is never written, whatever the store does;
    when the record can be read, [handleMuteAdd] answers such a name with
    [Invalid username provided] and a name already muted with
    [... is already muted], the state untouched.  Consequently, from a
    stored value that is the comma-join of comma-free names (other than
    the single empty name, which is stored like no name at all), a
    successful [handleMuteAdd] of a user name (not empty when the list is)
    followed by a [getMutedUsernames] whose read of the record does not
    fail returns the names with the new one appended. *)
Theorem muted_users_comma_free (p : Plugin) (username : string)
    (userInfo : GitHubUserInfo) (st : State) :
  (Contains username "," = true ->
   sameStore st (handleMuteAdd p username userInfo st).2)
  /\ (store_Get_error p (mutedUsersKey userInfo) = None ->
      Contains username "," = true ->
      handleMuteAdd p username userInfo st = (Returned "Invalid username provided", st))
  /\ (forall muted : list string,
        getMutedUsernames p userInfo st = (Returned (Ok muted), st) ->
        username ∈ muted ->
        handleMuteAdd p username userInfo st
        = (Returned (username +:+ " is already muted"), st))
  /\ (forall (names : list string) (st' : State),
        Forall commaFree names ->
        names <> [EmptyString] ->
        (names = [] -> username <> EmptyString) ->
        default EmptyString (st_bytes st !! mutedUsersKey userInfo) = Join names "," ->
        handleMuteAdd p username userInfo st = (Returned (msgNowMuted username), st') ->
        store_Get_error p (mutedUsersKey userInfo) = None ->
        getMutedUsernames p userInfo st' = (Returned (Ok (names ++ [username])), st')).
Proof.
  split; [apply handleMuteAdd_comma_no_write|]. split; [|split].
  - intros Hget Hcomma. unfold handleMuteAdd, bind.
    pose proof (getMutedUsernames_ok p userInfo st Hget) as Hmuted.
    rewrite Hmuted.
    rewrite (comma_name_not_muted p userInfo st _ username); [|rewrite Hmuted; reflexivity|exact
        Hcomma].
    rewrite Hcomma. reflexivity.
  - intros muted Hmuted Hin%contains_spec. unfold handleMuteAdd, bind.
    rewrite Hmuted, Hin. reflexivity.
  - intros names st' Hfree Hsingle Hempty Hstored Hadd Hget.
    destruct (handleMuteAdd_success p username userInfo st st' Hget Hadd)
      as (Hnew & Hname & ->).
    rewrite Hstored, (stored_names_read names Hfree Hsingle).
    rewrite (getMutedUsernames_ok p userInfo _ Hget). cbn [st_bytes].
    rewrite lookup_insert_eq. cbn [from_option]. unfold id. cbv zeta.
    do 2 f_equal. f_equal.
    destruct names as [|n names]; cbn [length Nat.ltb Nat.leb].
    + specialize (Hempty eq_refl).
      destruct (String.length username =? 0)%nat eqn:Hlen;
        [apply length_zero_empty in Hlen; congruence|].
      apply Split_commaFree, Hname.
    + rewrite Join_snoc by discriminate.
      assert (Hall : Forall commaFree ((n :: names) ++ [username])).
      { apply Forall_app. split; [exact Hfree|repeat constructor; exact Hname]. }
      destruct (String.length (Join ((n :: names) ++ [username]) ",") =? 0)%nat eqn:Hlen.
      * apply length_zero_empty, Join_empty in Hlen.
        destruct Hlen as [Hl|Hl]; [discriminate|].
        destruct names; discriminate.
      * apply Split_Join; [discriminate|exact Hall].
Qed.

(** C9 (amended) on the record of the test suite: [newUser] is appended to
    [existingUser]. *)
Lemma muted_users_comma_free_witness :
  getMutedUsernames samplePlugin sampleUserInfo
    (handleMuteAdd samplePlugin "newUser" sampleUserInfo
       {| st_subscriptions := None;
          st_bytes := {[ "user1-muted-users" := "existingUser" ]};
          st_effects := [] |}).2
  = (Returned (Ok ["existingUser"; "newUser"]),
     (handleMuteAdd samplePlugin "newUser" sampleUserInfo
        {| st_subscriptions := None;
           st_bytes := {[ "user1-muted-users" := "existingUser" ]};
           st_effects := [] |}).2).
Proof.
  destruct (muted_users_comma_free samplePlugin "newUser" sampleUserInfo
              {| st_subscriptions := None;
                 st_bytes := {[ "user1-muted-users" := "existingUser" ]};
                 st_effects := [] |})
    as (_ & _ & _ & Hround).
  apply (Hround ["existingUser"]);
    [repeat constructor|discriminate|discriminate
    |vm_compute; reflexivity|vm_compute; reflexivity|reflexivity].
Defined.

(** C9 as stated fails in three ways.  When the record cannot be read, a
    user name with a comma is answered with the read failure and not with
    [Invalid username provided].  The empty stored value is the join of the
    single empty name, and adding [bob] to it gives [bob] alone.  And the
    empty user name, added to no names, is stored as the empty value, which
    is read back as no name. *)
Lemma muted_users_claim_fails :
  ((handleMuteAdd brokenStorePlugin "invalid,user" sampleUserInfo emptyState).1
   = Returned msgMutedReadFailed
   /\ msgMutedReadFailed <> "Invalid username provided")
  /\ (default EmptyString (st_bytes emptyState !! mutedUsersKey sampleUserInfo)
      = Join [EmptyString] ","
      /\ (handleMuteAdd samplePlugin "bob" sampleUserInfo emptyState).1
         = Returned (msgNowMuted "bob")
      /\ (getMutedUsernames samplePlugin sampleUserInfo
            (handleMuteAdd samplePlugin "bob" sampleUserInfo emptyState).2).1
         = Returned (Ok ["bob"])
      /\ ["bob"] <> [EmptyString] ++ ["bob"])
  /\ (default EmptyString (st_bytes emptyState !! mutedUsersKey sampleUserInfo)
      = Join [] ","
      /\ (handleMuteAdd samplePlugin EmptyString sampleUserInfo emptyState).1
         = Returned (msgNowMuted EmptyString)
      /\ (getMutedUsernames samplePlugin sampleUserInfo
            (handleMuteAdd samplePlugin EmptyString sampleUserInfo emptyState).2).1
         = Returned (Ok [])
      /\ [] <> [] ++ [EmptyString]).
Proof.
  repeat split; try (vm_compute; reflexivity); discriminate.
Qed.

(** ** The exclude list is for organizations *)

Section ExcludeFlag.

Implicit Types (p : Plugin) (flags : SubscriptionFlags) (flagParams : list string).

Lemma Split_map_nonempty (f : string -> string) s c : map f (Split s c) <> [].
Proof.
  pose proof (Split_nonempty s c) as H. destruct (Split s c); [congruence|discriminate].
Qed.

(** [AddFlag] sets the exclude list on the exclude flag and keeps it on
    every other flag. *)
Lemma AddFlag_exclude flags flag value flags' :
  AddFlag flags flag value = Some flags' ->
  ExcludeRepository flags <> [] \/ flag = flagExcludeRepository ->
  ExcludeRepository flags' <> [].
Proof.
  unfold AddFlag. intros Hadd Hcase.
  destruct (String.eqb_spec flag flagExcludeOrgMember) as [->|_].
  { destruct (ParseBool value); [|discriminate]. injection Hadd as <-.
    cbn [ExcludeRepository]. destruct Hcase as [H|H]; [exact H|discriminate]. }
  destruct (String.eqb_spec flag flagIncludeOnlyOrgMembers) as [->|_].
  { destruct (ParseBool value); [|discriminate]. injection Hadd as <-.
    cbn [ExcludeRepository]. destruct Hcase as [H|H]; [exact H|discriminate]. }
  destruct (String.eqb_spec flag flagRenderStyle) as [->|_].
  { injection Hadd as <-.
    cbn [ExcludeRepository]. destruct Hcase as [H|H]; [exact H|discriminate]. }
  destruct (String.eqb_spec flag flagExcludeRepository) as [->|Hne].
  { injection Hadd as <-. cbn [ExcludeRepository]. apply Split_map_nonempty. }
  injection Hadd as <-. destruct Hcase as [H|H]; [exact H|congruence].
Qed.

(** The loop over the flags ends with an exclude list once the exclude
    flag has been met. *)
Lemma subscribeFlagLoop_exclude p (n : nat) :
  forall flagParams events flags events' flags',
    (length flagParams <= n)%nat ->
    subscribeFlagLoop p flagParams events flags = Ok (events', flags') ->
    ExcludeRepository flags <> [] \/ suppliesExclude p flagParams = true ->
    ExcludeRepository flags' <> [].
Proof.
  induction n as [|n IH]; intros flagParams events flags events' flags' Hlen Hloop Hcase.
  - destruct flagParams; [|cbn in Hlen; lia].
    cbn in Hloop, Hcase. injection Hloop as <- <-.
    destruct Hcase as [H|H]; [exact H|discriminate].
  - destruct flagParams as [|flag [|value rest]].
    + cbn in Hloop, Hcase. injection Hloop as <- <-.
      destruct Hcase as [H|H]; [exact H|discriminate].
    + cbn in Hloop, Hcase. injection Hloop as <- <-.
      destruct Hcase as [H|H]; [exact H|discriminate].
    + cbn [subscribeFlagLoop suppliesExclude] in Hloop, Hcase.
      cbn [length] in Hlen.
      destruct (isFlag p flag); cbn [negb] in Hloop; [|discriminate].
      destruct (String.eqb_spec (parseFlag p flag) flagFeatures) as [Hfeat|Hfeat].
      * apply (IH rest value flags events' flags'); [lia|exact Hloop|].
        destruct Hcase as [H|H]; [left; exact H|right].
        rewrite Hfeat in H. exact H.
      * destruct (AddFlag flags (parseFlag p flag) value) as [flags1|] eqn:Hadd;
          [|discriminate].
        apply (IH rest events flags1 events' flags'); [lia|exact Hloop|].
        destruct (String.eqb_spec (parseFlag p flag) flagExcludeRepository) as [Hex|Hex].
        -- left. eapply AddFlag_exclude; [exact Hadd|right; exact Hex].
        -- destruct Hcase as [H|H].
           ++ left. eapply AddFlag_exclude; [exact Hadd|left; exact H].
           ++ right. exact H.
Qed.

Lemma subscribeFlags_exclude p flagParams events flags :
  subscribeFlags p flagParams = Ok (events, flags) ->
  suppliesExclude p flagParams = true ->
  ExcludeRepository flags <> [].
Proof.
  unfold subscribeFlags. intros Hflags Hex.
  destruct (0 <? length flagParams)%nat eqn:Hpos.
  - destruct (negb _); [discriminate|].
    destruct (subscribeFlagLoop p flagParams _ noFlags) as [[events1 flags1]|m] eqn:Hloop;
      [|discriminate].
    assert (Hgoal : ExcludeRepository flags1 <> []).
    { eapply (subscribeFlagLoop_exclude p (length flagParams) flagParams);
        [reflexivity|exact Hloop|]. right. exact Hex. }
    destruct (checkFeatureConflict _) as [ok conflictingFs].
    destruct (negb ok).
    { destruct conflictingFs as [|a [|b [|c l]]]; discriminate. }
    destruct (validateFeatures _) as [ok' ifs].
    destruct (negb ok'); [destruct (length ifs =? 0)%nat; discriminate|].
    injection Hflags as _ <-. exact Hgoal.
  - destruct flagParams as [|flag [|value rest]]; cbn in Hex, Hpos; discriminate.
Qed.

Lemma GetSubscriptionsByChannel_state p channelID st :
  (GetSubscriptionsByChannel p channelID st).2 = st.
Proof.
  unfold GetSubscriptionsByChannel, bind.
  pose proof (GetSubscriptions_state p st) as Hst.
  destruct (GetSubscriptions p st) as [[[subs|e]|reason] st0]; cbn [snd] in *; subst;
    reflexivity.
Qed.

Lemma getSubscribedFeatures_state p channelID owner repo st :
  (getSubscribedFeatures p channelID owner repo st).2 = st.
Proof.
  unfold getSubscribedFeatures, bind.
  pose proof (GetSubscriptionsByChannel_state p channelID st) as Hst.
  destruct (GetSubscriptionsByChannel p channelID st) as [[[subs|e]|reason] st0];
    cbn [snd] in *; subst; try reflexivity.
  destruct (find _ subs); reflexivity.
Qed.

Lemma getSubscribedFeatures_returns p channelID owner repo st :
  exists r, (getSubscribedFeatures p channelID owner repo st).1 = Returned r.
Proof.
  unfold getSubscribedFeatures, GetSubscriptionsByChannel, GetSubscriptions, bind.
  destruct (store_Get_error p SubscriptionsKey); [eexists; reflexivity|].
  destruct (st_subscriptions st); cbn; destruct (find _ _); eexists; reflexivity.
Qed.

End ExcludeFlag.

Section FlagWords.

Implicit Types (p : Plugin) (flags : SubscriptionFlags) (flagParams : list string)
  (pairs : list (string * string)).

(** [AddFlag] takes every flag but a boolean one without a boolean. *)
Lemma AddFlag_accepts flags (name value : string) :
  (name = "exclude-org-member" \/ name = "include-only-org-members" ->
   is_Some (ParseBool value)) ->
  exists flags', AddFlag flags name value = Some flags'.
Proof.
  intros Hbool. unfold AddFlag, flagExcludeOrgMember, flagIncludeOnlyOrgMembers.
  destruct (String.eqb_spec name "exclude-org-member") as [He|_].
  { destruct (Hbool (or_introl He)) as [b ->]. eexists. reflexivity. }
  destruct (String.eqb_spec name "include-only-org-members") as [Hi|_].
  { destruct (Hbool (or_intror Hi)) as [b ->]. eexists. reflexivity. }
  destruct (String.eqb name flagRenderStyle); [eexists; reflexivity|].
  destruct (String.eqb name flagExcludeRepository); eexists; reflexivity.
Qed.

Lemma flagPairs_cases p flagParams pairs :
  flagPairs p flagParams = Some pairs ->
  (flagParams = [] /\ pairs = [])
  \/ exists flag value rest pairs',
       flagParams = flag :: value :: rest
       /\ isFlag p flag = true
       /\ flagPairs p rest = Some pairs'
       /\ pairs = (parseFlag p flag, value) :: pairs'.
Proof.
  destruct flagParams as [|flag [|value rest]]; cbn [flagPairs].
  - intros [= <-]. left. auto.
  - discriminate.
  - destruct (isFlag p flag) eqn:Hflag; [|discriminate].
    destruct (flagPairs p rest) as [pairs'|] eqn:Hrest; [|discriminate].
    cbn [fmap option_fmap option_map].
    intros [= <-]. right. exists flag, value, rest, pairs'. repeat split; auto.
Qed.

(** The loop over well-formed flag words ends with the features the
    command asks for. *)
Lemma subscribeFlagLoop_pairs p pairs :
  forall flagParams (events : Features) flags,
    flagPairs p flagParams = Some pairs ->
    booleanValues pairs ->
    (length flagParams = 2 * length pairs)%nat
    /\ exists flags',
         subscribeFlagLoop p flagParams events flags
         = Ok (default events
                 (last (snd <$> List.filter (fun pair => String.eqb pair.1 "features") pairs)),
               flags').
Proof.
  induction pairs as [|pair pairs IH]; intros flagParams events flags Hpairs Hbool;
    destruct (flagPairs_cases p flagParams _ Hpairs)
      as [[-> Hnil]|(flag & value & rest & pairs' & -> & Hflag & Hrest & Hcons)];
    try discriminate.
  { split; [reflexivity|]. eexists. reflexivity. }
  injection Hcons as -> ->.
  assert (Hbool' : booleanValues pairs').
  { intros name v Hin. apply Hbool. right. exact Hin. }
  cbn [subscribeFlagLoop]. rewrite Hflag. cbn [negb].
  cbn [List.filter fst snd]. unfold flagFeatures.
  destruct (String.eqb (parseFlag p flag) "features").
  - destruct (IH rest value flags Hrest Hbool') as (Hlen & flags' & ->).
    split; [cbn [length]; lia|]. exists flags'. do 2 f_equal.
    cbn [fmap list_fmap snd]. rewrite last_cons.
    destruct (last _); reflexivity.
  - destruct (AddFlag_accepts flags (parseFlag p flag) value) as [flags1 ->].
    { apply Hbool. left. }
    destruct (IH rest events flags1 Hrest Hbool') as (Hlen & flags' & ->).
    split; [cbn [length]; lia|]. exists flags'. reflexivity.
Qed.

(** Well-formed flag words with features one can subscribe to pass
    [subscribeFlags]. *)
Lemma subscribeFlags_accepts p flagParams pairs :
  flagParams <> [] ->
  flagPairs p flagParams = Some pairs ->
  booleanValues pairs ->
  subscribable (Features_ToSlice (requestedFeatures pairs)) ->
  exists flags, subscribeFlags p flagParams = Ok (requestedFeatures pairs, flags).
Proof.
  intros Hne Hpairs Hbool Hfeatures. unfold subscribeFlags.
  destruct (subscribeFlagLoop_pairs p pairs flagParams "pulls,issues,creates,deletes"
              noFlags Hpairs Hbool) as (Hlen & flags & Hloop).
  assert ((0 <? length flagParams)%nat = true) as ->.
  { apply Nat.ltb_lt. destruct flagParams; [congruence|cbn; lia]. }
  assert ((length flagParams mod 2 =? 0)%nat = true) as ->.
  { apply Nat.eqb_eq. rewrite Hlen, Nat.mul_comm. apply Nat.Div0.mod_mul. }
  cbn [negb]. rewrite Hloop.
  destruct (subscribable_checks _ Hfeatures) as [Hconflict Hvalid].
  unfold requestedFeatures in *.
  destruct (checkFeatureConflict _) as [ok conflictingFs].
  cbn [fst] in Hconflict. subst ok. cbn [negb].
  destruct (validateFeatures _) as [ok ifs].
  cbn [fst] in Hvalid. subst ok. cbn [negb]. exists flags. reflexivity.
Qed.

End FlagWords.

(** C3 (amended). A subscribe-add command that names a concrete repository
    and supplies the exclude flag never creates a subscription:
    [handleSubscribesAdd] returns with the store untouched, having added at
    most the warning that no GitHub client could be made.  Its answer is
    [Exclude repository feature is only available to subscriptions of an
    organization.] whenever the flag words are pairs of a flag and a
    value, every boolean flag has a boolean value, the features asked for
    can be subscribed to, and the user and the subscriptions of the channel
    can be looked up. *)
Theorem exclude_only_for_organizations (p : Plugin) (args : CommandArgs)
    (target : string) (flagParams : list string) (userInfo : GitHubUserInfo)
    (st : State) (owner repo : string) :
  parseOwnerAndRepo p target (getBaseURL (configuration p)) = (owner, repo) ->
  repo <> EmptyString ->
  suppliesExclude p flagParams = true ->
  let result := handleSubscribesAdd p args (target :: flagParams) userInfo st in
  sameStore st result.2
  /\ (st_effects result.2 = st_effects st
      \/ st_effects result.2
         = st_effects st ++ [EffLog "warn" "Failed to create GitHub client"])
  /\ (exists msg : string, result.1 = Returned msg)
  /\ (forall (pairs : list (string * string)) (user : User),
        flagPairs p flagParams = Some pairs ->
        booleanValues pairs ->
        subscribable (Features_ToSlice (requestedFeatures pairs)) ->
        client_User_Get p (args_UserId args) = Ok user ->
        store_Get_error p SubscriptionsKey = None ->
        result.1 = Returned msgExcludeOnlyForOrg).
Proof.
  intros Hparse Hrepo Hex result. apply String.eqb_neq in Hrepo.
  assert (Hne : flagParams <> []) by (intros ->; discriminate Hex).
  assert (Hrun : exists (msg : string) (st' : State),
             result = (Returned msg, st')
             /\ sameStore st st'
             /\ (st_effects st' = st_effects st
                 \/ st_effects st'
                    = st_effects st ++ [EffLog "warn" "Failed to create GitHub client"])
             /\ forall (events : Features) (flags : SubscriptionFlags) (user : User),
                  subscribeFlags p flagParams = Ok (events, flags) ->
                  client_User_Get p (args_UserId args) = Ok user ->
                  store_Get_error p SubscriptionsKey = None ->
                  msg = msgExcludeOnlyForOrg).
  { subst result. unfold handleSubscribesAdd.
    destruct (subscribeFlags p flagParams) as [[events flags]|m] eqn:Hflags.
    2:{ exists m, st. split; [reflexivity|]. split; [apply sameStore_refl|].
        split; [left; reflexivity|]. discriminate. }
    pose proof (subscribeFlags_exclude p flagParams events flags Hflags Hex) as Hlist.
    assert (Hpos : (0 <? length (ExcludeRepository flags))%nat = true).
    { apply Nat.ltb_lt. destruct (ExcludeRepository flags); [congruence|cbn; lia]. }
    unfold bind at 1.
    destruct (githubConnectUser_warns p st) as (githubClient & st1 & -> & Hsame1 & Heff1).
    destruct (client_User_Get p (args_UserId args)) as [user|e].
    2:{ eexists. exists st1. split; [reflexivity|]. split; [exact Hsame1|].
        split; [exact Heff1|]. discriminate. }
    rewrite Hparse. unfold bind.
    pose proof (getSubscribedFeatures_state p (args_ChannelId args) owner repo st1) as Hst.
    destruct (getSubscribedFeatures_returns p (args_ChannelId args) owner repo st1)
      as [r Hret].
    assert (Hok : store_Get_error p SubscriptionsKey = None -> exists prev, r = Ok prev).
    { intros Hget. revert Hret. unfold getSubscribedFeatures, bind.
      rewrite (GetSubscriptionsByChannel_ok p _ st1 Hget).
      destruct (find _ _); intros [= <-]; eauto. }
    destruct (getSubscribedFeatures p (args_ChannelId args) owner repo st1) as [out st0].
    cbn [fst snd] in *. subst st0 out.
    destruct r as [prev|e].
    - rewrite Hrepo, Hpos. eexists. exists st1. split; [reflexivity|].
      split; [exact Hsame1|]. split; [exact Heff1|]. reflexivity.
    - eexists. exists st1. split; [reflexivity|]. split; [exact Hsame1|].
      split; [exact Heff1|].
      intros events' flags' user' _ _ Hget. destruct (Hok Hget) as [prev Hprev].
      discriminate. }
  destruct Hrun as (msg & st' & -> & Hsame & Heff & Hmsg). cbn [fst snd].
  split; [exact Hsame|]. split; [exact Heff|]. split; [exists msg; reflexivity|].
  intros pairs user Hpairs Hbool Hfeatures Huser Hget.
  destruct (subscribeFlags_accepts p flagParams pairs Hne Hpairs Hbool Hfeatures)
    as [flags Hflags].
  rewrite (Hmsg _ flags user Hflags Huser Hget). reflexivity.
Qed.

(** C3 (amended) on the command [acme/widgets --exclude acme/other]. *)
Lemma exclude_only_for_organizations_witness :
  handleSubscribesAdd samplePlugin sampleArgs excludeOnRepository sampleUserInfo emptyState
  = (Returned msgExcludeOnlyForOrg, emptyState).
Proof.
  destruct (exclude_only_for_organizations samplePlugin sampleArgs "acme/widgets"
              ["--exclude"; "acme/other"] sampleUserInfo emptyState "acme" "widgets"
              eq_refl ltac:(discriminate) eq_refl)
    as (_ & _ & _ & Hmsg).
  specialize (Hmsg [("exclude", "acme/other")]
                {| Username := "user1"; Roles := "system_user"; Props_git_user := true |}
                eq_refl).
  assert (Hrun : (handleSubscribesAdd samplePlugin sampleArgs excludeOnRepository
                    sampleUserInfo emptyState).1 = Returned msgExcludeOnlyForOrg).
  { apply Hmsg; [| |reflexivity|reflexivity].
    - intros name value Hin%list_elem_of_singleton [Hname|Hname];
        injection Hin as -> ->; discriminate Hname.
    - unfold subscribable.
      change (Features_ToSlice (requestedFeatures [("exclude", "acme/other")]))
        with ["pulls"; "issues"; "creates"; "deletes"].
      split.
      { intros f Hf. left. revert f Hf. apply Forall_forall.
        apply (bool_decide_unpack _). vm_compute. reflexivity. }
      split; [intros _; left; left|].
      repeat split; intros [H1 H2];
        [revert H2|revert H2|revert H2]; apply (bool_decide_unpack _); vm_compute;
        reflexivity. }
  clear Hmsg. revert Hrun. vm_compute. intros _. reflexivity.
Defined.

(** C3 as stated fails: the command names the repository [acme/widgets]
    and supplies the exclude flag, and the answer is about its feature
    list. *)
Lemma exclude_claim_fails :
  parseOwnerAndRepo samplePlugin "acme/widgets" (getBaseURL (configuration samplePlugin))
  = ("acme", "widgets")
  /\ suppliesExclude samplePlugin (tail excludeWithBadFeature) = true
  /\ (handleSubscribesAdd samplePlugin sampleArgs excludeWithBadFeature sampleUserInfo
        emptyState).1
     = Returned "Invalid feature(s) provided: bogus"
  /\ "Invalid feature(s) provided: bogus" <> msgExcludeOnlyForOrg.
Proof.
  repeat split; try (vm_compute; reflexivity). discriminate.
Qed.

(** C6 on the list [creates, push] of the test suite: [push] is listed as
    invalid and [creates] is not, and the flag is false. *)
Lemma validFeatures_closed_set_witness :
  "push" ∈ (validateFeatures ["creates"; "push"]).2
  /\ ("creates" ∉ (validateFeatures ["creates"; "push"]).2)
  /\ (validateFeatures ["creates"; "push"]).1 = false.
Proof.
  destruct validFeatures_closed_set as (_ & _ & _ & Hlisted & Hflag & _).
  split; [|split].
  - apply (Hlisted ["creates"; "push"] "push");
      [|reflexivity|]; apply (bool_decide_unpack _); vm_compute; reflexivity.
  - intros Hin.
    apply (Hlisted ["creates"; "push"] "creates") in Hin;
      [|apply (bool_decide_unpack _); vm_compute; reflexivity|reflexivity].
    apply Hin. apply (bool_decide_unpack _). vm_compute. reflexivity.
  - apply (Hflag ["creates"; "push"] "push");
      [|reflexivity|]; apply (bool_decide_unpack _); vm_compute; reflexivity.
Defined.

(** C8 on a command of three blanks and on the bare trigger. *)
Lemma parseCommand_not_total_witness :
  parseCommand "   " = None
  /\ parseTokens "/github" <> [].
Proof.
  destruct parseCommand_not_total as (_ & Hblank & Hnonblank & _).
  split.
  - apply Hblank. repeat constructor.
  - apply Hnonblank. apply Exists_cons_hd. reflexivity.
Defined.

(* ================================================================== *)
(** * Further properties of the code *)

(** ** Splitting on any byte, and substrings *)

Section SplitAndContains.

Implicit Types (s t a b n : string) (c d : ascii).

Lemma Split_byteFree c s : byteFree c s -> Split s c = [s].
Proof.
  unfold byteFree. induction s as [|d s IH]; cbn [Split ContainsByte]; [reflexivity|].
  intros [Hd Hs]%orb_false_iff. rewrite Hd, (IH Hs). reflexivity.
Qed.

Lemma Split_pieces_free c s : Forall (byteFree c) (Split s c).
Proof.
  unfold byteFree. induction s as [|d s IH]; cbn [Split].
  - repeat constructor.
  - destruct (Ascii.eqb d c) eqn:Hd; [constructor; [reflexivity|exact IH]|].
    destruct (Split s c) as [|piece pieces]; [repeat constructor; cbn; rewrite Hd; reflexivity|].
    inversion IH as [|? ? Hpiece Hpieces]; subst.
    constructor; [|exact Hpieces]. cbn [ContainsByte]. rewrite Hd, Hpiece. reflexivity.
Qed.

(** Splitting distributes over a separator in the middle. *)
Lemma Split_append c a b : Split (a +:+ String c b) c = Split a c ++ Split b c.
Proof.
  induction a as [|d a IH].
  - change (EmptyString +:+ String c b) with (String c b).
    cbn [Split]. rewrite Ascii.eqb_refl. reflexivity.
  - change (String d a +:+ String c b) with (String d (a +:+ String c b)).
    cbn [Split]. rewrite IH. destruct (Ascii.eqb d c); [reflexivity|].
    destruct (Split a c) as [|piece pieces] eqn:E; [|reflexivity].
    exfalso. exact (Split_nonempty a c E).
Qed.

(** Joining the pieces with the separator gives the string back. *)
Lemma Join_Split c s : Join (Split s c) (String c EmptyString) = s.
Proof.
  unfold Join. induction s as [|d s IH]; [reflexivity|]. cbn [Split].
  destruct (Ascii.eqb d c) eqn:Hd.
  - apply Ascii.eqb_eq in Hd as ->.
    destruct (Split s c) as [|piece pieces] eqn:E; [exfalso; exact (Split_nonempty s c E)|].
    change (String.concat (String c "") ("" :: piece :: pieces))
      with (String c (String.concat (String c "") (piece :: pieces))).
    rewrite IH. reflexivity.
  - destruct (Split s c) as [|piece pieces] eqn:E; [exfalso; exact (Split_nonempty s c E)|].
    destruct pieces as [|piece' pieces'].
    + cbn in IH. cbn. rewrite IH. reflexivity.
    + change (String.concat (String c "") (String d piece :: piece' :: pieces'))
        with (String d (String.concat (String c "") (piece :: piece' :: pieces'))).
      rewrite IH. reflexivity.
Qed.

(** Exactly two pieces: one separator, between two strings without it. *)
Lemma Split_two c s a b :
  Split s c = [a; b] <-> s = a +:+ String c b /\ byteFree c a /\ byteFree c b.
Proof.
  split.
  - intros H. pose proof (Join_Split c s) as HJ. pose proof (Split_pieces_free c s) as HF.
    rewrite H in HJ, HF.
    pose proof (Forall_inv HF) as Ha.
    pose proof (Forall_inv (Forall_inv_tail HF)) as Hb.
    split; [symmetry; exact HJ|]. split; assumption.
  - intros (-> & Ha & Hb).
    rewrite Split_append, (Split_byteFree c a Ha), (Split_byteFree c b Hb). reflexivity.
Qed.

Lemma prefix_refl_append n t : String.prefix n (n +:+ t) = true.
Proof.
  induction n as [|d n IH]; [destruct t; reflexivity|].
  change (String d n +:+ t) with (String d (n +:+ t)).
  cbn [String.prefix]. destruct (ascii_dec d d); [exact IH|congruence].
Qed.

Lemma prefix_append_l a b s : String.prefix (a +:+ b) s = true -> String.prefix a s = true.
Proof.
  revert s. induction a as [|d a IH]; intros s; [destruct s; reflexivity|].
  change (String d a +:+ b) with (String d (a +:+ b)).
  destruct s as [|e s]; cbn [String.prefix]; [congruence|].
  destruct (ascii_dec d e); [apply IH|congruence].
Qed.

Lemma Contains_append a n b : Contains (a +:+ n +:+ b) n = true.
Proof.
  induction a as [|d a IH].
  - change (EmptyString +:+ n +:+ b) with (n +:+ b).
    destruct (n +:+ b) eqn:E; cbn [Contains];
      rewrite <- E, prefix_refl_append; reflexivity.
  - change (String d a +:+ n +:+ b) with (String d (a +:+ n +:+ b)).
    cbn [Contains]. rewrite IH. apply orb_true_r.
Qed.

(** A string that contains [a ++ b] contains [a]. *)
Lemma Contains_append_l a b s : Contains s (a +:+ b) = true -> Contains s a = true.
Proof.
  induction s as [|d s IH]; cbn [Contains].
  - rewrite !orb_false_r. apply prefix_append_l.
  - intros [H|H]%orb_true_iff; apply orb_true_iff;
      [left; exact (prefix_append_l _ _ _ H)|right; exact (IH H)].
Qed.

(** A needle without the separator lies before the first separator if it
    is a prefix at all. *)
Lemma prefix_first_piece c n s :
  byteFree c n ->
  String.prefix n s = String.prefix n (hd EmptyString (Split s c)).
Proof.
  unfold byteFree. revert s. induction n as [|e n IH]; intros s Hfree.
  - destruct s, (hd EmptyString (Split _ c)); reflexivity.
  - cbn [ContainsByte] in Hfree. apply orb_false_iff in Hfree as [He Hn].
    destruct s as [|d s]; [reflexivity|]. cbn [Split].
    destruct (Ascii.eqb d c) eqn:Hd.
    + apply Ascii.eqb_eq in Hd as ->. cbn [hd String.prefix].
      destruct (ascii_dec e c) as [->|_]; [|reflexivity].
      rewrite Ascii.eqb_refl in He. discriminate.
    + specialize (IH s Hn).
      destruct (Split s c) as [|piece pieces] eqn:E; [exfalso; exact (Split_nonempty s c E)|].
      cbn [hd] in *. cbn [String.prefix]. destruct (ascii_dec e d); [exact IH|reflexivity].
Qed.

(** A needle without the separator is found in a string exactly when it
    is found in one of the pieces. *)
Lemma Contains_pieces c n s :
  byteFree c n -> n <> EmptyString ->
  Contains s n = existsb (fun piece => Contains piece n) (Split s c).
Proof.
  intros Hfree Hn. induction s as [|d s IH].
  - cbn. rewrite !orb_false_r. reflexivity.
  - cbn [Contains]. rewrite (prefix_first_piece c n (String d s) Hfree). cbn [Split].
    destruct (Ascii.eqb d c) eqn:Hd.
    + cbn [hd existsb Contains]. rewrite IH.
      destruct n as [|e n]; [congruence|]. reflexivity.
    + rewrite IH.
      destruct (Split s c) as [|piece pieces] eqn:E; [exfalso; exact (Split_nonempty s c E)|].
      cbn [hd existsb Contains]. rewrite orb_assoc. reflexivity.
Qed.

End SplitAndContains.

(** ** Conflicting features *)

(** X1. [checkFeatureConflict] refuses a feature list exactly when it holds
    [issues] with [issue_creations], [pulls] with [pulls_merged], or [pulls]
    with [pulls_created].  When it refuses, the conflict it reports is one of
    these pairs, both members of which are in the list; when it accepts, it
    reports nothing. *)
Theorem checkFeatureConflict_pairs (fs : list string) :
  ((checkFeatureConflict fs).1 = false
   <-> ("issues" ∈ fs /\ "issue_creations" ∈ fs)
       \/ ("pulls" ∈ fs /\ "pulls_merged" ∈ fs)
       \/ ("pulls" ∈ fs /\ "pulls_created" ∈ fs))
  /\ ((checkFeatureConflict fs).1 = false ->
      exists a b, (checkFeatureConflict fs).2 = [a; b] /\ a ∈ fs /\ b ∈ fs /\ a <> b
                  /\ [a; b] ∈ [["issues"; "issue_creations"]; ["pulls"; "pulls_merged"];
                               ["pulls"; "pulls_created"]])
  /\ ((checkFeatureConflict fs).1 = true -> (checkFeatureConflict fs).2 = []).
Proof.
  assert (Hsplit : forall b1 b2 : bool, b1 && b2 = true <-> b1 = true /\ b2 = true)
    by (intros [] []; cbn; intuition congruence).
  pose proof (SliceContainsString_spec fs "issues") as Hi.
  pose proof (SliceContainsString_spec fs "issue_creations") as Hic.
  pose proof (SliceContainsString_spec fs "pulls") as Hp.
  pose proof (SliceContainsString_spec fs "pulls_merged") as Hpm.
  pose proof (SliceContainsString_spec fs "pulls_created") as Hpc.
  unfold checkFeatureConflict, featureIssues, featureIssueCreation, featurePulls,
    featurePullsMerged, featurePullsCreated.
  destruct (SliceContainsString fs "issues" && SliceContainsString fs "issue_creations")
    eqn:E1; [apply Hsplit in E1 as [E1 E1']|];
    [|destruct (SliceContainsString fs "pulls" && SliceContainsString fs "pulls_merged")
        eqn:E2; [apply Hsplit in E2 as [E2 E2']|];
      [|destruct (SliceContainsString fs "pulls" && SliceContainsString fs "pulls_created")
          eqn:E3; [apply Hsplit in E3 as [E3 E3']|]]];
    cbn [fst snd].
  - split; [split; [intros _; left; split; [apply Hi, E1|apply Hic, E1']|reflexivity]|].
    split; [|discriminate]. intros _. exists "issues", "issue_creations".
    split; [reflexivity|]. split; [apply Hi, E1|]. split; [apply Hic, E1'|].
    split; [discriminate|]. left.
  - split; [split; [intros _; right; left; split; [apply Hp, E2|apply Hpm, E2']|reflexivity]|].
    split; [|discriminate]. intros _. exists "pulls", "pulls_merged".
    split; [reflexivity|]. split; [apply Hp, E2|]. split; [apply Hpm, E2'|].
    split; [discriminate|]. right; left.
  - split; [split; [intros _; right; right; split; [apply Hp, E3|apply Hpc, E3']|reflexivity]|].
    split; [|discriminate]. intros _. exists "pulls", "pulls_created".
    split; [reflexivity|]. split; [apply Hp, E3|]. split; [apply Hpc, E3'|].
    split; [discriminate|]. right; right; left.
  - split; [|split; [discriminate|reflexivity]].
    split; [discriminate|]. intros H. exfalso.
    apply not_true_iff_false in E1, E2, E3. rewrite Hsplit in E1, E2, E3.
    rewrite Hi, Hic in E1. rewrite Hp, Hpm in E2. rewrite Hp, Hpc in E3. tauto.
Qed.


(** ** Flags of a subscription *)

(** X2. [AddFlag] returns an error only for one of the two boolean flags
    with a value that [strconv.ParseBool] rejects.  A flag name it does not
    know is accepted and leaves the flags as they were. *)
Theorem AddFlag_rejects_only_booleans (s : SubscriptionFlags) (flag value : string) :
  (AddFlag s flag value = None
   <-> (flag = "exclude-org-member" \/ flag = "include-only-org-members")
       /\ ParseBool value = None)
  /\ ((flag ∉ ["exclude-org-member"; "include-only-org-members"; "render-style"; "exclude"]) ->
      AddFlag s flag value = Some s).
Proof.
  unfold AddFlag, flagExcludeOrgMember, flagIncludeOnlyOrgMembers, flagRenderStyle,
    flagExcludeRepository.
  destruct (String.eqb flag "exclude-org-member") eqn:E1.
  { apply String.eqb_eq in E1 as ->. split.
    - destruct (ParseBool value); split; try discriminate; auto.
      intros [_ H]. discriminate.
    - intros H. exfalso. apply H. left. }
  destruct (String.eqb flag "include-only-org-members") eqn:E2.
  { apply String.eqb_eq in E2 as ->. split.
    - destruct (ParseBool value); split; try discriminate; auto.
      intros [_ H]. discriminate.
    - intros H. exfalso. apply H. right; left. }
  apply String.eqb_neq in E1, E2.
  destruct (String.eqb flag "render-style") eqn:E3.
  { apply String.eqb_eq in E3 as ->. split.
    - split; [discriminate|]. intros [[H|H] _]; discriminate.
    - intros H. exfalso. apply H. right; right; left. }
  destruct (String.eqb flag "exclude") eqn:E4.
  { apply String.eqb_eq in E4 as ->. split.
    - split; [discriminate|]. intros [[H|H] _]; discriminate.
    - intros H. exfalso. apply H. right; right; right; left. }
  split; [|reflexivity]. split; [discriminate|]. intros [[H|H] _]; contradiction.
Qed.

(** X3. [SubscriptionFlags.String] is empty exactly for the zero value:
    as soon as one flag is set the text starts with [--]. *)
Theorem SubscriptionFlags_String_empty (s : SubscriptionFlags) :
  (SubscriptionFlags_String s = EmptyString <-> s = noFlags)
  /\ (s <> noFlags -> HasPrefix (SubscriptionFlags_String s) "--" = true).
Proof.
  destruct s as [eom ioom style excluded].
  assert (Hcases :
    {| ExcludeOrgMembers := eom; IncludeOnlyOrgMembers := ioom; RenderStyle := style;
       ExcludeRepository := excluded |} = noFlags
    \/ HasPrefix (SubscriptionFlags_String
                    {| ExcludeOrgMembers := eom; IncludeOnlyOrgMembers := ioom;
                       RenderStyle := style; ExcludeRepository := excluded |}) "--" = true).
  { unfold SubscriptionFlags_String, flagExcludeOrgMember, flagIncludeOnlyOrgMembers,
      flagRenderStyle, flagExcludeRepository, Join, HasPrefix.
    cbn [ExcludeOrgMembers IncludeOnlyOrgMembers RenderStyle ExcludeRepository].
    destruct eom; [right|];
      [destruct ioom, style, excluded; reflexivity|].
    destruct ioom; [right|];
      [destruct style, excluded; reflexivity|].
    destruct style; [|right; destruct excluded; reflexivity].
    destruct excluded; [left; reflexivity|right; reflexivity]. }
  split.
  - split; [|intros ->; reflexivity].
    intros Hempty. destruct Hcases as [H|H]; [exact H|].
    rewrite Hempty in H. discriminate.
  - intros Hne. destruct Hcases as [H|H]; [contradiction|exact H].
Qed.

(** ** What the feature string of a subscription means *)

(** X4. [Pulls] is a substring test on the whole feature string: it
    answers true exactly when some feature of the list has [pulls] inside
    it.  So it holds for a subscription to [pulls_merged] or to
    [pulls_created], whether or not [pulls] itself is subscribed. *)
Theorem Pulls_is_a_substring_test (s : Subscription) :
  (Pulls s = true
   <-> exists f, f ∈ Features_ToSlice (sub_Features s) /\ Contains f "pulls" = true)
  /\ (PullsMerged s = true -> Pulls s = true)
  /\ (PullsCreated s = true -> Pulls s = true).
Proof.
  unfold Pulls, PullsMerged, PullsCreated, featurePulls, featurePullsCreated,
    Features_ToSlice.
  split; [|split].
  - rewrite (Contains_pieces "," "pulls" (sub_Features s)) by (reflexivity || discriminate).
    rewrite existsb_exists. split.
    + intros (f & Hin & Hf). exists f. split; [apply list_elem_of_In, Hin|exact Hf].
    + intros (f & Hin & Hf). exists f. split; [apply list_elem_of_In, Hin|exact Hf].
  - apply (Contains_append_l "pulls" "_merged").
  - apply (Contains_append_l "pulls" "_created").
Qed.

Lemma Contains_label_append (pre rest : string) :
  Contains (pre +:+ "label:" +:+ rest) "label:" = true.
Proof. apply (Contains_append pre "label:" rest). Qed.

Lemma byteFree_append (c : ascii) (a b : string) :
  byteFree c a -> byteFree c b -> byteFree c (a +:+ b).
Proof.
  unfold byteFree. intros Ha Hb. induction a as [|d a IH]; [exact Hb|].
  change (String d a +:+ b) with (String d (a +:+ b)).
  cbn [ContainsByte] in *. apply orb_false_iff in Ha as [Hd Ha].
  rewrite Hd, (IH Ha). reflexivity.
Qed.

(** X5. [Label] gives back the name of a quoted label: for a feature string
    [pre ++ label:"name" ++ post] in which no double quote comes before the
    label and the name has none, the answer is [name], whatever follows. *)
Theorem Label_reads_the_quoted_name (s : Subscription) (pre name post : string) :
  byteFree dquote pre -> byteFree dquote name ->
  sub_Features s = pre +:+ labelFeature name +:+ post ->
  Label s = name.
Proof.
  intros Hpre Hname Hfeatures. unfold Label. rewrite Hfeatures. unfold labelFeature.
  rewrite !append_assoc.
  rewrite (Contains_label_append pre). cbn [negb].
  change ("label:" +:+ String dquote (name +:+ String dquote EmptyString) +:+ post)
    with ("label:" +:+ String dquote ((name +:+ String dquote EmptyString) +:+ post)).
  rewrite <- (append_assoc pre "label:").
  rewrite (Split_append dquote (pre +:+ "label:")).
  rewrite (Split_byteFree dquote (pre +:+ "label:"))
    by (apply byteFree_append; [exact Hpre|reflexivity]).
  rewrite append_assoc.
  change (String dquote EmptyString +:+ post) with (String dquote post).
  rewrite (Split_append dquote name post), (Split_byteFree dquote name Hname).
  destruct (Split post dquote) as [|piece pieces] eqn:E;
    [exfalso; exact (Split_nonempty post dquote E)|].
  reflexivity.
Qed.

Lemma Label_reads_the_quoted_name_witness :
  Label {| ChannelID := "channel3"; CreatorID := "user1";
           sub_Features := "issues," +:+ labelFeature "Help Wanted" +:+ ",pulls";
           Flags := noFlags; Repository := "acme/widgets" |}
  = "Help Wanted".
Proof.
  apply (Label_reads_the_quoted_name _ "issues," "Help Wanted" ",pulls");
    reflexivity.
Defined.


(** X6. A label given without double quotes is accepted and then has no
    effect: for a name with no double quote and no comma, the feature list
    [issues,label:name] passes [validateFeatures] and
    [checkFeatureConflict], and [Label] of a subscription with these
    features is empty. *)
Theorem Label_needs_quotes (s : Subscription) (name : string) :
  byteFree dquote name -> byteFree "," name ->
  sub_Features s = "issues,label:" +:+ name ->
  validateFeatures (Features_ToSlice (sub_Features s)) = (true, [])
  /\ (checkFeatureConflict (Features_ToSlice (sub_Features s))).1 = true
  /\ Label s = EmptyString.
Proof.
  intros Hquote Hcomma Hfeatures.
  assert (Hslice : Features_ToSlice (sub_Features s) = ["issues"; "label:" +:+ name]).
  { unfold Features_ToSlice. rewrite Hfeatures.
    change ("issues,label:" +:+ name) with ("issues" +:+ String "," ("label:" +:+ name)).
    rewrite Split_append, (Split_byteFree "," "issues") by reflexivity.
    rewrite (Split_byteFree "," ("label:" +:+ name))
      by (apply byteFree_append; [reflexivity|exact Hcomma]).
    reflexivity. }
  assert (Hissues : isValidFeature "issues" = true) by (vm_compute; reflexivity).
  assert (Hprefix : HasPrefix ("label:" +:+ name) "label" = true) by reflexivity.
  assert (Hlabel : isValidFeature ("label:" +:+ name) = false).
  { destruct (isValidFeature ("label:" +:+ name)) eqn:E; [|reflexivity].
    apply isValidFeature_spec, category_not_label in E. congruence. }
  rewrite Hslice. split; [|split].
  - rewrite (surjective_pairing (validateFeatures _)).
    rewrite validateFeatures_valid, validateFeatures_invalid.
    cbn [forallb existsb List.filter]. rewrite Hissues, Hlabel, Hprefix. reflexivity.
  - unfold checkFeatureConflict, SliceContainsString. cbn [existsb].
    destruct (String.eqb featureIssueCreation ("label:" +:+ name)) eqn:E1;
      [apply String.eqb_eq in E1; discriminate|].
    destruct (String.eqb featurePulls ("label:" +:+ name)) eqn:E2;
      [apply String.eqb_eq in E2; discriminate|].
    reflexivity.
  - unfold Label. rewrite Hfeatures.
    change ("issues,label:" +:+ name) with ("issues," +:+ "label:" +:+ name).
    rewrite (Contains_label_append "issues," name). cbn [negb].
    rewrite (Split_byteFree dquote ("issues," +:+ "label:" +:+ name)); [reflexivity|].
    apply byteFree_append; [reflexivity|]. apply byteFree_append; [reflexivity|exact Hquote].
Qed.

Lemma Label_needs_quotes_witness :
  validateFeatures (Features_ToSlice "issues,label:bug") = (true, [])
  /\ (checkFeatureConflict (Features_ToSlice "issues,label:bug")).1 = true
  /\ Label {| ChannelID := "channel3"; CreatorID := "user1";
              sub_Features := "issues,label:bug";
              Flags := noFlags; Repository := "acme/widgets" |} = EmptyString.
Proof.
  apply (Label_needs_quotes
           {| ChannelID := "channel3"; CreatorID := "user1";
              sub_Features := "issues,label:bug";
              Flags := noFlags; Repository := "acme/widgets" |} "bug");
    reflexivity.
Defined.

(** ** Repository names in requests *)

(** X7. [parseRepo] accepts exactly the parameters with one slash: it
    returns [owner] and [repo] if and only if the parameter is
    [owner/repo] with no slash in either part.  Either part may be empty:
    the parameter [/] is accepted.  The answer is
    [repository cannot be blank] exactly for the empty parameter, and
    [invalid repository] exactly for a parameter that is neither empty nor
    of that form. *)
Theorem parseRepo_one_slash (repoParam : string) :
  (forall owner repo : string,
     parseRepo repoParam = Ok (owner, repo)
     <-> repoParam = owner +:+ "/" +:+ repo /\ byteFree "/" owner /\ byteFree "/" repo)
  /\ (parseRepo repoParam = Err "repository cannot be blank"
      <-> repoParam = EmptyString)
  /\ (parseRepo repoParam = Err "invalid repository"
      <-> repoParam <> EmptyString
          /\ ~ exists owner repo : string,
                repoParam = owner +:+ "/" +:+ repo
                /\ byteFree "/" owner /\ byteFree "/" repo)
  /\ parseRepo "/" = Ok (EmptyString, EmptyString).
Proof.
  assert (Hok : forall owner repo : string,
             parseRepo repoParam = Ok (owner, repo)
             <-> repoParam = owner +:+ "/" +:+ repo
                 /\ byteFree "/" owner /\ byteFree "/" repo).
  { intros owner repo. unfold parseRepo.
    destruct (String.eqb repoParam EmptyString) eqn:Hblank.
    + apply String.eqb_eq in Hblank as ->. split; [discriminate|].
      intros (H & _ & _). destruct owner; discriminate.
    + rewrite <- (Split_two "/" repoParam owner repo).
      destruct (Split repoParam "/") as [|a [|b [|c rest]]]; split; try discriminate;
        intros [= -> ->]; reflexivity. }
  split; [exact Hok|]. split; [|split; [|reflexivity]].
  - split; [|intros ->; reflexivity]. unfold parseRepo.
    destruct (String.eqb_spec repoParam EmptyString) as [Hblank|_]; [intros _; exact Hblank|].
    destruct (Split repoParam "/") as [|a [|b [|c rest]]]; discriminate.
  - split.
    + intros Hinvalid. split.
      * intros ->. discriminate Hinvalid.
      * intros (owner & repo & Hform). apply Hok in Hform. congruence.
    + intros [Hblank Hform]. apply String.eqb_neq in Hblank.
      destruct (parseRepo repoParam) as [[owner repo]|e] eqn:Hparse.
      * exfalso. apply Hform. exists owner, repo. apply Hok. reflexivity.
      * revert Hparse. unfold parseRepo. rewrite Hblank.
        destruct (Split repoParam "/") as [|a [|b [|c rest]]]; congruence.
Qed.

Lemma length_Split_one (c : ascii) (s : string) :
  (length (Split s c) <? 2)%nat = true <-> byteFree c s.
Proof.
  split.
  - intros Hlen. pose proof (Join_Split c s) as HJ.
    pose proof (Split_pieces_free c s) as HF.
    destruct (Split s c) as [|piece [|piece' pieces]] eqn:E;
      [exfalso; exact (Split_nonempty s c E)| |discriminate].
    cbn in HJ. subst piece. exact (Forall_inv HF).
  - intros Hfree. rewrite (Split_byteFree c s Hfree). reflexivity.
Qed.

(** X8. [getRepoOwnerAndNameFromURL] takes the last two pieces between
    slashes: a url that ends in [/owner/repo] gives [owner] and [repo],
    whatever comes before.  On a url without any slash the index
    [len(splitted)-2] is out of range, and only then. *)
Theorem getRepoOwnerAndNameFromURL_last_two :
  (forall url : string, getRepoOwnerAndNameFromURL url = None <-> byteFree "/" url)
  /\ (forall pre owner repo : string,
        byteFree "/" owner -> byteFree "/" repo ->
        getRepoOwnerAndNameFromURL (pre +:+ "/" +:+ owner +:+ "/" +:+ repo)
        = Some (owner, repo)).
Proof.
  split.
  - intros url. unfold getRepoOwnerAndNameFromURL.
    rewrite <- (length_Split_one "/" url).
    destruct (length (Split url "/") <? 2)%nat; split; congruence.
  - intros pre owner repo Howner Hrepo. unfold getRepoOwnerAndNameFromURL.
    change (pre +:+ "/" +:+ owner +:+ "/" +:+ repo)
      with (pre +:+ String "/" (owner +:+ String "/" repo)).
    rewrite (Split_append "/" pre), (Split_append "/" owner).
    rewrite (Split_byteFree "/" owner Howner), (Split_byteFree "/" repo Hrepo).
    cbn [app]. rewrite length_app. cbn [length].
    destruct (length (Split pre "/") + 2 <? 2)%nat eqn:Hlen;
      [apply Nat.ltb_lt in Hlen; lia|].
    replace (length (Split pre "/") + 2 - 2)%nat with (length (Split pre "/") + 0)%nat by lia.
    replace (length (Split pre "/") + 2 - 1)%nat with (length (Split pre "/") + 1)%nat by lia.
    rewrite !app_nth2_plus. reflexivity.
Qed.

(** ** The tokens of a command *)

Section Tokens.

Implicit Types (st : parseState) (r : rune) (rs : list rune).

Lemma parseStep_tokensNonEmpty st r :
  Forall (fun t => t <> EmptyString) (ps_split st) ->
  Forall (fun t => t <> EmptyString) (ps_split (parseStep st r)).
Proof.
  unfold parseStep. intros H.
  destruct (IsSpace r); [|exact H].
  destruct (ps_inQuotes st); [exact H|].
  destruct (String.length (ps_current st) =? 0)%nat eqn:Hlen; cbn [andb negb]; [exact H|].
  cbn [ps_split]. apply Forall_app. split; [exact H|].
  constructor; [|constructor]. intros Hempty. rewrite Hempty in Hlen. discriminate.
Qed.

Lemma parse_tokensNonEmpty rs st :
  Forall (fun t => t <> EmptyString) (ps_split st) ->
  Forall (fun t => t <> EmptyString) (ps_split (fold_left parseStep rs st)).
Proof.
  revert st. induction rs as [|r rs IH]; intros st H; [exact H|].
  apply IH, parseStep_tokensNonEmpty, H.
Qed.

Lemma parseTokens_nonempty (input : string) :
  Forall (fun t => t <> EmptyString) (parseTokens input).
Proof.
  unfold parseTokens.
  pose proof (parse_tokensNonEmpty (runes input) parseInit (List.Forall_nil _)) as H.
  destruct (0 <? String.length (ps_current (fold_left parseStep (runes input) parseInit)))%nat
    eqn:Hlen; [|exact H].
  apply Forall_app. split; [exact H|]. constructor; [|constructor].
  intros Hempty. rewrite Hempty in Hlen. discriminate.
Qed.

End Tokens.

(** X9. What [parseCommand] returns determines the tokens it read, and no
    token is empty: the command never is, no parameter is, and the action is
    empty only when the input has the command and nothing after it. *)
Theorem parseCommand_shape (input cmd action : string) (parameters : list string) :
  parseCommand input = Some (cmd, action, parameters) ->
  cmd <> EmptyString
  /\ Forall (fun parameter => parameter <> EmptyString) parameters
  /\ (action = EmptyString -> parameters = [] /\ parseTokens input = [cmd])
  /\ (action <> EmptyString -> parseTokens input = cmd :: action :: parameters).
Proof.
  unfold parseCommand. pose proof (parseTokens_nonempty input) as Hne.
  destruct (parseTokens input) as [|t0 [|t1 [|t2 rest]]]; [discriminate| | |];
    cbn; intros [= <- <- <-].
  - split; [exact (Forall_inv Hne)|]. split; [constructor|]. split; [auto|congruence].
  - split; [exact (Forall_inv Hne)|]. split; [constructor|].
    split; [|reflexivity]. intros Hempty. exfalso.
    exact (Forall_inv (Forall_inv_tail Hne) Hempty).
  - split; [exact (Forall_inv Hne)|].
    split; [exact (Forall_inv_tail (Forall_inv_tail Hne))|].
    split; [|reflexivity]. intros Hempty. exfalso.
    exact (Forall_inv (Forall_inv_tail Hne) Hempty).
Qed.

Lemma parseCommand_shape_witness :
  "/github" <> EmptyString
  /\ Forall (fun parameter => parameter <> EmptyString) ["add"; "acme/widgets"]
  /\ ("subscriptions" = EmptyString ->
      ["add"; "acme/widgets"] = [] /\ parseTokens "/github subscriptions add acme/widgets" =
          ["/github"])
  /\ ("subscriptions" <> EmptyString ->
      parseTokens "/github subscriptions add acme/widgets"
      = ["/github"; "subscriptions"; "add"; "acme/widgets"]).
Proof.
  apply (parseCommand_shape "/github subscriptions add acme/widgets").
  vm_compute. reflexivity.
Defined.

(** ** Parsing words that were joined by blanks *)

Section Words.

Lemma plainByte_rune (c : ascii) (rest : string) :
  plainByte c = true -> Ascii.eqb c dquote = false ->
  runes (String c rest) = byteZ c :: runes rest
  /\ IsSpace (byteZ c) = false
  /\ encodeRune (byteZ c) = String c EmptyString
  /\ (byteZ c =? 34)%Z = false.
Proof.
  destruct c as [[] [] [] [] [] [] [] []]; intros Hplain Hquote;
    try discriminate Hplain; try discriminate Hquote;
    repeat split; reflexivity.
Qed.

Lemma fold_word (w : string) :
  forall (inQuotes : bool) (split : list string) (current rest : string),
    wordShape inQuotes w = true ->
    fold_left parseStep (runes (w +:+ rest))
      {| ps_split := split; ps_current := current; ps_inQuotes := inQuotes |}
    = fold_left parseStep (runes rest)
        {| ps_split := split; ps_current := current +:+ w; ps_inQuotes := false |}.
Proof.
  induction w as [|c w IH]; intros inQuotes split current rest Hshape.
  - cbn [wordShape] in Hshape. apply negb_true_iff in Hshape as ->.
    rewrite append_empty_r. reflexivity.
  - change (String c w +:+ rest) with (String c (w +:+ rest)).
    replace (current +:+ String c w) with ((current +:+ String c EmptyString) +:+ w)
      by (rewrite append_assoc; reflexivity).
    cbn [wordShape] in Hshape.
    destruct (Ascii.eqb c dquote) eqn:Hquote.
    { apply Ascii.eqb_eq in Hquote as ->.
      change (runes (String dquote (w +:+ rest))) with (34%Z :: runes (w +:+ rest)).
      cbn [fold_left]. rewrite <- (IH (negb inQuotes) split _ rest Hshape).
      reflexivity. }
    destruct (Ascii.eqb c " ") eqn:Hblank.
    { apply Ascii.eqb_eq in Hblank as ->.
      apply andb_true_iff in Hshape as [-> Hshape].
      change (runes (String " " (w +:+ rest))) with (32%Z :: runes (w +:+ rest)).
      cbn [fold_left]. rewrite <- (IH true split _ rest Hshape). reflexivity. }
    apply andb_true_iff in Hshape as [Hplain Hshape].
    destruct (plainByte_rune c (w +:+ rest) Hplain Hquote) as (-> & Hspace & Hencode & Hnot34).
    cbn [fold_left]. rewrite <- (IH inQuotes split _ rest Hshape).
    unfold parseStep at 2. rewrite Hspace, Hencode, Hnot34. reflexivity.
Qed.

Lemma fold_word_alone (w : string) (inQuotes : bool) (split : list string) (current : string) :
  wordShape inQuotes w = true ->
  fold_left parseStep (runes w)
    {| ps_split := split; ps_current := current; ps_inQuotes := inQuotes |}
  = {| ps_split := split; ps_current := current +:+ w; ps_inQuotes := false |}.
Proof.
  intros Hshape. pose proof (fold_word w inQuotes split current EmptyString Hshape) as E.
  rewrite append_empty_r in E. exact E.
Qed.

Lemma fold_words (w : string) (ws : list string) :
  forall split : list string,
    Forall (fun w => isWord w = true) (w :: ws) ->
    let st := fold_left parseStep (runes (Join (w :: ws) " "))
                {| ps_split := split; ps_current := EmptyString; ps_inQuotes := false |} in
    (if (0 <? String.length (ps_current st))%nat
     then ps_split st ++ [ps_current st] else ps_split st)
    = split ++ w :: ws.
Proof.
  revert w. induction ws as [|w' ws IH]; intros w split Hwords.
  - apply Forall_inv in Hwords. unfold isWord in Hwords.
    apply andb_true_iff in Hwords as [Hne Hshape].
    cbn zeta. change (Join [w] " ") with w.
    rewrite (fold_word_alone w false split _ Hshape).
    cbn [ps_current ps_split].
    change (EmptyString +:+ w) with w.
    destruct w; [discriminate|reflexivity].
  - pose proof (Forall_inv Hwords) as Hw. apply Forall_inv_tail in Hwords.
    unfold isWord in Hw. apply andb_true_iff in Hw as [Hne Hshape].
    cbn zeta.
    change (Join (w :: w' :: ws) " ") with (w +:+ String " " (Join (w' :: ws) " ")).
    rewrite (fold_word w false split _ _ Hshape).
    change (EmptyString +:+ w) with w.
    change (runes (String " " (Join (w' :: ws) " "))) with (32%Z :: runes (Join (w' :: ws) " ")).
    cbn [fold_left]. destruct w as [|c w]; [discriminate|].
    assert (Hstep : parseStep {| ps_split := split; ps_current := String c w;
                                 ps_inQuotes := false |} 32%Z
                    = {| ps_split := split ++ [String c w]; ps_current := EmptyString;
                         ps_inQuotes := false |}) by reflexivity.
    rewrite Hstep.
    specialize (IH w' (split ++ [String c w]) Hwords). cbn zeta in IH. rewrite IH.
    rewrite <- app_assoc. reflexivity.
Qed.

End Words.

(** X10. Words joined by single blanks are parsed back into the same
    words: for every list of words of plain ASCII bytes, in which blanks
    stand only between double quotes and every quote is closed,
    [parseCommand] splits their join at the blanks outside quotes and gives
    the words back unchanged. *)
Theorem parseTokens_of_joined_words (words : list string) :
  Forall (fun w => isWord w = true) words ->
  parseTokens (Join words " ") = words.
Proof.
  intros Hwords. destruct words as [|w ws]; [reflexivity|].
  unfold parseTokens. exact (fold_words w ws [] Hwords).
Qed.

Lemma parseTokens_of_joined_words_witness :
  parseTokens (Join ["/github"; "subscribe"; "acme/widgets";
                     "issues," +:+ labelFeature "Help Wanted"] " ")
  = ["/github"; "subscribe"; "acme/widgets"; "issues," +:+ labelFeature "Help Wanted"].
Proof.
  apply parseTokens_of_joined_words.
  repeat constructor.
Defined.

(** ** The stored lists of subscriptions *)

Section StoredLists.

Implicit Types (l repoSubs : list Subscription) (sub s : Subscription) (channelID : string).







Lemma removeForChannel_None repoSubs channelID :
  removeForChannel repoSubs channelID = None
  <-> forall s, s ∈ repoSubs -> ChannelID s <> channelID.
Proof.
  induction repoSubs as [|s0 l IH]; cbn [removeForChannel].
  - split; [intros _ s Hin; inversion Hin|reflexivity].
  - destruct (String.eqb (ChannelID s0) channelID) eqn:E.
    + apply String.eqb_eq in E. split; [discriminate|].
      intros H. exfalso. apply (H s0); [left|exact E].
    + apply String.eqb_neq in E. destruct (removeForChannel l channelID) as [l'|] eqn:El; cbn.
      * split; [discriminate|]. intros H.
        assert (Some l' = None) as Habs; [|discriminate Habs].
        apply IH. intros s Hin. apply H. right. exact Hin.
      * split; [|reflexivity]. intros _ s Hin.
        apply elem_of_cons in Hin as [->|Hin]; [exact E|].
        destruct IH as [IH _]. exact (IH eq_refl s Hin).
Qed.


End StoredLists.


(** ** Writing the stored subscriptions *)

Section StoreWrites.

Implicit Types (p : Plugin) (st : State) (sub : Subscription).




End StoreWrites.







(** ** Subscribing *)

Section Subscribing.

Implicit Types (p : Plugin) (st : State).






End Subscribing.




(** ** Reading the stored subscriptions back *)

Section ReadingBack.

Implicit Types (p : Plugin) (st : State) (s sub : Subscription).


End ReadingBack.




(** ** Which subscriptions an event reaches *)

Lemma lower_byte_slash (c : ascii) :
  Ascii.eqb c "/" = false -> Ascii.eqb (lower_byte c) "/" = false.
Proof. destruct c as [[] [] [] [] [] [] [] []]; intros H; try discriminate H; reflexivity. Qed.

Lemma lowerASCII_slashFree (a : string) : byteFree "/" a -> byteFree "/" (lowerASCII a).
Proof.
  unfold byteFree. induction a as [|c a IH]; [reflexivity|]. cbn [lowerASCII ContainsByte].
  intros [Hc Ha]%orb_false_iff. rewrite (lower_byte_slash c Hc), (IH Ha). reflexivity.
Qed.

(** X15. [GetSubscribedChannelsForRepository] hands an event of a repository
    to exactly the subscriptions stored under the lower-cased full name of
    the repository or under the key of its organization, except those that
    exclude the repository and, when the repository is private, those
    whose creator may not read it.  For a full name in ASCII the
    organization is the lower-cased text before the first slash of the
    full name.  When the store cannot be read, the event reaches no
    subscription. *)
Theorem event_reaches_exactly (p : Plugin) (permissionToRepo : string -> string -> bool)
    (repo : GithubRepository) (st : State) :
  let name := ToLower (unicode_LowerCase p) (GetFullName repo) in
  let orgKey := fullNameFromOwnerAndRepo p (hd EmptyString (Split name "/")) EmptyString in
  (store_Get_error p SubscriptionsKey = None ->
   exists subs : list Subscription,
     GetSubscribedChannelsForRepository p permissionToRepo repo st = (Returned subs, st)
     /\ forall s : Subscription,
          s ∈ subs
          <-> (s ∈ storedUnder st name \/ s ∈ storedUnder st orgKey)
              /\ (repo_GetPrivate repo = true -> permissionToRepo (CreatorID s) name = true)
              /\ excludedRepoForSub s (GetFullName repo) = false)
  /\ (store_Get_error p SubscriptionsKey <> None ->
      GetSubscribedChannelsForRepository p permissionToRepo repo st = (Returned [], st))
  /\ (forall owner rest : string,
        GetFullName repo = owner +:+ "/" +:+ rest -> byteFree "/" owner ->
        isASCII (GetFullName repo) = true ->
        hd EmptyString (Split name "/") = lowerASCII owner
        /\ ToLower (unicode_LowerCase p) owner = lowerASCII owner).
Proof.
  intros name orgKey. split; [|split].
  - intros Hget. unfold GetSubscribedChannelsForRepository, bind. fold name. fold orgKey.
    rewrite (GetSubscriptions_ok p st Hget). eexists. split; [reflexivity|].
    intros s. rewrite list_elem_of_In, List.filter_In, <- list_elem_of_In, elem_of_app.
    fold (storedUnder st name). fold (storedUnder st orgKey).
    rewrite andb_true_iff, !negb_true_iff.
    destruct (repo_GetPrivate repo); cbn [andb].
    + rewrite negb_false_iff. intuition.
    + intuition discriminate.
  - intros Hget. unfold GetSubscribedChannelsForRepository, bind, GetSubscriptions.
    destruct (store_Get_error p SubscriptionsKey); [reflexivity|congruence].
  - intros owner rest Hname Hfree Hascii. unfold name.
    rewrite (ToLower_ASCII _ _ Hascii). rewrite Hname in *.
    change (owner +:+ "/" +:+ rest) with (owner +:+ String "/" rest) in *.
    rewrite isASCII_append in Hascii. apply andb_true_iff in Hascii as [Howner _].
    rewrite (ToLower_ASCII _ owner Howner), lowerASCII_append.
    change (lowerASCII (String "/" rest)) with (String "/" (lowerASCII rest)).
    rewrite Split_append, (Split_byteFree "/" (lowerASCII owner))
      by (apply lowerASCII_slashFree, Hfree).
    split; reflexivity.
Qed.

(** ** Unsubscribing what is not subscribed *)

Lemma Unsubscribe_nothing (p : Plugin) (channelID repo owner : string) (st : State) :
  store_Get_error p SubscriptionsKey = None ->
  (forall s : Subscription,
     s ∈ storedUnder st (owner +:+ "/" +:+ repo) -> ChannelID s <> channelID) ->
  Unsubscribe p channelID repo owner st = (Returned None, st).
Proof.
  intros Hget Hnone. unfold Unsubscribe, bind. rewrite (GetSubscriptions_ok p st Hget).
  unfold storedUnder in Hnone.
  destruct (Repositories (storedSubscriptions st) !! (owner +:+ "/" +:+ repo)) as [old|];
    [|reflexivity].
  cbn [default from_option] in Hnone.
  rewrite (proj2 (removeForChannel_None old channelID) Hnone). reflexivity.
Qed.

(** X16. [handleUnsubscribe] announces an unsubscription even when there was
    nothing to unsubscribe.  If the channel has no subscription under the
    lower-cased [owner/repo], the store can be read and the user is known,
    the handler writes nothing, and still creates the public post telling
    that the user unsubscribed the channel; its answer is empty. *)
Theorem handleUnsubscribe_confirms_anyway (p : Plugin) (args : CommandArgs)
    (raw : string) (rest : list string) (owner repo : string) (user : User) (st : State) :
  parseOwnerAndRepo p raw (getBaseURL (configuration p)) = (owner, repo) ->
  (owner <> EmptyString \/ repo <> EmptyString) ->
  store_Get_error p SubscriptionsKey = None ->
  client_User_Get p (args_UserId args) = Ok user ->
  (forall post : Post, client_Post_CreatePost_error p post = None) ->
  (forall s : Subscription,
     s ∈ storedUnder st (ToLower (unicode_LowerCase p) owner +:+ "/" +:+ ToLower
         (unicode_LowerCase p) repo) ->
     ChannelID s <> args_ChannelId args) ->
  let baseURL := getBaseURL (configuration p) in
  let message :=
    if String.eqb (ToLower (unicode_LowerCase p) repo) EmptyString then
      "@" +:+ Username user +:+ " unsubscribed this channel from [" +:+ ToLower
          (unicode_LowerCase p) owner
      +:+ "](" +:+ (baseURL +:+ ToLower (unicode_LowerCase p) owner) +:+ ")"
    else
      "@" +:+ Username user +:+ " Unsubscribed this channel from [" +:+ ToLower
          (unicode_LowerCase p) owner
      +:+ "/" +:+ ToLower (unicode_LowerCase p) repo +:+ "](" +:+ (baseURL +:+ ToLower
          (unicode_LowerCase p) owner +:+ "/" +:+ ToLower (unicode_LowerCase p) repo)
      +:+ ")" +:+ nl +:+ " Please delete the [webhook]("
      +:+ (baseURL +:+ ToLower (unicode_LowerCase p) owner +:+ "/" +:+ ToLower (unicode_LowerCase
          p) repo)
      +:+ "/settings/hooks) for this subscription unless it's required for other subscriptions." in
  handleUnsubscribe p args (raw :: rest) st
  = (Returned EmptyString,
     {| st_subscriptions := st_subscriptions st;
        st_bytes := st_bytes st;
        st_effects :=
          st_effects st
          ++ [EffCreatePost {| post_UserId := BotUserID p;
                               post_ChannelId := args_ChannelId args;
                               post_RootId := EmptyString;
                               post_Message := message;
                               post_Type := EmptyString |}] |}).
Proof.
  intros Hparse Hnonempty Hget Huser Hpost Hnone baseURL message.
  unfold handleUnsubscribe. rewrite Hparse.
  assert (String.eqb owner EmptyString && String.eqb repo EmptyString = false) as ->.
  { destruct Hnonempty as [H|H]; apply String.eqb_neq in H; rewrite H;
      [reflexivity|apply andb_false_r]. }
  unfold bind at 1.
  rewrite (Unsubscribe_nothing p (args_ChannelId args) (ToLower (unicode_LowerCase p) repo)
      (ToLower (unicode_LowerCase p) owner) st
             Hget Hnone).
  rewrite Huser. fold baseURL. subst message.
  destruct (String.eqb (ToLower (unicode_LowerCase p) repo) EmptyString);
    unfold bind, createPost; rewrite Hpost; reflexivity.
Qed.

Lemma handleUnsubscribe_confirms_anyway_witness :
  handleUnsubscribe samplePlugin sampleArgs ["Acme/Widgets"] emptyState
  = (Returned EmptyString,
     {| st_subscriptions := None;
        st_bytes := ∅;
        st_effects :=
          [EffCreatePost
             {| post_UserId := "bot"; post_ChannelId := "channel3";
                post_RootId := EmptyString;
                post_Message :=
                  "@user1 Unsubscribed this channel from [acme/widgets](https://github.com/acme/widgets)"
                  +:+ nl +:+ " Please delete the [webhook](https://github.com/acme/widgets/settings/hooks) for this subscription unless it's required for other subscriptions.";
                post_Type := EmptyString |}] |}).
Proof.
  apply (handleUnsubscribe_confirms_anyway samplePlugin sampleArgs "Acme/Widgets" []
           "Acme" "Widgets" {| Username := "user1"; Roles := "system_user"; Props_git_user :=
               true |} emptyState);
    try reflexivity.
  - left. discriminate.
  - intros s Hin. inversion Hin.
Defined.

(** ** The byte records of the store *)

Section ByteRecords.

Implicit Types (p : Plugin) (st : State) (key value : string).

Lemma store_Get_bytes_ok p key st :
  store_Get_error p key = None ->
  store_Get_bytes p key st = (Returned (Ok (default EmptyString (st_bytes st !! key))), st).
Proof. intros H. unfold store_Get_bytes. rewrite H. reflexivity. Qed.

Lemma store_Set_bytes_ok p key value st :
  store_Set_error p key = None ->
  store_Set_bytes p key value st
  = (Returned None,
     {| st_subscriptions := st_subscriptions st;
        st_bytes := <[key := value]> (st_bytes st);
        st_effects := st_effects st |}).
Proof. intros H. unfold store_Set_bytes. rewrite H. reflexivity. Qed.

Lemma store_Delete_ok p key st :
  store_Delete_error p key = None ->
  store_Delete p key st
  = (Returned None,
     {| st_subscriptions := st_subscriptions st;
        st_bytes := delete key (st_bytes st);
        st_effects := st_effects st |}).
Proof. intros H. unfold store_Delete. rewrite H. reflexivity. Qed.

Lemma append_inj_l (a x y : string) : a +:+ x = a +:+ y -> x = y.
Proof.
  induction a as [|c a IH]; [auto|]. intros H.
  change (String c (a +:+ x) = String c (a +:+ y)) in H. injection H as H. exact (IH H).
Qed.

Lemma append_snoc_inj (a b : string) (c d : ascii) :
  a +:+ String c EmptyString = b +:+ String d EmptyString -> a = b /\ c = d.
Proof.
  revert b. induction a as [|e a IH]; intros [|f b] H.
  - injection H as ->. auto.
  - change (String c EmptyString = String f (b +:+ String d EmptyString)) in H.
    injection H as _ H. destruct b; discriminate.
  - change (String e (a +:+ String c EmptyString) = String d EmptyString) in H.
    injection H as _ H. destruct a; discriminate.
  - change (String e (a +:+ String c EmptyString) = String f (b +:+ String d EmptyString)) in H.
    injection H as -> H. destruct (IH b H) as [-> ->]. auto.
Qed.

Lemma append_inj_r (a b x : string) : a +:+ x = b +:+ x -> a = b.
Proof.
  revert a b. induction x as [|c x IH]; intros a b H.
  - rewrite !append_empty_r in H. exact H.
  - change (String c x) with (String c EmptyString +:+ x) in H.
    rewrite <- !append_assoc in H. apply IH in H.
    apply append_snoc_inj in H as [H _]. exact H.
Qed.

End ByteRecords.

(** X17. The default repository of a channel and user pair is kept under a
    key of its own as long as channel identifiers have no underscore: two
    pairs with the same key are the same pair.  With an underscore in a
    channel identifier two different pairs can share a key. *)
Theorem DefaultRepoKey_injective (channel1 user1 channel2 user2 : string) :
  byteFree "_" channel1 -> byteFree "_" channel2 ->
  (DefaultRepoKey channel1 user1 = DefaultRepoKey channel2 user2 ->
   channel1 = channel2 /\ user1 = user2)
  /\ DefaultRepoKey "a_b" "c" = DefaultRepoKey "a" "b_c".
Proof.
  intros Hfree1 Hfree2. split; [|reflexivity].
  unfold DefaultRepoKey. intros Heq.
  change (channel1 +:+ String "_" (user1 +:+ "-default-repo")
          = channel2 +:+ String "_" (user2 +:+ "-default-repo")) in Heq.
  assert (Hsplit : Split (channel1 +:+ String "_" (user1 +:+ "-default-repo")) "_"
                   = Split (channel2 +:+ String "_" (user2 +:+ "-default-repo")) "_")
    by (rewrite Heq; reflexivity).
  rewrite !Split_append, (Split_byteFree "_" channel1 Hfree1),
    (Split_byteFree "_" channel2 Hfree2) in Hsplit.
  injection Hsplit as -> _. split; [reflexivity|].
  apply append_inj_l in Heq. injection Heq as Heq. exact (append_inj_r _ _ _ Heq).
Qed.

Lemma DefaultRepoKey_injective_witness :
  (DefaultRepoKey "channel3" "user1" = DefaultRepoKey "channel3" "user1" ->
   "channel3" = "channel3" /\ "user1" = "user1")
  /\ DefaultRepoKey "a_b" "c" = DefaultRepoKey "a" "b_c".
Proof.
  apply (DefaultRepoKey_injective "channel3" "user1" "channel3" "user1"); reflexivity.
Defined.

(** X18. The four kinds of byte record never share a key, whatever the
    identifiers are: the muted users of a user, the default repository of a
    channel and user, the daily summary of a user and the user of a GitHub
    name end in different bytes.  Within the muted users, the daily
    summaries and the GitHub names, different identifiers have different
    keys. *)
Theorem record_keys_apart (userInfo userInfo' : GitHubUserInfo)
    (channelID userID summaryUser githubUsername other : string) :
  (mutedUsersKey userInfo <> DefaultRepoKey channelID userID
   /\ mutedUsersKey userInfo <> summaryUser +:+ dailySummary
   /\ mutedUsersKey userInfo <> githubUsername +:+ githubUsernameKey
   /\ DefaultRepoKey channelID userID <> summaryUser +:+ dailySummary
   /\ DefaultRepoKey channelID userID <> githubUsername +:+ githubUsernameKey
   /\ summaryUser +:+ dailySummary <> githubUsername +:+ githubUsernameKey)
  /\ (mutedUsersKey userInfo = mutedUsersKey userInfo' -> UserID userInfo = UserID userInfo')
  /\ (summaryUser +:+ dailySummary = other +:+ dailySummary -> summaryUser = other)
  /\ (githubUsername +:+ githubUsernameKey = other +:+ githubUsernameKey ->
      githubUsername = other).
Proof.
  assert (Hlast : forall (a b x y : string) (c d : ascii),
             c <> d -> a +:+ (x +:+ String c EmptyString) <> b +:+ (y +:+ String d EmptyString)).
  { intros a b x y c d Hne H. rewrite <- !append_assoc in H.
    apply append_snoc_inj in H as [_ H]. contradiction. }
  unfold mutedUsersKey, DefaultRepoKey, dailySummary, githubUsernameKey.
  split; [|split; [|split]].
  - repeat split.
    + rewrite <- (append_assoc channelID), <- (append_assoc (channelID +:+ "_")).
      apply (Hlast _ _ "-muted-user" "-default-rep" "s"%char "o"%char). discriminate.
    + apply (Hlast _ _ "-muted-user" "_dailySummar" "s"%char "y"%char). discriminate.
    + apply (Hlast _ _ "-muted-user" "_githubusernam" "s"%char "e"%char). discriminate.
    + rewrite <- (append_assoc channelID), <- (append_assoc (channelID +:+ "_")).
      apply (Hlast _ _ "-default-rep" "_dailySummar" "o"%char "y"%char). discriminate.
    + rewrite <- (append_assoc channelID), <- (append_assoc (channelID +:+ "_")).
      apply (Hlast _ _ "-default-rep" "_githubusernam" "o"%char "e"%char). discriminate.
    + apply (Hlast _ _ "_dailySummar" "_githubusernam" "y"%char "e"%char). discriminate.
  - apply append_inj_r.
  - apply append_inj_r.
  - apply append_inj_r.
Qed.


(** ** Unmuting *)

Section Unmuting.

Implicit Types (p : Plugin) (st : State) (userInfo : GitHubUserInfo).

Lemma arrayDifference_one (a : list string) (username : string) :
  arrayDifference a [username] = List.filter (fun x => negb (String.eqb x username)) a.
Proof.
  unfold arrayDifference. apply List.filter_ext. intros x. cbn [existsb].
  rewrite orb_false_r. reflexivity.
Qed.

Lemma arrayDifference_elem (a : list string) (username name : string) :
  name ∈ arrayDifference a [username] <-> name ∈ a /\ name <> username.
Proof.
  rewrite arrayDifference_one, !list_elem_of_In, List.filter_In, negb_true_iff,
    String.eqb_neq. reflexivity.
Qed.

(** What is read back from the join of a list of names. *)
Lemma names_read_back (names : list string) :
  Forall commaFree names ->
  let stored := Join names "," in
  let back := if (String.length stored =? 0)%nat then [] else Split stored "," in
  (forall name, name ∈ back -> name ∈ names)
  /\ (forall name, name ∈ names -> name <> EmptyString -> name ∈ back).
Proof.
  intros Hfree stored back. subst stored back.
  destruct (decide (names = [EmptyString])) as [->|Hne].
  - cbn. split; [intros name Hin; inversion Hin|].
    intros name Hin%list_elem_of_singleton Hname. contradiction.
  - rewrite (stored_names_read names Hfree Hne). auto.
Qed.

End Unmuting.

(** X19. After [handleUnmute] the user is not muted any more.  When the
    record can be read and written, [handleUnmute] answers that the user is
    no longer muted, whether or not the user was muted; the names read back
    afterwards do not include the user, every one of them was muted before,
    and every other name that was muted before, except the empty name, still
    is.  Nothing but the record of muted users is changed. *)
Theorem handleUnmute_removes (p : Plugin) (username : string) (userInfo : GitHubUserInfo)
    (st : State) :
  store_Get_error p (mutedUsersKey userInfo) = None ->
  store_Set_error p (mutedUsersKey userInfo) = None ->
  exists (st' : State) (before after : list string),
    getMutedUsernames p userInfo st = (Returned (Ok before), st)
    /\ handleUnmute p username userInfo st
       = (Returned ("`" +:+ username +:+ "`" +:+ " is no longer muted"), st')
    /\ getMutedUsernames p userInfo st' = (Returned (Ok after), st')
    /\ (username ∉ after)
    /\ (forall name : string, name ∈ after -> name ∈ before)
    /\ (forall name : string,
          name ∈ before -> name <> username -> name <> EmptyString -> name ∈ after)
    /\ st_subscriptions st' = st_subscriptions st
    /\ st_effects st' = st_effects st
    /\ (forall key : string, key <> mutedUsersKey userInfo ->
          st_bytes st' !! key = st_bytes st !! key).
Proof.
  intros Hget Hset.
  pose proof (getMutedUsernames_ok p userInfo st Hget) as Hbefore. cbn zeta in Hbefore.
  set (before := if (String.length (default EmptyString (st_bytes st !! mutedUsersKey userInfo))
                     =? 0)%nat
                 then [] else Split (default EmptyString (st_bytes st !! mutedUsersKey userInfo))
                     ",")
    in Hbefore.
  assert (Hfree : Forall commaFree before).
  { apply (getMutedUsernames_commaFree p userInfo st). rewrite Hbefore. reflexivity. }
  assert (Hfree' : Forall commaFree (arrayDifference before [username])).
  { apply List.Forall_forall. intros name Hin.
    rewrite <- list_elem_of_In in Hin. apply arrayDifference_elem in Hin as [Hin _].
    rewrite List.Forall_forall in Hfree. apply Hfree. rewrite <- list_elem_of_In. exact Hin. }
  eexists. exists before. eexists.
  split; [exact Hbefore|]. split.
  { unfold handleUnmute, bind. rewrite Hbefore.
    rewrite (store_Set_bytes_ok p _ _ st Hset). reflexivity. }
  split.
  { rewrite getMutedUsernames_ok by exact Hget. cbn [st_bytes].
    rewrite lookup_insert_eq. cbn [default from_option]. reflexivity. }
  destruct (names_read_back (arrayDifference before [username]) Hfree') as [Hback Hkept].
  cbn zeta in Hback, Hkept.
  split.
  { intros Hin. apply Hback, arrayDifference_elem in Hin as [_ Hne]. congruence. }
  split.
  { intros name Hin. apply Hback, arrayDifference_elem in Hin as [Hin _]. exact Hin. }
  split.
  { intros name Hin Hne Hname. apply Hkept; [|exact Hname].
    apply arrayDifference_elem. auto. }
  split; [reflexivity|]. split; [reflexivity|].
  intros key Hkey. cbn [st_bytes]. apply lookup_insert_ne. congruence.
Qed.

Lemma handleUnmute_removes_witness :
  exists (st' : State) (before after : list string),
    getMutedUsernames samplePlugin sampleUserInfo
      {| st_subscriptions := None;
         st_bytes := {[ "user1-muted-users" := "alice,bob,carol" ]};
         st_effects := [] |}
    = (Returned (Ok before),
       {| st_subscriptions := None;
          st_bytes := {[ "user1-muted-users" := "alice,bob,carol" ]};
          st_effects := [] |})
    /\ handleUnmute samplePlugin "bob" sampleUserInfo
         {| st_subscriptions := None;
            st_bytes := {[ "user1-muted-users" := "alice,bob,carol" ]};
            st_effects := [] |}
       = (Returned ("`" +:+ "bob" +:+ "`" +:+ " is no longer muted"), st')
    /\ getMutedUsernames samplePlugin sampleUserInfo st' = (Returned (Ok after), st')
    /\ ("bob" ∉ after).
Proof.
  destruct (handleUnmute_removes samplePlugin "bob" sampleUserInfo
              {| st_subscriptions := None;
                 st_bytes := {[ "user1-muted-users" := "alice,bob,carol" ]};
                 st_effects := [] |} eq_refl eq_refl)
    as (st' & before & after & H1 & H2 & H3 & H4 & _).
  exists st', before, after. auto.
Defined.

(** X20. [handleUnmuteAll] empties the list of muted users: when the record
    can be written and read, no name is read back afterwards and
    [handleMuteList] answers that there are no muted users, whatever was
    stored before. *)
Theorem handleUnmuteAll_clears (p : Plugin) (userInfo : GitHubUserInfo) (st : State) :
  store_Set_error p (mutedUsersKey userInfo) = None ->
  store_Get_error p (mutedUsersKey userInfo) = None ->
  exists st' : State,
    handleUnmuteAll p userInfo st = (Returned "Unmuted all users", st')
    /\ getMutedUsernames p userInfo st' = (Returned (Ok []), st')
    /\ handleMuteList p userInfo st' = (Returned "You have no muted users", st')
    /\ st_subscriptions st' = st_subscriptions st
    /\ st_effects st' = st_effects st
    /\ (forall key : string, key <> mutedUsersKey userInfo ->
          st_bytes st' !! key = st_bytes st !! key).
Proof.
  intros Hset Hget. eexists. split.
  { unfold handleUnmuteAll, bind. rewrite (store_Set_bytes_ok p _ _ st Hset). reflexivity. }
  assert (Hread : forall st0 : State,
             st_bytes st0 !! mutedUsersKey userInfo = Some EmptyString ->
             getMutedUsernames p userInfo st0 = (Returned (Ok []), st0)).
  { intros st0 Hstored. rewrite getMutedUsernames_ok by exact Hget.
    rewrite Hstored. reflexivity. }
  split; [apply Hread; cbn [st_bytes]; apply lookup_insert_eq|].
  split.
  { unfold handleMuteList, bind. rewrite Hread by (cbn [st_bytes]; apply lookup_insert_eq).
    reflexivity. }
  split; [reflexivity|]. split; [reflexivity|].
  intros key Hkey. cbn [st_bytes]. apply lookup_insert_ne. congruence.
Qed.

Lemma handleUnmuteAll_clears_witness :
  exists st' : State,
    handleUnmuteAll samplePlugin sampleUserInfo
      {| st_subscriptions := None;
         st_bytes := {[ "user1-muted-users" := "alice,bob,carol" ]};
         st_effects := [] |}
    = (Returned "Unmuted all users", st')
    /\ getMutedUsernames samplePlugin sampleUserInfo st' = (Returned (Ok []), st')
    /\ handleMuteList samplePlugin sampleUserInfo st'
       = (Returned "You have no muted users", st').
Proof.
  destruct (handleUnmuteAll_clears samplePlugin sampleUserInfo
              {| st_subscriptions := None;
                 st_bytes := {[ "user1-muted-users" := "alice,bob,carol" ]};
                 st_effects := [] |} eq_refl eq_refl)
    as (st' & H1 & H2 & H3 & _).
  exists st'. auto.
Defined.


(** ** The default repository of a channel *)

(** X21. The default repository can be set, read and unset again.  For a
    parameter that parses to a non-empty [owner] and [repo] of a repository
    GitHub knows, on a plugin that is not locked to another organization,
    that can make a GitHub client and whose store works:
    [handleSetDefaultRepo] succeeds; then
    [handleGetDefaultRepo] shows the lower-cased [owner/repo] with its link;
    then [handleUnSetDefaultRepo] succeeds; and after that both
    [handleGetDefaultRepo] and a second [handleUnSetDefaultRepo] answer that
    no default repository is set. *)
Theorem default_repo_round_trip (p : Plugin) (args : CommandArgs) (raw : string)
    (rest : list string) (userInfo : GitHubUserInfo) (owner repo : string)
    (ghRepo : GhRepository) (st : State) :
  parseOwnerAndRepo p raw (getBaseURL (configuration p)) = (owner, repo) ->
  owner <> EmptyString -> repo <> EmptyString ->
  (GitHubOrg (configuration p) = EmptyString
   \/ ToLower (unicode_LowerCase p) (GitHubOrg (configuration p))
      = ToLower (unicode_LowerCase p) owner) ->
  GetGitHubClient_error p = None ->
  Repositories_Get p (ToLower (unicode_LowerCase p) owner)
    (ToLower (unicode_LowerCase p) repo) = (Some ghRepo, None) ->
  store_Set_error p (DefaultRepoKey (args_ChannelId args) (UserID userInfo)) = None ->
  store_Get_error p (DefaultRepoKey (args_ChannelId args) (UserID userInfo)) = None ->
  store_Delete_error p (DefaultRepoKey (args_ChannelId args) (UserID userInfo)) = None ->
  let lower := ToLower (unicode_LowerCase p) in
  let name := lower owner +:+ "/" +:+ lower repo in
  let baseURL := getBaseURL (configuration p) in
  let notSet := "You have not set a default repository for this channel" in
  exists st1 st2 : State,
    handleSetDefaultRepo p args (raw :: rest) userInfo st
    = (Returned ("The default repo has been set to [" +:+ lower owner +:+ "/"
                 +:+ lower repo +:+ "]("
                 +:+ (baseURL +:+ lower owner +:+ "/" +:+ lower repo)
                 +:+ ") for this channel"), st1)
    /\ st_bytes st1
       = <[DefaultRepoKey (args_ChannelId args) (UserID userInfo) := name]> (st_bytes st)
    /\ handleGetDefaultRepo p args userInfo st1
       = (Returned ("The default repository is [" +:+ name +:+ "](" +:+ (baseURL +:+ name)
                    +:+ ")"), st1)
    /\ handleUnSetDefaultRepo p args userInfo st1
       = (Returned "The default repository has been unset successfully", st2)
    /\ handleGetDefaultRepo p args userInfo st2 = (Returned notSet, st2)
    /\ handleUnSetDefaultRepo p args userInfo st2 = (Returned notSet, st2).
Proof.
  intros Hparse Howner Hrepo Horg Hclient Hgh Hset Hget Hdelete lower name baseURL notSet.
  subst lower.
  set (key := DefaultRepoKey (args_ChannelId args) (UserID userInfo)) in *.
  assert (Hname : String.eqb name EmptyString = false).
  { apply String.eqb_neq. unfold name.
    destruct (ToLower (unicode_LowerCase p) owner); discriminate. }
  eexists. eexists. split.
  { unfold handleSetDefaultRepo. rewrite Hparse.
    apply String.eqb_neq in Howner, Hrepo. rewrite Howner, Hrepo. cbn [orb].
    assert (negb (String.eqb (GitHubOrg (configuration p)) EmptyString)
            && negb (String.eqb (ToLower (unicode_LowerCase p) (GitHubOrg (configuration p)))
                       (ToLower (unicode_LowerCase p) owner))
            = false) as ->.
    { destruct Horg as [->| ->]; [reflexivity|]. rewrite String.eqb_refl. apply andb_false_r. }
    unfold githubConnectUser. rewrite Hclient. unfold bind at 1. cbn [ret negb].
    rewrite Hgh. unfold bind. fold key. rewrite (store_Set_bytes_ok p key _ st Hset).
    reflexivity. }
  split; [reflexivity|].
  assert (Hread1 : forall st0 : State,
             st_bytes st0 !! key = Some name ->
             GetDefaultRepo p (UserID userInfo) (args_ChannelId args) st0
             = (Returned (Ok name), st0)).
  { intros st0 Hstored. unfold GetDefaultRepo. fold key.
    rewrite (store_Get_bytes_ok p key st0 Hget), Hstored. reflexivity. }
  assert (Hread2 : forall st0 : State,
             st_bytes st0 !! key = None ->
             GetDefaultRepo p (UserID userInfo) (args_ChannelId args) st0
             = (Returned (Ok EmptyString), st0)).
  { intros st0 Hstored. unfold GetDefaultRepo. fold key.
    rewrite (store_Get_bytes_ok p key st0 Hget), Hstored. reflexivity. }
  split.
  { unfold handleGetDefaultRepo, bind.
    rewrite Hread1 by (cbn [st_bytes]; apply lookup_insert_eq).
    rewrite Hname. reflexivity. }
  split.
  { unfold handleUnSetDefaultRepo, bind.
    rewrite Hread1 by (cbn [st_bytes]; apply lookup_insert_eq).
    rewrite Hname. fold key. rewrite (store_Delete_ok p key _ Hdelete). reflexivity. }
  split.
  { unfold handleGetDefaultRepo, bind.
    rewrite Hread2 by (cbn [st_bytes]; apply lookup_delete_eq). reflexivity. }
  unfold handleUnSetDefaultRepo, bind.
  rewrite Hread2 by (cbn [st_bytes]; apply lookup_delete_eq). reflexivity.
Qed.

Lemma default_repo_round_trip_witness :
  exists st1 st2 : State,
    handleSetDefaultRepo samplePlugin sampleArgs ["Acme/Widgets"] sampleUserInfo emptyState
    = (Returned "The default repo has been set to [acme/widgets](https://github.com/acme/widgets) for this channel",
       st1)
    /\ handleGetDefaultRepo samplePlugin sampleArgs sampleUserInfo st1
       = (Returned "The default repository is [acme/widgets](https://github.com/acme/widgets)",
          st1)
    /\ handleUnSetDefaultRepo samplePlugin sampleArgs sampleUserInfo st1
       = (Returned "The default repository has been unset successfully", st2)
    /\ handleGetDefaultRepo samplePlugin sampleArgs sampleUserInfo st2
       = (Returned "You have not set a default repository for this channel", st2)
    /\ handleUnSetDefaultRepo samplePlugin sampleArgs sampleUserInfo st2
       = (Returned "You have not set a default repository for this channel", st2).
Proof.
  destruct (default_repo_round_trip samplePlugin sampleArgs "Acme/Widgets" [] sampleUserInfo
              "Acme" "Widgets" {| GetPrivate := false |} emptyState)
    as (st1 & st2 & Hset & _ & Hrest);
    try reflexivity; try discriminate; [left; reflexivity|].
  exists st1, st2. split; [exact Hset|exact Hrest].
Defined.


(** ** Daily reminders *)

(** X22. With reminders on change, [PostToDo] sends the to-do text only when
    it differs from the summary stored for the user.  If [GetToDo] returns
    the stored text (an absent record counts as the empty text), [PostToDo]
    returns no error and does nothing after [GetToDo]: no message is sent
    and nothing is written.  Otherwise it stores the new text as the
    summary and then sends it to the user of [info] as a
    [custom_git_todo] message, so that the same text is not sent again. *)
Theorem PostToDo_only_on_change (p : Plugin) (GetToDo : M (res string))
    (CreateBotDMPost : string -> string -> string -> M unit)
    (info : GitHubUserInfo) (settings : UserSettings) (userID text : string)
    (st st1 : State) :
  DailyReminderOnChange settings = true ->
  store_Get_error p (userID +:+ dailySummary) = None ->
  store_Set_error p (userID +:+ dailySummary) = None ->
  GetToDo st = (Returned (Ok text), st1) ->
  let stored := default EmptyString (st_bytes st1 !! (userID +:+ dailySummary)) in
  let written :=
    {| st_subscriptions := st_subscriptions st1;
       st_bytes := <[userID +:+ dailySummary := text]> (st_bytes st1);
       st_effects := st_effects st1 |} in
  (stored = text ->
   PostToDo p GetToDo CreateBotDMPost info settings userID st = (Returned None, st1))
  /\ (stored <> text ->
      PostToDo p GetToDo CreateBotDMPost info settings userID st
      = (run CreateBotDMPost (UserID info) text "custom_git_todo"; ret None) written
      /\ CheckIfDuplicateDailySummary p userID text written = (Returned (Ok true), written)).
Proof.
  intros Hchange Hget Hset Htodo stored written.
  assert (Hcheck : forall st0 : State,
             CheckIfDuplicateDailySummary p userID text st0
             = (Returned (Ok (String.eqb (default EmptyString
                                            (st_bytes st0 !! (userID +:+ dailySummary)))
                                text)), st0)).
  { intros st0. unfold CheckIfDuplicateDailySummary, GetDailySummaryText, bind.
    rewrite (store_Get_bytes_ok p _ st0 Hget). reflexivity. }
  split.
  - intros Hsame. unfold PostToDo. unfold bind at 1. rewrite Htodo, Hchange.
    unfold bind. rewrite Hcheck. fold stored. rewrite Hsame, String.eqb_refl. reflexivity.
  - intros Hdiff. split.
    + unfold PostToDo. unfold bind at 1. rewrite Htodo, Hchange.
      unfold bind at 1. unfold bind at 1. rewrite Hcheck. fold stored.
      apply String.eqb_neq in Hdiff. rewrite Hdiff.
      unfold bind at 1. unfold StoreDailySummaryText.
      rewrite (store_Set_bytes_ok p _ _ st1 Hset). reflexivity.
    + rewrite Hcheck. unfold written. cbn [st_bytes]. rewrite lookup_insert_eq.
      cbn [default from_option]. rewrite String.eqb_refl. reflexivity.
Qed.

Lemma PostToDo_only_on_change_witness :
  PostToDo samplePlugin (ret (Ok "##### Unread Messages"))
    (fun userID message postType =>
       emit (EffCreatePost {| post_UserId := "bot"; post_ChannelId := userID;
                              post_RootId := EmptyString; post_Message := message;
                              post_Type := postType |}))
    sampleUserInfo
    {| SidebarButtons := EmptyString; DailyReminder := true;
       DailyReminderOnChange := true; Notifications := true |}
    "user1"
    {| st_subscriptions := None;
       st_bytes := {[ "user1_dailySummary" := "##### Unread Messages" ]};
       st_effects := [] |}
  = (Returned None,
     {| st_subscriptions := None;
        st_bytes := {[ "user1_dailySummary" := "##### Unread Messages" ]};
        st_effects := [] |}).
Proof.
  destruct (PostToDo_only_on_change samplePlugin (ret (Ok "##### Unread Messages"))
              (fun userID message postType =>
                 emit (EffCreatePost {| post_UserId := "bot"; post_ChannelId := userID;
                                        post_RootId := EmptyString;
                                        post_Message := message;
                                        post_Type := postType |}))
              sampleUserInfo
              {| SidebarButtons := EmptyString; DailyReminder := true;
                 DailyReminderOnChange := true; Notifications := true |}
              "user1" "##### Unread Messages"
              {| st_subscriptions := None;
                 st_bytes := {[ "user1_dailySummary" := "##### Unread Messages" ]};
                 st_effects := [] |}
              {| st_subscriptions := None;
                 st_bytes := {[ "user1_dailySummary" := "##### Unread Messages" ]};
                 st_effects := [] |}
              eq_refl eq_refl eq_refl eq_refl) as [Hsame _].
  apply Hsame. vm_compute. reflexivity.
Defined.

(** ** The notification setting and the GitHub name of a user *)

(** X23. The setting [notifications] keeps the record that maps the GitHub
    name of the user to the chat user in step.  When the store works and
    writing the record of the user leaves that mapping alone:
    [notifications on] turns the setting on and afterwards
    [getGitHubToUserIDMapping] finds the user; [notifications off] turns it
    off and afterwards the GitHub name maps to no user; any other value is
    refused and changes neither the setting nor the store. *)
Theorem notifications_setting_keeps_the_mapping (p : Plugin)
    (storeGitHubUserInfo : GitHubUserInfo -> UserSettings -> M (option string))
    (userInfo : GitHubUserInfo) (settings : UserSettings) (st : State) :
  let key := GitHubUsername userInfo +:+ githubUsernameKey in
  (forall (info : GitHubUserInfo) (s : UserSettings) (st0 : State),
     exists (err : option string) (st1 : State),
       storeGitHubUserInfo info s st0 = (Returned err, st1)
       /\ st_bytes st1 !! key = st_bytes st0 !! key) ->
  store_Set_error p key = None ->
  store_Delete_error p key = None ->
  store_Get_error p key = None ->
  (exists (message : string) (settings' : UserSettings) (st' : State),
     handleSettings p storeGitHubUserInfo ["notifications"; "on"] userInfo settings st
     = (Returned (message, settings'), st')
     /\ Notifications settings' = true
     /\ getGitHubToUserIDMapping p (GitHubUsername userInfo) st'
        = (Returned (UserID userInfo), st'))
  /\ (exists (message : string) (settings' : UserSettings) (st' : State),
        handleSettings p storeGitHubUserInfo ["notifications"; "off"] userInfo settings st
        = (Returned (message, settings'), st')
        /\ Notifications settings' = false
        /\ getGitHubToUserIDMapping p (GitHubUsername userInfo) st'
           = (Returned EmptyString, st'))
  /\ (forall value : string,
        value <> "on" -> value <> "off" ->
        handleSettings p storeGitHubUserInfo ["notifications"; value] userInfo settings st
        = (Returned ("Invalid value. Accepted values are: " +:+ quoted "on" +:+ " or "
                     +:+ quoted "off" +:+ ".", settings), st)).
Proof.
  intros key Hstore Hset Hdelete Hget.
  assert (Hmapping : forall st0 : State,
             getGitHubToUserIDMapping p (GitHubUsername userInfo) st0
             = (Returned (default EmptyString (st_bytes st0 !! key)), st0)).
  { intros st0. unfold getGitHubToUserIDMapping, bind. fold key.
    rewrite (store_Get_bytes_ok p key st0 Hget). reflexivity. }
  split; [|split].
  - unfold handleSettings.
    change (changedSettings "notifications" "on" settings)
      with (Ok {| SidebarButtons := SidebarButtons settings;
                  DailyReminder := DailyReminder settings;
                  DailyReminderOnChange := DailyReminderOnChange settings;
                  Notifications := true |}).
    cbn [String.eqb Ascii.eqb Bool.eqb settingNotifications Notifications].
    unfold storeGitHubToUserIDMapping, bind. fold key.
    rewrite (store_Set_bytes_ok p key _ st Hset). cbv beta iota. unfold ret at 1 2.
    cbv beta iota.
    match goal with
    | |- context [storeGitHubUserInfo ?info ?s ?st0] =>
        destruct (Hstore info s st0) as (err & st1 & -> & Hkept)
    end.
    cbn [st_bytes] in Hkept. rewrite lookup_insert_eq in Hkept.
    destruct err as [e|].
    + eexists. eexists. eexists. split; [unfold bind, LogWarn, emit, ret; reflexivity|].
      split; [reflexivity|]. rewrite Hmapping. cbn [st_bytes]. rewrite Hkept. reflexivity.
    + eexists. eexists. eexists. split; [reflexivity|].
      split; [reflexivity|]. rewrite Hmapping. rewrite Hkept. reflexivity.
  - unfold handleSettings.
    change (changedSettings "notifications" "off" settings)
      with (Ok {| SidebarButtons := SidebarButtons settings;
                  DailyReminder := DailyReminder settings;
                  DailyReminderOnChange := DailyReminderOnChange settings;
                  Notifications := false |}).
    cbn [String.eqb Ascii.eqb Bool.eqb settingNotifications Notifications].
    unfold bind. fold key.
    rewrite (store_Delete_ok p key st Hdelete). cbv beta iota. unfold ret at 1.
    cbv beta iota.
    match goal with
    | |- context [storeGitHubUserInfo ?info ?s ?st0] =>
        destruct (Hstore info s st0) as (err & st1 & -> & Hkept)
    end.
    cbn [st_bytes] in Hkept. rewrite lookup_delete_eq in Hkept.
    destruct err as [e|].
    + eexists. eexists. eexists. split; [unfold bind, LogWarn, emit, ret; reflexivity|].
      split; [reflexivity|]. rewrite Hmapping. cbn [st_bytes]. rewrite Hkept. reflexivity.
    + eexists. eexists. eexists. split; [reflexivity|].
      split; [reflexivity|]. rewrite Hmapping. rewrite Hkept. reflexivity.
  - intros value Hon Hoff. unfold handleSettings, changedSettings.
    cbn [String.eqb Ascii.eqb Bool.eqb settingNotifications].
    apply String.eqb_neq in Hon, Hoff. unfold settingOn, settingOff. rewrite Hon, Hoff.
    reflexivity.
Qed.

Lemma notifications_setting_keeps_the_mapping_witness :
  exists (message : string) (settings' : UserSettings) (st' : State),
    handleSettings samplePlugin (fun _ _ => ret None) ["notifications"; "on"] sampleUserInfo
      {| SidebarButtons := EmptyString; DailyReminder := true;
         DailyReminderOnChange := false; Notifications := false |} emptyState
    = (Returned (message, settings'), st')
    /\ Notifications settings' = true
    /\ getGitHubToUserIDMapping samplePlugin "octocat" st' = (Returned "user1", st').
Proof.
  apply (notifications_setting_keeps_the_mapping samplePlugin (fun _ _ => ret None)
           sampleUserInfo); try reflexivity.
  intros info s st0. exists None, st0. split; reflexivity.
Defined.

(** ** The command dispatch *)

Section Dispatch.

Implicit Types (p : Plugin) (args : CommandArgs) (st : State).

Lemma postCommandResponse_run p args text st :
  postCommandResponse p args text st
  = (Returned tt,
     {| st_subscriptions := st_subscriptions st;
        st_bytes := st_bytes st;
        st_effects :=
          st_effects st
          ++ [EffEphemeralPost (args_UserId args)
                {| post_UserId := BotUserID p; post_ChannelId := args_ChannelId args;
                   post_RootId := args_RootId args; post_Message := text;
                   post_Type := EmptyString |}] |}).
Proof. reflexivity. Qed.

Lemma postCommandResponse_sameStore p args text st :
  sameStore st (postCommandResponse p args text st).2.
Proof. split; reflexivity. Qed.

Lemma startWizard_run p wizard userID st :
  exists err st',
    startWizard p wizard userID st = (Returned err, st')
    /\ sameStore st st'
    /\ (st_effects st' = st_effects st
        \/ st_effects st' = st_effects st ++ [EffStartWizard wizard userID]).
Proof.
  unfold startWizard. destruct (flowManager_Start p wizard userID) as [e|].
  - exists (Some e), st. split; [reflexivity|]. split; [apply sameStore_refl|]. left. reflexivity.
  - eexists. eexists. split; [reflexivity|]. split; [split; reflexivity|]. right. reflexivity.
Qed.

(** [handleSetup] returns, leaves the store alone, and adds at most one
    effect: a warning when the user cannot be looked up, or the start of a
    wizard when the user is a system admin. *)
Lemma handleSetup_run p args parameters st :
  exists message st',
    handleSetup p args parameters st = (Returned message, st')
    /\ sameStore st st'
    /\ (st_effects st' = st_effects st
        \/ (exists e, client_User_Get p (args_UserId args) = Err e
                      /\ st_effects st'
                         = st_effects st ++ [EffLog "warn"
                             "Failed to check if user is System Admin"])
        \/ (exists user wizard,
              client_User_Get p (args_UserId args) = Ok user
              /\ Contains (Roles user) "system_admin" = true
              /\ wizard ∈ ["setup"; "oauth"; "webhook"; "announcement"]
              /\ st_effects st' = st_effects st ++ [EffStartWizard wizard (args_UserId args)])).
Proof.
  unfold handleSetup, isAuthorizedSysAdmin.
  destruct (client_User_Get p (args_UserId args)) as [user|e] eqn:Huser.
  2:{ eexists. eexists. split; [reflexivity|]. split; [split; reflexivity|].
      right; left. exists e. split; reflexivity. }
  destruct (Contains (Roles user) "system_admin") eqn:Hadmin.
  2:{ eexists. eexists. split; [reflexivity|]. split; [apply sameStore_refl|]. left. reflexivity. }
  assert (Hwizard : forall wizard,
             wizard ∈ ["setup"; "oauth"; "webhook"; "announcement"] ->
             exists message st',
               (do started <- (do err <- startWizard p wizard (args_UserId args);
                               ret (@Ok (option string) err));
                match started with
                | Err m => ret m
                | Ok (Some e) => ret e
                | Ok None => ret EmptyString
                end) st = (Returned message, st')
               /\ sameStore st st'
               /\ (st_effects st' = st_effects st
                   \/ (exists e, @Ok User user = Err e
                                 /\ st_effects st'
                                    = st_effects st
                                      ++ [EffLog "warn" "Failed to check if user is System Admin"])
                   \/ (exists user0 wizard0,
                         @Ok User user = Ok user0
                         /\ Contains (Roles user0) "system_admin" = true
                         /\ wizard0 ∈ ["setup"; "oauth"; "webhook"; "announcement"]
                         /\ st_effects st'
                            = st_effects st ++ [EffStartWizard wizard0 (args_UserId args)]))).
  { intros wizard Hin.
    destruct (startWizard_run p wizard (args_UserId args) st) as (err & st' & Hrun & Hsame & Heff).
    unfold bind. rewrite Hrun.
    destruct err as [e|]; eexists; eexists; (split; [reflexivity|]); (split; [exact Hsame|]);
      (destruct Heff as [Heff|Heff]; [left; exact Heff|]);
      right; right; exists user, wizard; auto. }
  cbv zeta.
  destruct parameters as [|command rest].
  { apply Hwizard. left. }
  destruct (String.eqb command "oauth"); [apply Hwizard; right; left|].
  destruct (String.eqb command "webhook"); [apply Hwizard; right; right; left|].
  destruct (String.eqb command "announcement"); [apply Hwizard; right; right; right; left|].
  eexists. eexists. split; [reflexivity|]. split; [apply sameStore_refl|]. left. reflexivity.
Qed.

Lemma executeConnect_run p args parameters st :
  exists text,
    executeConnect p args parameters st
    = postCommandResponse p args text st.
Proof.
  unfold executeConnect. destruct (buildPluginURL p) as [connectURL|e]; [|eexists; reflexivity].
  destruct (0 <? length parameters)%nat.
  - destruct (ConnectToPrivateByDefault (configuration p)); [eexists; reflexivity|].
    destruct parameters as [|only [|more rest]]; try (eexists; reflexivity).
    destruct (String.eqb only "private"); [|eexists; reflexivity].
    destruct (EnablePrivateRepo (configuration p)); eexists; reflexivity.
  - destruct (ConnectToPrivateByDefault (configuration p)); [|eexists; reflexivity].
    destruct (EnablePrivateRepo (configuration p)); eexists; reflexivity.
Qed.

End Dispatch.

(** X24. [ExecuteCommand] changes the store only through a registered
    handler, run for a connected user under a valid configuration.  A
    command whose first word is not [/github] does nothing at all.  For
    every other command either the store is left as it was, or the
    configuration is valid, the action is none of [about], [setup] and
    [connect], the user has a connected account, the action has a handler,
    and the store is as that handler left it. *)
Theorem ExecuteCommand_store_gate (p : Plugin) (args : CommandArgs) (st : State) :
  let result := ExecuteCommand p args st in
  (forall (cmd action : string) (parameters : list string),
     parseCommand (Command args) = Some (cmd, action, parameters) ->
     cmd <> "/github" -> result = (Returned tt, st))
  /\ (sameStore st result.2
      \/ exists (action : string) (parameters : list string) (info : GitHubUserInfo)
                (handler : CommandArgs -> list string -> GitHubUserInfo -> M string),
           parseCommand (Command args) = Some ("/github", action, parameters)
           /\ action <> "about" /\ action <> "setup" /\ action <> "connect"
           /\ IsValid (configuration p) = None
           /\ getGitHubUserInfo p (args_UserId args) = inl info
           /\ CommandHandlers p !! action = Some handler
           /\ sameStore (handler args parameters info st).2 result.2).
Proof.
  intros result. subst result. unfold ExecuteCommand.
  destruct (parseCommand (Command args)) as [[[cmd action] parameters]|];
    [|split; [discriminate|left; apply sameStore_refl]].
  destruct (String.eqb cmd "/github") eqn:Hcmd; cbn [negb].
  2:{ split; [reflexivity|]. left. apply sameStore_refl. }
  apply String.eqb_eq in Hcmd as ->.
  split; [intros cmd' action' parameters' [= <- <- <-] Hne; congruence|].
  destruct (String.eqb action "about") eqn:Habout;
    [left; apply postCommandResponse_sameStore|].
  destruct (String.eqb action "setup") eqn:Hsetup.
  { left. unfold bind.
    destruct (handleSetup_run p args parameters st) as (message & st' & -> & Hsame & _).
    destruct (negb (String.eqb message EmptyString)); [|exact Hsame].
    eapply sameStore_trans; [exact Hsame|apply postCommandResponse_sameStore]. }
  destruct (IsValid (configuration p)) as [validationErr|] eqn:Hvalid.
  { left. destruct (isAuthorizedSysAdmin p (args_UserId args)) as [[|]|e];
      try apply postCommandResponse_sameStore.
    unfold bind, LogWarn, emit. split; reflexivity. }
  destruct (String.eqb action "connect") eqn:Hconnect.
  { left. destruct (executeConnect_run p args parameters st) as (text & ->).
    apply postCommandResponse_sameStore. }
  destruct (getGitHubUserInfo p (args_UserId args)) as [info|errorID] eqn:Hinfo;
    [|left; apply postCommandResponse_sameStore].
  destruct (CommandHandlers p !! action) as [handler|] eqn:Hhandler;
    [|left; apply postCommandResponse_sameStore].
  right. exists action, parameters, info, handler.
  apply String.eqb_neq in Habout, Hsetup, Hconnect.
  repeat (split; [first [assumption|reflexivity]|]).
  unfold bind. destruct (handler args parameters info st) as [[message|reason] st1];
    cbn [snd]; [|apply sameStore_refl].
  destruct (negb (String.eqb message EmptyString));
    [apply postCommandResponse_sameStore|apply sameStore_refl].
Qed.

(** X25. [handleSetup] starts a wizard only for a system admin.  It always
    returns and never touches the store; the only effects it can add are a
    warning when the user cannot be looked up, and the start of one of the
    four wizards, for the user of the command, when the roles of that user
    contain [system_admin]. *)
Theorem handleSetup_admin_only (p : Plugin) (args : CommandArgs) (parameters : list string)
    (st : State) :
  exists (message : string) (st' : State),
    handleSetup p args parameters st = (Returned message, st')
    /\ sameStore st st'
    /\ (forall wizard userID : string,
          EffStartWizard wizard userID ∈ st_effects st' ->
          EffStartWizard wizard userID ∈ st_effects st
          \/ (userID = args_UserId args
              /\ wizard ∈ ["setup"; "oauth"; "webhook"; "announcement"]
              /\ exists user : User,
                   client_User_Get p (args_UserId args) = Ok user
                   /\ Contains (Roles user) "system_admin" = true)).
Proof.
  destruct (handleSetup_run p args parameters st) as (message & st' & Hrun & Hsame & Heff).
  exists message, st'. split; [exact Hrun|]. split; [exact Hsame|].
  intros wizard userID Hin.
  destruct Heff as [Heff|[(e & _ & Heff)|(user & wizard0 & Huser & Hadmin & Hwizard & Heff)]];
    rewrite Heff in Hin.
  - left. exact Hin.
  - apply elem_of_app in Hin as [Hin|Hin]; [left; exact Hin|].
    apply list_elem_of_singleton in Hin. discriminate Hin.
  - apply elem_of_app in Hin as [Hin|Hin]; [left; exact Hin|].
    apply list_elem_of_singleton in Hin. injection Hin as -> ->.
    right. split; [reflexivity|]. split; [exact Hwizard|]. exists user. auto.
Qed.

(** ** The webhook check *)

Section WebhookCheck.

Implicit Types (p : Plugin) (st : State).

Lemma scanHooks_existsb siteURL (githubHooks : list (option string)) :
  Forall (fun hook => is_Some hook) githubHooks ->
  scanHooks siteURL githubHooks = Some (existsb (hookPointsAt siteURL) githubHooks).
Proof.
  induction githubHooks as [|hook rest IH]; intros Hurls; [reflexivity|].
  pose proof (Forall_inv Hurls) as [url ->]. cbn [scanHooks existsb hookPointsAt].
  destruct (Contains url siteURL); [reflexivity|]. apply IH, (Forall_inv_tail Hurls).
Qed.

Lemma hooksLoop_run p userID siteURL pages found st :
  Forall (fun page : list (option string) * option string => page.2 = None) pages ->
  Forall (fun page : list (option string) * option string =>
            Forall (fun hook => is_Some hook) page.1) pages ->
  hooksLoop p userID siteURL pages found st
  = (Returned (found || existsb (fun page => existsb (hookPointsAt siteURL) page.1) pages,
               None), st).
Proof.
  revert found. induction pages as [|[githubHooks err] rest IH]; intros found Herr Hurls.
  { cbn. rewrite orb_false_r. reflexivity. }
  pose proof (Forall_inv Herr) as Hnone. cbn in Hnone. subst err.
  cbn [hooksLoop useGitHubClient]. unfold bind at 1. unfold ret at 1.
  rewrite (scanHooks_existsb siteURL githubHooks (Forall_inv Hurls)).
  cbn [existsb fst]. rewrite orb_assoc.
  destruct rest as [|page rest'].
  - cbn [existsb]. rewrite orb_false_r. reflexivity.
  - apply IH; [exact (Forall_inv_tail Herr)|exact (Forall_inv_tail Hurls)].
Qed.

End WebhookCheck.

(** X26. [checkIfConfiguredWebhookExists] answers whether some hook on some
    page points at the site.  When the site URL is known, every page is
    listed without an error and every hook has a url, the check returns
    without an error, adds no effect, leaves the store alone, and its
    answer is true exactly when the url of some hook of some page contains
    the site URL. *)
Theorem webhook_check_finds_the_hook (p : Plugin) (userInfo : GitHubUserInfo)
    (repo owner siteURL : string) (st : State) :
  getSiteURL p = Ok siteURL ->
  Forall (fun page : list (option string) * option string => page.2 = None)
    (ListHooks p owner repo) ->
  Forall (fun page : list (option string) * option string =>
            Forall (fun hook => is_Some hook) page.1) (ListHooks p owner repo) ->
  exists found : bool,
    checkIfConfiguredWebhookExists p userInfo repo owner st = (Returned (found, None), st)
    /\ (found = true <->
        exists (page : list (option string) * option string) (url : string),
          page ∈ ListHooks p owner repo /\ Some url ∈ page.1
          /\ Contains url siteURL = true).
Proof.
  intros Hsite Herr Hurls. unfold checkIfConfiguredWebhookExists. rewrite Hsite.
  rewrite (hooksLoop_run p (UserID userInfo) siteURL _ false st Herr Hurls).
  eexists. split; [reflexivity|]. cbn [orb].
  rewrite existsb_exists. split.
  - intros (page & Hpage & Hfound). apply existsb_exists in Hfound as (hook & Hhook & Hpoints).
    destruct hook as [url|]; [|discriminate Hpoints].
    exists page, url. rewrite !list_elem_of_In. auto.
  - intros (page & url & Hpage & Hhook & Hpoints). exists page.
    rewrite <- list_elem_of_In. split; [exact Hpage|].
    apply existsb_exists. exists (Some url). rewrite <- list_elem_of_In. auto.
Qed.

Lemma webhook_check_finds_the_hook_witness :
  exists found : bool,
    checkIfConfiguredWebhookExists samplePlugin sampleUserInfo "widgets" "acme" emptyState
    = (Returned (found, None), emptyState)
    /\ (found = true <->
        exists (page : list (option string) * option string) (url : string),
          page ∈ ListHooks samplePlugin "acme" "widgets" /\ Some url ∈ page.1
          /\ Contains url "https://mattermost.example.com" = true).
Proof.
  apply (webhook_check_finds_the_hook samplePlugin sampleUserInfo "widgets" "acme"
           "https://mattermost.example.com" emptyState).
  - reflexivity.
  - repeat constructor.
  - repeat constructor. eexists. reflexivity.
Defined.

(** ** The emoji map *)

Section EmojiMap.

Lemma HasPrefix_both (e k1 k2 : string) :
  HasPrefix e k1 = true -> HasPrefix e k2 = true ->
  HasPrefix k1 k2 = true \/ HasPrefix k2 k1 = true.
Proof.
  unfold HasPrefix. revert k1 k2.
  induction e as [|c e IH]; intros [|c1 k1] [|c2 k2]; cbn; auto; try discriminate.
  destruct (ascii_dec c1 c) as [->|]; [|discriminate].
  destruct (ascii_dec c2 c) as [->|]; [|discriminate].
  destruct (ascii_dec c c); [|congruence]. apply IH.
Qed.

(** No name of the base map begins another name of the base map. *)
Lemma baseGithubEmojiMap_apart (x y : string * string) :
  In x baseGithubEmojiMap -> In y baseGithubEmojiMap ->
  HasPrefix x.1 y.1 = true -> x.2 = y.2.
Proof.
  intros Hx Hy.
  assert (Hall : forallb (fun x : string * string =>
                            forallb (fun y : string * string =>
                                       implb (HasPrefix x.1 y.1) (String.eqb x.2 y.2))
                              baseGithubEmojiMap) baseGithubEmojiMap = true)
    by (vm_compute; reflexivity).
  rewrite forallb_forall in Hall. specialize (Hall x Hx).
  rewrite forallb_forall in Hall. specialize (Hall y Hy).
  intros Hprefix. rewrite Hprefix in Hall. apply String.eqb_eq, Hall.
Qed.

Lemma baseGithubEmojiMap_one_value (e : string) (x y : string * string) :
  In x baseGithubEmojiMap -> In y baseGithubEmojiMap ->
  HasPrefix e x.1 = true -> HasPrefix e y.1 = true -> x.2 = y.2.
Proof.
  intros Hx Hy Hex Hey.
  destruct (HasPrefix_both e x.1 y.1 Hex Hey) as [H|H].
  - apply baseGithubEmojiMap_apart; assumption.
  - symmetry. apply baseGithubEmojiMap_apart; assumption.
Qed.

(** The inner loop, over any list whose matching entries agree on the
    value. *)
Lemma emojiStep_fold (e : string) (entries : list (string * string))
    (emojiMap : gmap string string) :
  (forall x y, In x entries -> In y entries ->
               HasPrefix e x.1 = true -> HasPrefix e y.1 = true -> x.2 = y.2) ->
  fold_left (emojiStep e) entries emojiMap
  = match List.find (fun entry : string * string => HasPrefix e entry.1) entries with
    | Some entry => <[e := entry.2]> emojiMap
    | None => emojiMap
    end.
Proof.
  revert emojiMap. induction entries as [|x rest IH]; intros emojiMap Hone; [reflexivity|].
  cbn [fold_left List.find]. unfold emojiStep at 2.
  assert (Hrest : forall x y, In x rest -> In y rest ->
                              HasPrefix e x.1 = true -> HasPrefix e y.1 = true -> x.2 = y.2)
    by (intros a b Ha Hb; apply Hone; right; assumption).
  destruct (HasPrefix e x.1) eqn:Hx; [|apply IH, Hrest].
  rewrite (IH _ Hrest).
  destruct (List.find (fun entry : string * string => HasPrefix e entry.1) rest)
    as [y|] eqn:Hfind; [|reflexivity].
  apply find_some in Hfind as [Hy Hey].
  rewrite insert_insert_eq. f_equal. symmetry. apply Hone; auto; [left; reflexivity|right; exact
      Hy].
Qed.

Lemma find_value_perm (e : string) (entries : list (string * string)) :
  entries ≡ₚ baseGithubEmojiMap ->
  snd <$> List.find (fun entry : string * string => HasPrefix e entry.1) entries
  = snd <$> List.find (fun entry : string * string => HasPrefix e entry.1) baseGithubEmojiMap.
Proof.
  intros Hperm.
  assert (Hin : forall x, In x entries <-> In x baseGithubEmojiMap).
  { intros x. rewrite <- !list_elem_of_In. rewrite Hperm. reflexivity. }
  destruct (List.find _ entries) as [x|] eqn:Hx;
    destruct (List.find _ baseGithubEmojiMap) as [y|] eqn:Hy; cbn; try reflexivity.
  - apply find_some in Hx as [Hx Hex]. apply find_some in Hy as [Hy Hey].
    f_equal. apply (baseGithubEmojiMap_one_value e); auto. apply Hin, Hx.
  - apply find_some in Hx as [Hx Hex].
    pose proof (find_none _ _ Hy x (proj1 (Hin x) Hx)) as Hno. cbn in Hno. congruence.
  - apply find_some in Hy as [Hy Hey].
    pose proof (find_none _ _ Hx y (proj2 (Hin y) Hy)) as Hno. cbn in Hno. congruence.
Qed.

End EmojiMap.

(** X27. The emoji map does not depend on the order in which the two maps
    are ranged over.  Whatever the order of the system emojis, and
    whatever order the base map is visited in for each of them, the map
    [createGithubEmojiMap] leaves holds exactly the system emojis that
    begin with a name of the base map, each with the GitHub reaction of
    that name. *)
Theorem createGithubEmojiMap_order_free (systemEmojis : list string)
    (baseRange : string -> list (string * string)) :
  (forall systemEmoji : string, baseRange systemEmoji ≡ₚ baseGithubEmojiMap) ->
  forall e : string,
    createGithubEmojiMap systemEmojis baseRange !! e
    = if decide (e ∈ systemEmojis)
      then snd <$> List.find (fun entry : string * string => HasPrefix e entry.1)
                     baseGithubEmojiMap
      else None.
Proof.
  intros Hperm e. unfold createGithubEmojiMap.
  set (value := fun s : string =>
                  snd <$> List.find (fun entry : string * string => HasPrefix s entry.1)
                            baseGithubEmojiMap).
  change (fold_left
            (fun emojiMap systemEmoji =>
               fold_left (emojiStep systemEmoji) (baseRange systemEmoji) emojiMap)
            systemEmojis ∅ !! e
          = if decide (e ∈ systemEmojis) then value e else None).
  assert (Hstep : forall (s : string) (m : gmap string string),
             fold_left (emojiStep s) (baseRange s) m
             = match value s with
               | Some gh => <[s := gh]> m
               | None => m
               end).
  { intros s m. unfold value. rewrite <- (find_value_perm s (baseRange s) (Hperm s)).
    rewrite emojiStep_fold.
    - destruct (List.find _ (baseRange s)); reflexivity.
    - intros x y Hx Hy. apply baseGithubEmojiMap_one_value.
      + rewrite <- list_elem_of_In, <- (Hperm s), list_elem_of_In. exact Hx.
      + rewrite <- list_elem_of_In, <- (Hperm s), list_elem_of_In. exact Hy. }
  clearbody value.
  assert (Hfold : forall (l : list string) (m : gmap string string),
             fold_left (fun emojiMap systemEmoji =>
                          fold_left (emojiStep systemEmoji) (baseRange systemEmoji) emojiMap)
               l m !! e
             = if decide (e ∈ l)
               then match value e with
                    | Some gh => Some gh
                    | None => m !! e
                    end
               else m !! e).
  { induction l as [|s l IH]; intros m.
    { cbn [fold_left]. destruct (decide (e ∈ [])) as [Hin|]; [inversion Hin|reflexivity]. }
    cbn [fold_left]. rewrite IH, Hstep.
    destruct (decide (e = s)) as [<-|Hne].
    - destruct (decide (e ∈ e :: l)) as [_|Hout]; [|exfalso; apply Hout; left].
      destruct (value e) as [gh|]; destruct (decide (e ∈ l)); try reflexivity.
      apply lookup_insert_eq.
    - assert (Hsame : forall m' : gmap string string,
                 match value s with
                 | Some gh => <[s := gh]> m'
                 | None => m'
                 end !! e = m' !! e).
      { intros m'. destruct (value s); [|reflexivity].
        apply lookup_insert_ne. congruence. }
      rewrite Hsame.
      destruct (decide (e ∈ l)) as [Hin|Hout];
        destruct (decide (e ∈ s :: l)) as [Hin'|Hout']; try reflexivity.
      + exfalso. apply Hout'. right. exact Hin.
      + exfalso. apply elem_of_cons in Hin' as [?|?]; [congruence|contradiction]. }
  rewrite Hfold. rewrite lookup_empty.
  destruct (decide (e ∈ systemEmojis)); [|reflexivity].
  destruct (value e); reflexivity.
Qed.

Lemma createGithubEmojiMap_order_free_witness :
  createGithubEmojiMap ["heart_eyes"; "smile"; "+1"] (fun _ => reverse baseGithubEmojiMap)
    !! "heart_eyes"
  = Some "heart".
Proof.
  rewrite (createGithubEmojiMap_order_free ["heart_eyes"; "smile"; "+1"]
             (fun _ => reverse baseGithubEmojiMap)).
  - vm_compute. reflexivity.
  - intros _. apply reverse_Permutation.
Defined.

(** ** What the add command stores *)

Section AddCommand.

Implicit Types (p : Plugin) (st : State) (flags : SubscriptionFlags).
















End AddCommand.

